(** * ReadMeABook: acquisition pipeline, shallow embedding

    The development follows the TypeScript sources:

    - [src/lib/utils/path-mapper.ts]                    (module [PathMapper])
    - [src/lib/utils/logger.ts]                         (module [Logger])
    - [src/lib/processors/search-indexers.processor.ts] (module [SearchIndexers])
    - the Fetch E-book API route ([POST])               (module [FetchEbook])

    The ranking engine ([src/lib/utils/ranking-algorithm.ts]) and the job
    queue service are described by the specification and by
    [documentation/phase3/ranking-algorithm.md]; modules [RankingSpec] and
    [JobQueue] follow that prose.

    JavaScript strings are [string]; JavaScript numbers that carry scores
    are rationals ([Q]); database tables are lists of records in storage
    order; code that awaits, throws and catches is written in a small
    state-and-exception monad. *)

From Stdlib Require Import String Ascii List Bool Arith ZArith QArith Lia.
From Stdlib Require Import DecimalString.
From Stdlib Require Import Reals Lra.
Import ListNotations.

Local Open Scope list_scope.
Local Open Scope string_scope.

(* ================================================================== *)
(** ** JavaScript string primitives used by the sources *)

Module Js.

(** [s.startsWith(p)] *)
Definition startsWith (s p : string) : bool := String.prefix p s.

(** [s.substring(n)] for [0 <= n]  *)
Fixpoint substring_from (n : nat) (s : string) : string :=
  match n, s with
  | O, _ => s
  | S _, EmptyString => EmptyString
  | S n', String _ s' => substring_from n' s'
  end.

(** [s.endsWith("/")]-style test on the last character *)
Fixpoint endsWithChar (c : ascii) (s : string) : bool :=
  match s with
  | EmptyString => false
  | String a EmptyString => Ascii.eqb a c
  | String _ s' => endsWithChar c s'
  end.

(** [s.slice(0, -1)] *)
Fixpoint dropLast (s : string) : string :=
  match s with
  | EmptyString => EmptyString
  | String _ EmptyString => EmptyString
  | String a s' => String a (dropLast s')
  end.

(** [s.replace(/\\/g, '/')] *)
Fixpoint replaceBackslashes (s : string) : string :=
  match s with
  | EmptyString => EmptyString
  | String a s' =>
      String (if Ascii.eqb a "\"%char then "/"%char else a)
             (replaceBackslashes s')
  end.

(** [s.split(sep)] for a one-character separator: never the empty list. *)
Fixpoint split (sep : ascii) (s : string) : list string :=
  match s with
  | EmptyString => [EmptyString]
  | String a s' =>
      if Ascii.eqb a sep then EmptyString :: split sep s'
      else match split sep s' with
           | [] => [String a EmptyString]
           | seg :: rest => String a seg :: rest
           end
  end.

(** [xs.join(sep)] *)
Fixpoint join (sep : string) (xs : list string) : string :=
  match xs with
  | [] => EmptyString
  | [x] => x
  | x :: rest => x ++ sep ++ join sep rest
  end.

(** truthiness of a string: [!s] holds exactly for the empty string *)
Definition truthy (s : string) : bool :=
  match s with EmptyString => false | _ => true end.





End Js.

(* ================================================================== *)
(** ** Node's [path] module, POSIX flavour

    [path.normalize] and [path.join] belong to the runtime, not to the
    repository; they are modelled after Node's [posix] implementation:
    the path is cut at every slash, empty and ["."] segments are skipped,
    [".."] removes the segment before it (and is kept in front of a
    relative path). *)

Module NodePath.

(** One iteration of [normalizeString]; [res] holds the segments kept so
    far, most recent first. *)
Definition normalizeStep (allowAboveRoot : bool)
           (res : list string) (seg : string) : list string :=
  if String.eqb seg "" || String.eqb seg "." then res
  else if String.eqb seg ".." then
    match res with
    | top :: rest =>
        if String.eqb top ".."
        then (if allowAboveRoot then ".." :: res else res)
        else rest
    | [] => if allowAboveRoot then [".."] else []
    end
  else seg :: res.

Definition normalizeString (path : string) (allowAboveRoot : bool) : string :=
  Js.join "/" (rev (fold_left (normalizeStep allowAboveRoot)
                              (Js.split "/"%char path) [])).

Definition isAbsolute (path : string) : bool :=
  match path with
  | String a _ => Ascii.eqb a "/"%char
  | EmptyString => false
  end.

Definition normalize (path : string) : string :=
  match path with
  | EmptyString => "."
  | _ =>
      let absolute := isAbsolute path in
      let trailingSeparator := Js.endsWithChar "/"%char path in
      let p := normalizeString path (negb absolute) in
      match p with
      | EmptyString =>
          if absolute then "/"
          else if trailingSeparator then "./" else "."
      | _ =>
          let p' := if trailingSeparator then p ++ "/" else p in
          if absolute then "/" ++ p' else p'
      end
  end.

(** [path.join(a, b)]: the non-empty arguments joined by a slash, then
    normalised. *)
Definition join (a b : string) : string :=
  match a, b with
  | EmptyString, EmptyString => "."
  | EmptyString, _ => normalize b
  | _, EmptyString => normalize a
  | _, _ => normalize (a ++ "/" ++ b)
  end.

End NodePath.

(* ================================================================== *)
(** ** [PathMapper] (src/lib/utils/path-mapper.ts) *)

Module PathMapper.

Record PathMappingConfig := {
  enabled : bool;
  remotePath : string;
  localPath : string
}.

(** [private static normalizePath] *)
Definition normalizePath (filePath : string) : string :=
  let normalized := Js.replaceBackslashes filePath in
  let normalized := NodePath.normalize normalized in
  let normalized := Js.replaceBackslashes normalized in
  if (1 <? String.length normalized)%nat && Js.endsWithChar "/"%char normalized
  then Js.dropLast normalized
  else normalized.

(** [static transform]; the console diagnostics have no effect on the
    returned value and are left out. *)
Definition transform (qbittorrentPath : string) (config : PathMappingConfig)
  : string :=
  if negb (enabled config) then qbittorrentPath
  else if negb (Js.truthy qbittorrentPath)
          || negb (Js.truthy (remotePath config))
          || negb (Js.truthy (localPath config))
  then qbittorrentPath
  else
    let normalizedRemote := normalizePath (remotePath config) in
    let normalizedLocal := normalizePath (localPath config) in
    let normalizedQbPath := normalizePath qbittorrentPath in
    if negb (Js.startsWith normalizedQbPath normalizedRemote)
    then qbittorrentPath
    else
      let relativePath :=
        Js.substring_from (String.length normalizedRemote) normalizedQbPath in
      NodePath.join normalizedLocal relativePath.

(** The translation as the specification words it, for comparison with
    [transform]: the reported path itself is tested against
    [remotePrefix], and the prefix is replaced by [localPrefix]. *)
Definition transform_as_specified (reportedPath : string)
           (config : PathMappingConfig) : string :=
  if negb (enabled config) then reportedPath
  else if negb (Js.truthy reportedPath)
          || negb (Js.truthy (remotePath config))
          || negb (Js.truthy (localPath config))
  then reportedPath
  else if Js.startsWith reportedPath (remotePath config)
  then localPath config
       ++ Js.substring_from (String.length (remotePath config)) reportedPath
  else reportedPath.

(** Paths in normal form: [/seg1/seg2/...] with segments that are not
    empty, not ["."] or [".."], and free of slashes and backslashes. *)
Definition plainChar (c : ascii) : bool :=
  negb (Ascii.eqb c "/"%char) && negb (Ascii.eqb c "\"%char).

(** Segments without a slash or a backslash. *)
Definition plain (seg : string) : Prop :=
  forallb plainChar (list_ascii_of_string seg) = true.

Definition cleanSegment (seg : string) : bool :=
  Js.truthy seg
  && negb (String.eqb seg ".")
  && negb (String.eqb seg "..")
  && forallb plainChar (list_ascii_of_string seg).

Definition emptyOrClean (seg : string) : Prop :=
  seg = "" \/ cleanSegment seg = true.

Fixpoint absPath (segs : list string) : string :=
  match segs with
  | [] => EmptyString
  | seg :: rest => "/" ++ seg ++ absPath rest
  end.

End PathMapper.

(* ================================================================== *)
(** ** Persisted layout and the effect monad *)

Module Store.

Record Audiobook := {
  ab_id : string;
  ab_title : string;
  ab_author : string;
  audibleAsin : option string
}.

(** A row of the Request table.  [status] and [type] are plain strings in
    the sources.  The [audiobook] relation is dereferenced without a guard
    wherever the sources use it, so the row carries the joined record. *)
Record Request := {
  id : string;
  userId : string;
  audiobookId : string;
  audiobook : Audiobook;
  type : string;
  parentRequestId : option string;
  status : string;
  progress : Z;
  searchAttempts : Z;
  errorMessage : option string;
  lastSearchAt : option Z;
  updatedAt : Z;
  deletedAt : option Z
}.

(** What a job carries to the audiobook reference of its payload. *)
Record AudiobookRef := {
  ref_id : string;
  ref_title : string;
  ref_author : string;
  ref_asin : option string
}.

Record BonusModifier := { reason : string; points : Q }.

Record Breakdown := {
  matchScore : Q;
  formatScore : Q;
  seederScore : Q;
  notes : list string
}.

(** A search hit as the indexer service returns it. *)
Record TorrentResult := {
  title : string;
  indexer : string;
  indexerId : option Z;
  seeders : option Z;
  format : option string;
  size : Z
}.

(** A ranked hit: the hit plus what the ranking engine computed. *)
Record RankedTorrent := {
  torrent : TorrentResult;
  score : Q;
  bonusPoints : Q;
  bonusModifiers : list BonusModifier;
  finalScore : Q;
  breakdown : Breakdown
}.

Inductive QueuedJob :=
| SearchEbookJob (requestId : string) (audiobook : AudiobookRef)
| DownloadJob (requestId : string) (audiobook : AudiobookRef)
              (torrent : RankedTorrent).

Inductive MsgLevel := Ldebug | Linfo | Lwarn | Lerror.

(** [LogMetadata]: an object, key by key; the values are taken to be
    JSON-serialisable, as the error texts the callers pass are, so that
    [JSON.stringify] on them returns. *)
Definition LogMetadata := list (string * string).

Record JobEvent := {
  ev_jobId : string;
  ev_level : MsgLevel;
  ev_context : string;
  ev_message : string;
  ev_metadata : option LogMetadata
}.

Inductive ConsoleEntry :=
| ConsoleLine (level : MsgLevel) (text : string)
| ConsoleMetadata (metadata : LogMetadata).

(** The state every operation runs against: the tables, the queue, the
    console and the wall clock read by [new Date()]. *)
Record Db := {
  requests : list Request;
  configuration : list (string * string);
  jobs : list QueuedJob;
  job_events : list JobEvent;
  console : list ConsoleEntry;
  now : Z
}.

Definition with_requests (db : Db) (rs : list Request) : Db :=
  {| requests := rs; configuration := configuration db; jobs := jobs db;
     job_events := job_events db; console := console db; now := now db |}.

Definition with_jobs (db : Db) (js : list QueuedJob) : Db :=
  {| requests := requests db; configuration := configuration db; jobs := js;
     job_events := job_events db; console := console db; now := now db |}.

Definition with_job_events (db : Db) (es : list JobEvent) : Db :=
  {| requests := requests db; configuration := configuration db;
     jobs := jobs db; job_events := es; console := console db;
     now := now db |}.

Definition with_console (db : Db) (c : list ConsoleEntry) : Db :=
  {| requests := requests db; configuration := configuration db;
     jobs := jobs db; job_events := job_events db; console := c;
     now := now db |}.

(** A thrown JavaScript value: an [Error] instance or anything else. *)
Inductive Thrown :=
| Error (message : string)
| NonError.

Inductive Outcome (A : Type) :=
| Returned (a : A)
| Threw (e : Thrown).
Arguments Returned {A} a.
Arguments Threw {A} e.

(** Computations that read and write the store and may throw.  Writes made
    before a throw stay in the store. *)
Definition M (A : Type) : Type := Db -> Outcome A * Db.

Definition ret {A} (a : A) : M A := fun db => (Returned a, db).

Definition bind {A B} (m : M A) (k : A -> M B) : M B :=
  fun db =>
    match m db with
    | (Returned a, db') => k a db'
    | (Threw e, db') => (Threw e, db')
    end.

Definition throw {A} (e : Thrown) : M A := fun db => (Threw e, db).

(** [try { body } catch (e) { handler(e) }] *)
Definition tryCatch {A} (body : M A) (handler : Thrown -> M A) : M A :=
  fun db =>
    match body db with
    | (Returned a, db') => (Returned a, db')
    | (Threw e, db') => handler e db'
    end.

Definition get : M Db := fun db => (Returned db, db).
Definition modify (f : Db -> Db) : M unit := fun db => (Returned tt, f db).

Definition isReturned {A} (o : Outcome A) : bool :=
  match o with Returned _ => true | Threw _ => false end.

(** *** Prisma operations on the Request table *)

(** [prisma.request.findUnique({ where: { id } })] *)
Definition request_findUnique (rid : string) : M (option Request) :=
  fun db => (Returned (find (fun r => String.eqb (id r) rid) (requests db)), db).

(** [prisma.request.findFirst({ where })] *)
Definition request_findFirst (where_ : Request -> bool)
  : M (option Request) :=
  fun db => (Returned (find where_ (requests db)), db).

Definition existsb_id (rid : string) (rs : list Request) : bool :=
  existsb (fun r => String.eqb (id r) rid) rs.

(** [prisma.request.update({ where: { id }, data })]: rejects when no row
    has the id. *)
Definition request_update (rid : string) (data : Db -> Request -> Request)
  : M unit :=
  fun db =>
    if existsb_id rid (requests db)
    then (Returned tt,
          with_requests db
            (map (fun r => if String.eqb (id r) rid then data db r else r)
                 (requests db)))
    else (Threw (Error "Record to update not found."), db).

(** [prisma.request.create({ data })]; the row is appended. *)
Definition request_create (row : Request) : M Request :=
  fun db => (Returned row, with_requests db (requests db ++ [row])%list).

(** [prisma.configuration.findUnique({ where: { key } })], reduced to the
    [value] column. *)
Definition configuration_findUnique (key : string) : M (option string) :=
  fun db =>
    (Returned (option_map snd
                 (find (fun kv => String.eqb (fst kv) key) (configuration db))),
     db).

(** *** Field updates of a Request row, as the [data] of an update *)

Definition set_status (v : string) (r : Request) : Request :=
  {| id := id r; userId := userId r; audiobookId := audiobookId r;
     audiobook := audiobook r; type := type r;
     parentRequestId := parentRequestId r; status := v;
     progress := progress r; searchAttempts := searchAttempts r;
     errorMessage := errorMessage r; lastSearchAt := lastSearchAt r;
     updatedAt := updatedAt r; deletedAt := deletedAt r |}.

Definition set_progress (v : Z) (r : Request) : Request :=
  {| id := id r; userId := userId r; audiobookId := audiobookId r;
     audiobook := audiobook r; type := type r;
     parentRequestId := parentRequestId r; status := status r;
     progress := v; searchAttempts := searchAttempts r;
     errorMessage := errorMessage r; lastSearchAt := lastSearchAt r;
     updatedAt := updatedAt r; deletedAt := deletedAt r |}.

Definition set_searchAttempts (v : Z) (r : Request) : Request :=
  {| id := id r; userId := userId r; audiobookId := audiobookId r;
     audiobook := audiobook r; type := type r;
     parentRequestId := parentRequestId r; status := status r;
     progress := progress r; searchAttempts := v;
     errorMessage := errorMessage r; lastSearchAt := lastSearchAt r;
     updatedAt := updatedAt r; deletedAt := deletedAt r |}.

Definition set_errorMessage (v : option string) (r : Request) : Request :=
  {| id := id r; userId := userId r; audiobookId := audiobookId r;
     audiobook := audiobook r; type := type r;
     parentRequestId := parentRequestId r; status := status r;
     progress := progress r; searchAttempts := searchAttempts r;
     errorMessage := v; lastSearchAt := lastSearchAt r;
     updatedAt := updatedAt r; deletedAt := deletedAt r |}.

Definition set_lastSearchAt (v : option Z) (r : Request) : Request :=
  {| id := id r; userId := userId r; audiobookId := audiobookId r;
     audiobook := audiobook r; type := type r;
     parentRequestId := parentRequestId r; status := status r;
     progress := progress r; searchAttempts := searchAttempts r;
     errorMessage := errorMessage r; lastSearchAt := v;
     updatedAt := updatedAt r; deletedAt := deletedAt r |}.

Definition set_updatedAt (v : Z) (r : Request) : Request :=
  {| id := id r; userId := userId r; audiobookId := audiobookId r;
     audiobook := audiobook r; type := type r;
     parentRequestId := parentRequestId r; status := status r;
     progress := progress r; searchAttempts := searchAttempts r;
     errorMessage := errorMessage r; lastSearchAt := lastSearchAt r;
     updatedAt := v; deletedAt := deletedAt r |}.

(** Enqueueing through the job queue service appends to the work list. *)
Definition enqueue (j : QueuedJob) : M unit :=
  modify (fun db => with_jobs db (jobs db ++ [j])%list).

Definition liftOutcome {A} (o : Outcome A) : M A := fun db => (o, db).

Fixpoint forEach {A} (f : A -> M unit) (xs : list A) : M unit :=
  match xs with
  | [] => ret tt
  | x :: rest => bind (f x) (fun _ => forEach f rest)
  end.

Fixpoint mapM {A B} (f : A -> M B) (xs : list A) : M (list B) :=
  match xs with
  | [] => ret []
  | x :: rest =>
      bind (f x) (fun y => bind (mapM f rest) (fun ys => ret (y :: ys)))
  end.

End Store.

Declare Scope m_scope.
Delimit Scope m_scope with M.
Notation "x <- c1 ;; c2" := (Store.bind c1 (fun x => c2))
  (at level 61, c1 at next level, right associativity) : m_scope.
Notation "c1 ;; c2" := (Store.bind c1 (fun _ => c2))
  (at level 61, right associativity) : m_scope.

Local Open Scope m_scope.

(* ================================================================== *)
(** ** [RMABLogger] (src/lib/utils/logger.ts) *)

Module Logger.
Import Store.

Inductive LogLevel := debug_level | info_level | warn_level | error_level | quiet.

Definition levelOf (l : MsgLevel) : LogLevel :=
  match l with
  | Ldebug => debug_level
  | Linfo => info_level
  | Lwarn => warn_level
  | Lerror => error_level
  end.

(** Log level hierarchy (lower number = more verbose) *)
Definition LEVEL_PRIORITY (l : LogLevel) : Z :=
  match l with
  | debug_level => 0
  | info_level => 1
  | warn_level => 2
  | error_level => 3
  | quiet => 4
  end.

(** [level.toUpperCase()] *)
Definition levelTag (l : MsgLevel) : string :=
  match l with
  | Ldebug => "DEBUG"
  | Linfo => "INFO"
  | Lwarn => "WARN"
  | Lerror => "ERROR"
  end.

(** What the logger takes from its surroundings: the level cached at module
    load from [LOG_LEVEL], and whether the event store rejects a given
    insert (lost connection, missing job row, ...). *)
Record Env := {
  CONFIGURED_LOG_LEVEL : LogLevel;
  jobEvent_create_fails : Db -> JobEvent -> bool
}.

Record RMABLogger := {
  context : string;
  jobId : option string
}.

Definition create (context : string) : RMABLogger :=
  {| context := context; jobId := None |}.

Definition forJob (jobId : option string) (context : string) : RMABLogger :=
  {| context := context; jobId := jobId |}.

Definition child (this : RMABLogger) (subContext : string) : RMABLogger :=
  {| context := context this ++ "." ++ subContext; jobId := jobId this |}.

(** [this.jobId] as a condition: set and not the empty string *)
Definition hasJobId (this : RMABLogger) : bool :=
  match jobId this with
  | Some jid => Js.truthy jid
  | None => false
  end.

Definition isDebug (level : MsgLevel) : bool :=
  match level with Ldebug => true | _ => false end.

(** The [data] of the row [persistToDatabase] creates. *)
Definition eventOf (this : RMABLogger) (level : MsgLevel) (message : string)
           (metadata : option LogMetadata) : JobEvent :=
  {| ev_jobId := match jobId this with Some jid => jid | None => "" end;
     ev_level := level;
     ev_context := context this;
     ev_message := message;
     ev_metadata := metadata |}.

Section WithEnv.
Variable E : Env.

Definition CONFIGURED_LOG_PRIORITY : Z :=
  LEVEL_PRIORITY (CONFIGURED_LOG_LEVEL E).

(** [prisma.jobEvent.create({ data })]: a promise that either inserts the
    row or rejects. *)
Definition jobEvent_create (ev : JobEvent) : M unit :=
  fun db =>
    if jobEvent_create_fails E db ev
    then (Threw (Error "jobEvent.create failed"), db)
    else (Returned tt, with_job_events db (job_events db ++ [ev])%list).

Definition console_write (e : ConsoleEntry) : M unit :=
  modify (fun db => with_console db (console db ++ [e])%list).

(** [private persistToDatabase]: [create({ data }).catch(() => {})] *)
Definition persistToDatabase (this : RMABLogger)
           (level : MsgLevel) (message : string)
           (metadata : option LogMetadata) : M unit :=
  tryCatch
    (jobEvent_create (eventOf this level message metadata))
    (fun _ => ret tt).

(** [private log]: the single point of [LOG_LEVEL] checking. *)
Definition log (this : RMABLogger) (level : MsgLevel) (message : string)
           (metadata : option LogMetadata) : M unit :=
  let levelPriority := LEVEL_PRIORITY (levelOf level) in
  if (levelPriority <? CONFIGURED_LOG_PRIORITY)%Z then ret tt
  else
    let formattedMessage :=
      "[" ++ levelTag level ++ "] [" ++ context this ++ "] " ++ message in
    console_write (ConsoleLine level formattedMessage) ;;
    match metadata with
    | Some (k :: ks) => console_write (ConsoleMetadata (k :: ks))
    | _ => ret tt
    end ;;
    if hasJobId this && negb (isDebug level)
    then persistToDatabase this level message metadata
    else ret tt.

Definition debug (this : RMABLogger) (message : string)
           (metadata : option LogMetadata) : M unit :=
  log this Ldebug message metadata.

Definition info (this : RMABLogger) (message : string)
           (metadata : option LogMetadata) : M unit :=
  log this Linfo message metadata.

Definition warn (this : RMABLogger) (message : string)
           (metadata : option LogMetadata) : M unit :=
  log this Lwarn message metadata.

Definition error (this : RMABLogger) (message : string)
           (metadata : option LogMetadata) : M unit :=
  log this Lerror message metadata.

End WithEnv.

Definition getLogLevel (E : Env) : LogLevel := CONFIGURED_LOG_LEVEL E.

Definition isDebugEnabled (E : Env) : bool :=
  match CONFIGURED_LOG_LEVEL E with debug_level => true | _ => false end.

End Logger.

(* ================================================================== *)
(** ** Job Queue boundary *)

Module JobQueue.
Import Store.

(** Modelled from the spec: [status] of a Job (section 3); the job queue
    service is not among the sources. *)
Inductive JobStatus := queued | running | completed | failed.

(** Modelled from the spec: the Job record of section 3 (status, attempts,
    maxAttempts, result, errorMessage); the job queue service itself is
    not among the sources. *)
Record Job := {
  job_status : JobStatus;
  attempts : nat;
  maxAttempts : nat;
  job_result : option string;
  job_errorMessage : option string
}.

(** Modelled from the spec: [complete(jobId, result)] of section 4.1, the
    job queue service being absent: sets [status=completed] and stores the
    result. *)
Definition complete (j : Job) (result : string) : Job :=
  {| job_status := completed;
     attempts := attempts j;
     maxAttempts := maxAttempts j;
     job_result := Some result;
     job_errorMessage := job_errorMessage j |}.

(** Modelled from the spec: [fail(jobId, error)] of section 4.1, the job
    queue service being absent: increments [attempts]; if
    [attempts < maxAttempts] resets to [queued], otherwise sets
    [status=failed] and stores the error message. *)
Definition fail (j : Job) (err : string) : Job :=
  let a := S (attempts j) in
  if (a <? maxAttempts j)%nat
  then {| job_status := queued;
          attempts := a;
          maxAttempts := maxAttempts j;
          job_result := job_result j;
          job_errorMessage := job_errorMessage j |}
  else {| job_status := failed;
          attempts := a;
          maxAttempts := maxAttempts j;
          job_result := job_result j;
          job_errorMessage := Some err |}.

(** Modelled from the spec: the error text handed to [fail]; the job queue
    service is absent. *)
Definition thrownMessage (e : Thrown) : string :=
  match e with
  | Error m => m
  | NonError => "Unknown error"
  end.

(** Modelled from the spec: the boundary of section 4.1, the job queue
    service being absent: a processor that throws is routed to [fail], one
    that returns is routed to [complete]. *)
Definition settle {A} (j : Job) (show : A -> string) (out : Outcome A) : Job :=
  match out with
  | Returned a => complete j (show a)
  | Threw e => fail j (thrownMessage e)
  end.

End JobQueue.

(* ================================================================== *)
(** ** Rendering of numbers inside log messages *)

Module Fmt.

(** the double-quote character, for messages that quote a title *)
Definition dq : string := String (ascii_of_nat 34) EmptyString.

Definition ofNat (n : nat) : string :=
  NilEmpty.string_of_uint (Nat.to_uint n).

Definition ofZ (z : Z) : string :=
  NilEmpty.string_of_int (Z.to_int z).

(** [x.toFixed(1)]: one decimal, the nearer tenth, ties upwards in
    magnitude. *)
Definition toFixed1 (x : Q) : string :=
  let den := Zpos (Qden x) in
  let n := ((Z.abs (Qnum x) * 20 + den) / (2 * den))%Z in
  (if (Qnum x <? 0)%Z then "-" else "")
    ++ ofZ (n / 10) ++ "." ++ ofZ (n mod 10).

End Fmt.

(* ================================================================== *)
(** ** Search Indexers job processor
       (src/lib/processors/search-indexers.processor.ts) *)

Module SearchIndexers.
Import Store.

(** What [JSON.parse] yields. *)
#[warnings="-register-all"]
Inductive Json :=
| JNull
| JBool (b : bool)
| JNum (n : Q)
| JStr (s : string)
| JArr (items : list Json)
| JObj (fields : list (string * Json)).

Record SearchOptions := {
  category : Z;
  minSeeders : Z;
  maxResults : Z;
  indexerIds : list (option Json)
}.

Record SearchIndexersPayload := {
  requestId : string;
  audiobook : AudiobookRef;
  jobId : option string
}.

Record SelectedTorrent := {
  sel_title : string;
  sel_score : Q;
  sel_seeders : Z;
  sel_format : option string
}.

(** The structured value the processor returns. *)
Record Result := {
  success : bool;
  message : string;
  res_requestId : string;
  resultsCount : option nat;
  selectedTorrent : option SelectedTorrent
}.

(** The collaborators of the processor: configuration service, JSON
    parser, indexer service and ranking engine. *)
Record Env := {
  logEnv : Logger.Env;
  configService_get : string -> Outcome (option string);
  JSON_parse : string -> Outcome Json;
  getProwlarrService : Outcome unit;
  prowlarr_search : string -> SearchOptions -> Outcome (list TorrentResult);
  rankTorrents :
    list TorrentResult -> string * string ->
    list (option Json * Json) -> Json -> list RankedTorrent
}.

(** [value.name] on a parsed JSON value *)
Definition property (name : string) (value : Json) : Outcome (option Json) :=
  match value with
  | JNull => Threw (Error "Cannot read properties of null")
  | JObj fields =>
      Returned (option_map snd
                  (find (fun kv => String.eqb (fst kv) name) fields))
  | _ => Returned None
  end.

(** [value.map(f)]: only arrays have [map] *)
Definition arrayMap {B} (value : Json) (f : Json -> M B) : M (list B) :=
  match value with
  | JArr items => mapM f items
  | _ => throw (Error "indexersConfig.map is not a function")
  end.

(** [x ?? d] *)
Definition nullish (x : option Json) (d : Json) : Json :=
  match x with
  | None | Some JNull => d
  | Some v => v
  end.

(** The dual threshold of the processor. *)
Definition qualifies (result : RankedTorrent) : bool :=
  Qle_bool 50 (score result) && Qle_bool 50 (finalScore result).

Definition filteredResults (rankedResults : list RankedTorrent)
  : list RankedTorrent :=
  filter qualifies rankedResults.

Definition disqualifiedByNegativeBonus (rankedResults : list RankedTorrent)
  : nat :=
  List.length
    (filter (fun result =>
               Qle_bool 50 (score result)
               && negb (Qle_bool 50 (finalScore result)))
            rankedResults).

Definition separator : string :=
  "--------------------------------------------------------".

Section WithEnv.
Variable E : Env.

Definition info (lg : Logger.RMABLogger) (m : string) : M unit :=
  Logger.info (logEnv E) lg m None.
Definition warn (lg : Logger.RMABLogger) (m : string) : M unit :=
  Logger.warn (logEnv E) lg m None.
Definition error (lg : Logger.RMABLogger) (m : string) : M unit :=
  Logger.error (logEnv E) lg m None.

(** One round of the loop that logs the top three results. *)
Definition logResult (lg : Logger.RMABLogger) (count : nat)
           (i : nat) (result : RankedTorrent) : M unit :=
  let t := torrent result in
  info lg (Fmt.ofNat (i + 1) ++ ". " ++ Fmt.dq ++ title t ++ Fmt.dq) ;;
  info lg ("   Indexer: " ++ indexer t ++
           match indexerId t with
           | Some z => if (z =? 0)%Z then ""
                       else " (ID: " ++ Fmt.ofZ z ++ ")"
           | None => ""
           end) ;;
  info lg "" ;;
  info lg ("   Base Score: " ++ Fmt.toFixed1 (score result) ++ "/100") ;;
  info lg ("   - Title/Author Match: "
           ++ Fmt.toFixed1 (matchScore (breakdown result)) ++ "/60") ;;
  info lg ("   - Format Quality: "
           ++ Fmt.toFixed1 (formatScore (breakdown result)) ++ "/25 ("
           ++ match format t with
              | Some f => if Js.truthy f then f else "unknown"
              | None => "unknown"
              end ++ ")") ;;
  info lg ("   - Seeder Count: "
           ++ Fmt.toFixed1 (seederScore (breakdown result)) ++ "/15 ("
           ++ match seeders t with
              | Some n => Fmt.ofZ n ++ " seeders"
              | None => "N/A for Usenet"
              end ++ ")") ;;
  info lg "" ;;
  info lg ("   Bonus Points: +" ++ Fmt.toFixed1 (bonusPoints result)) ;;
  forEach (fun m => info lg ("   - " ++ reason m ++ ": +"
                             ++ Fmt.toFixed1 (points m)))
          (bonusModifiers result) ;;
  info lg "" ;;
  info lg ("   Final Score: " ++ Fmt.toFixed1 (finalScore result)) ;;
  match notes (breakdown result) with
  | [] => ret tt
  | ns => info lg ("   Notes: " ++ Js.join ", " ns)
  end ;;
  if (i <? count - 1)%nat then info lg separator else ret tt.

Fixpoint logResults (lg : Logger.RMABLogger) (count : nat) (i : nat)
         (results : list RankedTorrent) : M unit :=
  match results with
  | [] => ret tt
  | r :: rest => logResult lg count i r ;; logResults lg count (S i) rest
  end.

(** The body of the [try] block. *)
Definition searchAndSelect (lg : Logger.RMABLogger)
           (payload : SearchIndexersPayload) : M Result :=
  let rid := requestId payload in
  let book := audiobook payload in
  request_update rid
    (fun db r =>
       set_updatedAt (now db)
         (set_searchAttempts (searchAttempts r + 1)
            (set_status "searching" r))) ;;
  indexersConfigStr <- liftOutcome (configService_get E "prowlarr_indexers") ;;
  match indexersConfigStr with
  | None | Some EmptyString =>
      throw (Error
        "No indexers configured. Please configure indexers in settings.")
  | Some str =>
      indexersConfig <- liftOutcome (JSON_parse E str) ;;
      enabledIndexerIds <-
        arrayMap indexersConfig
          (fun indexer => liftOutcome (property "id" indexer)) ;;
      match enabledIndexerIds with
      | [] =>
          throw (Error
            "No indexers enabled. Please enable at least one indexer in settings.")
      | _ =>
          indexerPriorities <-
            arrayMap indexersConfig
              (fun indexer =>
                 i <- liftOutcome (property "id" indexer) ;;
                 p <- liftOutcome (property "priority" indexer) ;;
                 ret (i, nullish p (JNum 10))) ;;
          flagConfigStr <-
            liftOutcome (configService_get E "indexer_flag_config") ;;
          flagConfigs <-
            match flagConfigStr with
            | None | Some EmptyString => ret (JArr [])
            | Some fstr => liftOutcome (JSON_parse E fstr)
            end ;;
          info lg ("Searching "
                   ++ Fmt.ofNat (List.length enabledIndexerIds)
                   ++ " enabled indexers") ;;
          liftOutcome (getProwlarrService E) ;;
          let searchQuery := ref_title book in
          info lg ("Searching for: " ++ Fmt.dq ++ searchQuery ++ Fmt.dq) ;;
          searchResults <-
            liftOutcome
              (prowlarr_search E searchQuery
                 {| category := 3030;
                    minSeeders := 1;
                    maxResults := 100;
                    indexerIds := enabledIndexerIds |}) ;;
          info lg ("Found " ++ Fmt.ofNat (List.length searchResults)
                   ++ " raw results") ;;
          match searchResults with
          | [] =>
              warn lg ("No torrents found for request " ++ rid
                       ++ ", marking as awaiting_search") ;;
              request_update rid
                (fun db r =>
                   set_updatedAt (now db)
                     (set_lastSearchAt (Some (now db))
                        (set_errorMessage
                           (Some "No torrents found. Will retry automatically.")
                           (set_status "awaiting_search" r)))) ;;
              ret {| success := false;
                     message := "No torrents found, queued for re-search";
                     res_requestId := rid;
                     resultsCount := None;
                     selectedTorrent := None |}
          | _ =>
              let rankedResults :=
                rankTorrents E searchResults
                  (ref_title book, ref_author book)
                  indexerPriorities flagConfigs in
              let filtered := filteredResults rankedResults in
              let disqualified :=
                disqualifiedByNegativeBonus rankedResults in
              info lg ("Ranked " ++ Fmt.ofNat (List.length rankedResults)
                       ++ " results, " ++ Fmt.ofNat (List.length filtered)
                       ++ " above threshold (50/100 base + final)") ;;
              (if (0 <? disqualified)%nat
               then info lg (Fmt.ofNat disqualified
                       ++ " torrents disqualified by negative flag bonuses")
               else ret tt) ;;
              match filtered with
              | [] =>
                  warn lg ("No quality matches found for request " ++ rid
                    ++ " (all below 50/100), marking as awaiting_search") ;;
                  request_update rid
                    (fun db r =>
                       set_updatedAt (now db)
                         (set_lastSearchAt (Some (now db))
                            (set_errorMessage
                               (Some "No quality matches found. Will retry automatically.")
                               (set_status "awaiting_search" r)))) ;;
                  ret {| success := false;
                         message :=
                           "No quality matches found, queued for re-search";
                         res_requestId := rid;
                         resultsCount := None;
                         selectedTorrent := None |}
              | bestResult :: _ =>
                  let top3 := firstn 3 filtered in
                  info lg "==================== RANKING DEBUG ====================" ;;
                  info lg ("Requested Title: " ++ Fmt.dq ++ ref_title book
                           ++ Fmt.dq) ;;
                  info lg ("Requested Author: " ++ Fmt.dq
                           ++ ref_author book ++ Fmt.dq) ;;
                  info lg ("Top " ++ Fmt.ofNat (List.length top3)
                           ++ " results (out of "
                           ++ Fmt.ofNat (List.length filtered)
                           ++ " above threshold):") ;;
                  info lg separator ;;
                  logResults lg (List.length top3) 0 top3 ;;
                  info lg "========================================================" ;;
                  info lg ("Selected best result: "
                           ++ title (torrent bestResult)
                           ++ " (final score: "
                           ++ Fmt.toFixed1 (finalScore bestResult) ++ ")") ;;
                  enqueue (DownloadJob rid
                             {| ref_id := ref_id book;
                                ref_title := ref_title book;
                                ref_author := ref_author book;
                                ref_asin := None |}
                             bestResult) ;;
                  ret {| success := true;
                         message :=
                           "Found " ++ Fmt.ofNat (List.length filtered)
                           ++ " quality matches, selected best torrent";
                         res_requestId := rid;
                         resultsCount := Some (List.length filtered);
                         selectedTorrent :=
                           Some {| sel_title := title (torrent bestResult);
                                   sel_score := score bestResult;
                                   sel_seeders :=
                                     match seeders (torrent bestResult) with
                                     | Some n => n
                                     | None => 0%Z
                                     end;
                                   sel_format :=
                                     format (torrent bestResult) |} |}
              end
          end
      end
  end.

(** [processSearchIndexers]: the [try] block and its [catch], which
    records the failure on the Request and throws the error again. *)
Definition processSearchIndexers (payload : SearchIndexersPayload)
  : M Result :=
  let lg := Logger.forJob (jobId payload) "SearchIndexers" in
  info lg ("Processing request " ++ requestId payload ++ " for "
           ++ Fmt.dq ++ ref_title (audiobook payload) ++ Fmt.dq) ;;
  tryCatch (searchAndSelect lg payload)
    (fun err =>
       error lg ("Error: " ++ match err with
                              | Error m => m
                              | NonError => "Unknown error"
                              end) ;;
       request_update (requestId payload)
         (fun db r =>
            set_updatedAt (now db)
              (set_errorMessage
                 (Some match err with
                       | Error m => m
                       | NonError => "Unknown error during search"
                       end)
                 (set_status "failed" r))) ;;
       throw err).

End WithEnv.

(** *** When the search is reached

    The conditions under which an execution gets as far as the indexer
    search: the indexer configuration is present, parses to a non-empty
    array of non-null entries, the flag configuration is readable, and
    the indexer service is available. *)

Definition isNull (value : Json) : bool :=
  match value with JNull => true | _ => false end.

Definition idOf (indexer : Json) : option Json :=
  match property "id" indexer with
  | Returned v => v
  | Threw _ => None
  end.

Definition priorityOf (indexer : Json) : option Json * Json :=
  (idOf indexer,
   nullish match property "priority" indexer with
           | Returned v => v
           | Threw _ => None
           end (JNum 10)).

Definition parsedFlags (E : Env) (flagConfigStr : option string)
  : Outcome Json :=
  match flagConfigStr with
  | None | Some EmptyString => Returned (JArr [])
  | Some fstr => JSON_parse E fstr
  end.

Definition configured (E : Env) (items : list Json) (flags : Json) : Prop :=
  exists str flagStr,
    configService_get E "prowlarr_indexers" = Returned (Some str)
    /\ Js.truthy str = true
    /\ JSON_parse E str = Returned (JArr items)
    /\ items <> []
    /\ forallb (fun i => negb (isNull i)) items = true
    /\ configService_get E "indexer_flag_config" = Returned flagStr
    /\ parsedFlags E flagStr = Returned flags.

(** The execution reaches the search, which returns [results]. *)
Definition searchReturns (E : Env) (payload : SearchIndexersPayload)
           (items : list Json) (flags : Json)
           (results : list TorrentResult) : Prop :=
  configured E items flags
  /\ getProwlarrService E = Returned tt
  /\ prowlarr_search E (ref_title (audiobook payload))
       {| category := 3030; minSeeders := 1; maxResults := 100;
          indexerIds := map idOf items |}
     = Returned results.

Definition noTorrents : string :=
  "No torrents found. Will retry automatically.".
Definition noQuality : string :=
  "No quality matches found. Will retry automatically.".
Definition noIndexersConfigured : string :=
  "No indexers configured. Please configure indexers in settings.".
Definition noIndexersEnabled : string :=
  "No indexers enabled. Please enable at least one indexer in settings.".

(** A configuration error is detected: no indexers configured, or none
    enabled; [msg] is the message of the error thrown. *)
Definition configurationError (E : Env) (msg : string) : Prop :=
  (exists v, configService_get E "prowlarr_indexers" = Returned v
             /\ match v with
                | None | Some EmptyString => True
                | _ => False
                end
             /\ msg = noIndexersConfigured)
  \/ (exists str,
        configService_get E "prowlarr_indexers" = Returned (Some str)
        /\ Js.truthy str = true
        /\ JSON_parse E str = Returned (JArr [])
        /\ msg = noIndexersEnabled).

(** The rows written by the processor. *)
Definition searching (t : Z) (r : Request) : Request :=
  set_updatedAt t
    (set_searchAttempts (searchAttempts r + 1) (set_status "searching" r)).

Definition awaiting (msg : string) (t : Z) (r : Request) : Request :=
  set_updatedAt t
    (set_lastSearchAt (Some t)
       (set_errorMessage (Some msg) (set_status "awaiting_search" r))).

Definition failedWith (msg : string) (t : Z) (r : Request) : Request :=
  set_updatedAt t (set_errorMessage (Some msg) (set_status "failed" r)).

Definition showResult (r : Result) : string := message r.

(** A download job for a result that passed the dual threshold. *)
Definition selectable (j : QueuedJob) : Prop :=
  match j with
  | DownloadJob _ _ result => qualifies result = true
  | SearchEbookJob _ _ => False
  end.

(** The same collaborators with another event store behind the logger. *)
Definition withLogEnv (E : Env) (L : Logger.Env) : Env :=
  {| logEnv := L;
     configService_get := configService_get E;
     JSON_parse := JSON_parse E;
     getProwlarrService := getProwlarrService E;
     prowlarr_search := prowlarr_search E;
     rankTorrents := rankTorrents E |}.

End SearchIndexers.

(* ================================================================== *)
(** ** Fetch E-book API route ([POST])

    Creates an ebook request for a completed audiobook request. *)

Module FetchEbook.
Import Store.

(** The two middlewares wrapped around the handler. *)
Inductive Gate := requireAuth | requireAdmin.

Inductive Body :=
| ErrorBody (error : string)
| ResultBody (success : bool) (message : string) (requestId : string).

(** What the route answers: a JSON body with its HTTP status, or the
    answer of a middleware that did not let the call through. *)
Inductive Response :=
| NextResponse_json (body : Body) (status : Z)
| Denied (gate : Gate).

(** The middlewares and the id generator of [prisma.request.create] are
    taken from the surroundings: each middleware either runs the handler
    or answers by itself. *)
Record Env := {
  logEnv : Logger.Env;
  authenticated : bool;
  isAdmin : bool;
  newId : Db -> string
}.

(** An answer that turns the caller away. *)
Definition rejected (r : Response) : bool :=
  match r with
  | Denied _ => true
  | NextResponse_json _ st => (400 <=? st)%Z
  end.

Definition includes (xs : list string) (x : string) : bool :=
  existsb (String.eqb x) xs.

(** [config?.value === v] *)
Definition valueIs (v : string) (config : option string) : bool :=
  match config with
  | Some value => String.eqb value v
  | None => false
  end.

(** The [where] clause of the lookup of an existing ebook request. *)
Definition existingEbookWhere (parentRequestId : string) (r : Request) : bool :=
  match Store.parentRequestId r with
  | Some p => String.eqb p parentRequestId
  | None => false
  end
  && String.eqb (type r) "ebook"
  && match deletedAt r with None => true | Some _ => false end.

Definition searchEbookJobFor (rid : string) (parentRequest : Request)
  : QueuedJob :=
  SearchEbookJob rid
    {| ref_id := ab_id (audiobook parentRequest);
       ref_title := ab_title (audiobook parentRequest);
       ref_author := ab_author (audiobook parentRequest);
       ref_asin := match audibleAsin (audiobook parentRequest) with
                   | Some a => if Js.truthy a then Some a else None
                   | None => None
                   end |}.

Section WithEnv.
Variable E : Env.

Definition logger : Logger.RMABLogger := Logger.create "API.FetchEbook".

(** The body of the [try] block of the handler. *)
Definition handler (parentRequestId : string) : M Response :=
  ebookEnabledConfig <- configuration_findUnique "ebook_sidecar_enabled" ;;
  if negb (valueIs "true" ebookEnabledConfig)
  then
    ret (NextResponse_json
           (ErrorBody "E-book sidecar feature is not enabled") 400)
  else
    parentRequest <- request_findUnique parentRequestId ;;
    match parentRequest with
    | None =>
        ret (NextResponse_json (ErrorBody "Request not found") 404)
    | Some parentRequest =>
        if negb (includes ["downloaded"; "available"]
                          (status parentRequest))
        then
          ret (NextResponse_json
                 (ErrorBody ("Cannot fetch e-book for request in "
                             ++ status parentRequest ++ " status"))
                 400)
        else
          existingEbookRequest <-
            request_findFirst (existingEbookWhere parentRequestId) ;;
          match existingEbookRequest with
          | Some existing =>
              if includes ["failed"; "awaiting_search"] (status existing)
              then
                request_update (id existing)
                  (fun db r =>
                     set_updatedAt (now db)
                       (set_errorMessage None
                          (set_progress 0
                             (set_status "pending" r)))) ;;
                enqueue (searchEbookJobFor (id existing) parentRequest) ;;
                Logger.info (logEnv E) logger
                  ("Retrying ebook request " ++ id existing ++ " for "
                   ++ Fmt.dq ++ ab_title (audiobook parentRequest)
                   ++ Fmt.dq) None ;;
                ret (NextResponse_json
                       (ResultBody true "E-book search retried"
                                   (id existing))
                       200)
              else
                ret (NextResponse_json
                       (ResultBody false
                          ("E-book request already exists (status: "
                           ++ status existing ++ ")")
                          (id existing))
                       200)
          | None =>
              db <- get ;;
              ebookRequest <-
                request_create
                  {| id := newId E db;
                     userId := userId parentRequest;
                     audiobookId := audiobookId parentRequest;
                     audiobook := audiobook parentRequest;
                     type := "ebook";
                     parentRequestId := Some parentRequestId;
                     status := "pending";
                     progress := 0;
                     searchAttempts := 0;
                     errorMessage := None;
                     lastSearchAt := None;
                     updatedAt := now db;
                     deletedAt := None |} ;;
              Logger.info (logEnv E) logger
                ("Created ebook request " ++ id ebookRequest ++ " for "
                 ++ Fmt.dq ++ ab_title (audiobook parentRequest)
                 ++ Fmt.dq) None ;;
              enqueue (searchEbookJobFor (id ebookRequest) parentRequest) ;;
              Logger.info (logEnv E) logger
                ("Triggered search_ebook job for request "
                 ++ id ebookRequest) None ;;
              ret (NextResponse_json
                     (ResultBody true
                        "E-book request created and search started"
                        (id ebookRequest))
                     200)
          end
    end.

(** [POST]: the handler behind [requireAuth] and [requireAdmin], with the
    [catch] that answers 500. *)
Definition POST (parentRequestId : string) : M Response :=
  if negb (authenticated E) then ret (Denied requireAuth)
  else if negb (isAdmin E) then ret (Denied requireAdmin)
  else
    tryCatch (handler parentRequestId)
      (fun err =>
         Logger.error (logEnv E) logger "Unexpected error"
           (Some [("error",
                   match err with
                   | Error m => m
                   | NonError => "[object]"
                   end)]) ;;
         ret (NextResponse_json
                (ErrorBody match err with
                           | Error m => m
                           | NonError => "Internal server error"
                           end)
                500)).

End WithEnv.

(** The row an existing ebook request is reset to before the retry. *)
Definition reset (t : Z) (r : Request) : Request :=
  set_updatedAt t
    (set_errorMessage None (set_progress 0 (set_status "pending" r))).

(** The feature flag as the route reads it. *)
Definition featureEnabled (db : Db) : bool :=
  valueIs "true"
    (option_map snd
       (find (fun kv => String.eqb (fst kv) "ebook_sidecar_enabled")
             (configuration db))).

Definition findById (rid : string) (db : Db) : option Request :=
  find (fun r => String.eqb (id r) rid) (requests db).

End FetchEbook.

(* ================================================================== *)
(** ** Ranking Engine, after the specification (section 4.3) *)

Module RankingSpec.

(** Modelled from the spec: Candidate Result (section 3), a transient
    search hit; the ranking module (src/lib/utils/ranking-algorithm.ts) is
    missing. *)
Record Candidate := {
  title : string;
  size : Z;
  seedCount : nat;
  sourceId : Z;
  formatHint : option string
}.

(** Modelled from the spec: the target metadata handed to [rank]; the
    ranking module is missing. *)
Record Target := {
  target_title : string;
  target_author : string
}.

(** Modelled from the spec: Ranked Result (section 3), the candidate with
    [baseScore], [bonusPoints] and [finalScore]; the ranking module is
    missing. *)
Record Ranked := {
  candidate : Candidate;
  baseScore : Q;
  bonusPoints : Q;
  finalScore : Q
}.

(** Modelled from the spec: the character classes behind "tokenize the
    target title"; the ranking module is missing. *)
Definition isUpper (c : ascii) : bool :=
  let n := nat_of_ascii c in (65 <=? n)%nat && (n <=? 90)%nat.

(** Modelled from the spec: words are compared in lower case; the ranking
    module is missing. *)
Definition toLower (c : ascii) : ascii :=
  if isUpper c then ascii_of_nat (nat_of_ascii c + 32) else c.

(** Modelled from the spec: letters and digits make up words; the ranking
    module is missing. *)
Definition isWordChar (c : ascii) : bool :=
  let n := nat_of_ascii c in
  ((48 <=? n)%nat && (n <=? 57)%nat)
  || ((65 <=? n)%nat && (n <=? 90)%nat)
  || ((97 <=? n)%nat && (n <=? 122)%nat).

(** Modelled from the spec: "tokenize": a title is cut into lower-case
    words at every character that is neither a letter nor a digit; [cur]
    is the word being read; the ranking module is missing. *)
Fixpoint wordsFrom (cur : string) (s : string) : list string :=
  match s with
  | EmptyString =>
      match cur with EmptyString => [] | _ => [cur] end
  | String c s' =>
      if isWordChar c
      then wordsFrom (cur ++ String (toLower c) EmptyString) s'
      else match cur with
           | EmptyString => wordsFrom EmptyString s'
           | _ => cur :: wordsFrom EmptyString s'
           end
  end.

(** Modelled from the spec: the fixed stop-word set of the coverage gate
    (articles, prepositions), with the members listed in
    documentation/phase3/ranking-algorithm.md; the ranking module itself
    (src/lib/utils/ranking-algorithm.ts) is missing. *)
Definition stopWords : list string :=
  ["the"; "a"; "an"; "of"; "on"; "in"; "at"; "by"; "for"].

(** Modelled from the spec: "present in": membership in a word list; the
    ranking module is missing. *)
Definition memb (w : string) (ws : list string) : bool :=
  existsb (String.eqb w) ws.

(** Modelled from the spec: "Tokenize the target title into significant
    words, excluding a fixed stop-word set"; the ranking module is
    missing. *)
Definition significantWords (t : string) : list string :=
  filter (fun w => negb (memb w stopWords)) (wordsFrom EmptyString t).

(** Modelled from the spec: "Compute the fraction of target words present
    in the candidate title", as the pair (words found, words asked for);
    the ranking module is missing. *)
Definition coverage (targetTitle candidateTitle : string) : nat * nat :=
  let wanted := significantWords targetTitle in
  let have := significantWords candidateTitle in
  (List.length (filter (fun w => memb w have) wanted), List.length wanted).

(** Modelled from the spec: "coverage < 80%", the ranking module being
    missing: found / wanted < 4 / 5, cleared of the division (a title
    without significant words is not below the bar). *)
Definition coverageBelow80 (targetTitle candidateTitle : string) : bool :=
  let '(found, wanted) := coverage targetTitle candidateTitle in
  (5 * found <? 4 * wanted)%nat.

(** Modelled from the spec: the scoring stages 2 to 6 and the bonus
    modifiers, each as what it awards for a candidate against a target;
    the ranking module is missing. *)
Record Stages := {
  titleMatch : Target -> Candidate -> Q;
  authorMatch : Target -> Candidate -> Q;
  formatQuality : Candidate -> Q;
  seedStage : Candidate -> Q;
  sizeReasonableness : Candidate -> Q;
  bonus : Candidate -> Q
}.

(** Modelled from the spec: the stages "feeding a single combined
    baseScore"; the ranking module is missing. *)
Definition stageSum (S : Stages) (t : Target) (c : Candidate) : Q :=
  titleMatch S t c + authorMatch S t c + formatQuality S c
  + seedStage S c + sizeReasonableness S c.

(** Modelled from the spec: "If coverage < 80%, the candidate's base score
    is forced to 0 regardless of later stages"; otherwise the stages feed
    a single combined [baseScore]; the ranking module is missing. *)
Definition computeBaseScore (S : Stages) (t : Target) (c : Candidate) : Q :=
  if coverageBelow80 (target_title t) (title c) then 0
  else stageSum S t c.

(** Modelled from the spec: "finalScore = baseScore + bonusPoints"; the
    ranking module is missing. *)
Definition scoreCandidate (S : Stages) (t : Target) (c : Candidate) : Ranked :=
  let b := computeBaseScore S t c in
  {| candidate := c;
     baseScore := b;
     bonusPoints := bonus S c;
     finalScore := b + bonus S c |}.

(** Modelled from the spec: the order of the ranked list: descending by
    [finalScore], ties broken by higher [baseScore]; the ranking module is
    missing.  [before a b] says that [a] must come strictly ahead of [b]. *)
Definition before (a b : Ranked) : bool :=
  negb (Qle_bool (finalScore a) (finalScore b))
  || (Qeq_bool (finalScore a) (finalScore b)
      && negb (Qle_bool (baseScore a) (baseScore b))).

(** Modelled from the spec: "then by stable input order"; the ranking
    module is missing.  [x] goes behind every element it does not beat. *)
Fixpoint insertRanked (x : Ranked) (rs : list Ranked) : list Ranked :=
  match rs with
  | [] => [x]
  | r :: rest =>
      if before x r then x :: r :: rest else r :: insertRanked x rest
  end.

(** Modelled from the spec: the ranked list in its order; the ranking
    module is missing. *)
Fixpoint sortRanked (rs : list Ranked) : list Ranked :=
  match rs with
  | [] => []
  | r :: rest => insertRanked r (sortRanked rest)
  end.

(** Modelled from the spec: [rank(candidates, target, ...)], an ordered
    list of Ranked Result; the ranking module is missing. *)
Definition rank (S : Stages) (candidates : list Candidate) (t : Target)
  : list Ranked :=
  sortRanked (map (scoreCandidate S t) candidates).

(** Modelled from the spec: the decimal logarithm of stage 5, over the
    real numbers; the ranking module is missing. *)
Definition log10 (x : R) : R := (ln x / ln 10)%R.

(** Modelled from the spec: stage 5, [min(15, log10(seedCount + 1) * 6)],
    over the real numbers; the ranking module is missing. *)
Definition seedScore (seedCount : nat) : R :=
  Rmin 15 (log10 (INR seedCount + 1) * 6)%R.

End RankingSpec.


(* ================================================================== *)
(** ** Concrete scenarios *)

Module Scenario.
Import Store.

Definition mapping : PathMapper.PathMappingConfig :=
  {| PathMapper.enabled := true;
     PathMapper.remotePath := "/remote";
     PathMapper.localPath := "/local" |}.

(** An event store that rejects every insert, and one that accepts all. *)
Definition failingStore : Logger.Env :=
  {| Logger.CONFIGURED_LOG_LEVEL := Logger.info_level;
     Logger.jobEvent_create_fails := fun _ _ => true |}.

Definition workingStore : Logger.Env :=
  {| Logger.CONFIGURED_LOG_LEVEL := Logger.debug_level;
     Logger.jobEvent_create_fails := fun _ _ => false |}.

Definition jobLogger : Logger.RMABLogger :=
  Logger.forJob (Some "job-1") "SearchIndexers".

Definition book : Audiobook :=
  {| ab_id := "ab-1"; ab_title := "The Wild Robot on the Island";
     ab_author := "Peter Brown"; audibleAsin := Some "B0TEST0001" |}.

Definition mkRequest (rid : string) (ty : string) (parent : option string)
           (st : string) (err : option string) : Request :=
  {| id := rid; userId := "user-1"; audiobookId := "ab-1";
     audiobook := book; type := ty; parentRequestId := parent;
     status := st; progress := 100; searchAttempts := 1;
     errorMessage := err; lastSearchAt := None; updatedAt := 0;
     deletedAt := None |}.

Definition mkDb (rs : list Request) (cfg : list (string * string)) : Db :=
  {| requests := rs; configuration := cfg; jobs := []; job_events := [];
     console := []; now := 1000 |}.

(** One pending audiobook request. *)
Definition dbPending : Db :=
  mkDb [mkRequest "req-1" "audiobook" None "pending" None] [].

Definition payload : SearchIndexers.SearchIndexersPayload :=
  {| SearchIndexers.requestId := "req-1";
     SearchIndexers.audiobook :=
       {| ref_id := "ab-1"; ref_title := "The Wild Robot on the Island";
          ref_author := "Peter Brown"; ref_asin := None |};
     SearchIndexers.jobId := Some "job-1" |}.

(** A job that has been claimed for its first attempt. *)
Definition job0 : JobQueue.Job :=
  {| JobQueue.job_status := JobQueue.running;
     JobQueue.attempts := 0;
     JobQueue.maxAttempts := 3;
     JobQueue.job_result := None;
     JobQueue.job_errorMessage := None |}.

Definition hit : TorrentResult :=
  {| title := "The Wild Robot on the Island [Unabridged]";
     indexer := "MyAnonamouse"; indexerId := Some 1%Z; seeders := Some 9%Z;
     format := Some "M4B"; size := 300000000 |}.

(** A hit that scores 80 on its own and loses 40 to flag rules. *)
Definition penalised : RankedTorrent :=
  {| torrent := hit; score := 80; bonusPoints := -40;
     bonusModifiers := [{| reason := "Flag: Freeleech excluded";
                           points := -40 |}];
     finalScore := 40;
     breakdown := {| matchScore := 50; formatScore := 25;
                     seederScore := 5; notes := [] |} |}.

Definition oneIndexer : SearchIndexers.Json :=
  SearchIndexers.JArr
    [SearchIndexers.JObj [("id", SearchIndexers.JNum 1);
                          ("priority", SearchIndexers.JNum 10)]].

(** No indexer configuration stored at all. *)
Definition envNoConfig : SearchIndexers.Env :=
  {| SearchIndexers.logEnv := workingStore;
     SearchIndexers.configService_get := fun _ => Returned None;
     SearchIndexers.JSON_parse :=
       fun _ => Threw (Error "Unexpected end of JSON input");
     SearchIndexers.getProwlarrService := Returned tt;
     SearchIndexers.prowlarr_search := fun _ _ => Returned [];
     SearchIndexers.rankTorrents := fun _ _ _ _ => [] |}.

(** One indexer configured; the search finds [found], which the ranking
    engine returns as [ranked]. *)
(** A completed audiobook request with an ebook request that failed. *)
Definition parentAndFailedEbook : list Request :=
  [mkRequest "req-1" "audiobook" None "downloaded" None;
   mkRequest "req-2" "ebook" (Some "req-1") "failed"
             (Some "No download links available")].

Definition dbEbookEnabled : Db :=
  mkDb parentAndFailedEbook [("ebook_sidecar_enabled", "true")].

Definition dbEbookDisabled : Db :=
  mkDb parentAndFailedEbook [("ebook_sidecar_enabled", "false")].

(** An audiobook request that is still downloading. *)
Definition dbDownloading : Db :=
  mkDb [mkRequest "req-1" "audiobook" None "downloading" None]
       [("ebook_sidecar_enabled", "true")].

Definition admin : FetchEbook.Env :=
  {| FetchEbook.logEnv := workingStore;
     FetchEbook.authenticated := true;
     FetchEbook.isAdmin := true;
     FetchEbook.newId := fun db =>
       "req-" ++ Fmt.ofNat (S (List.length (requests db))) |}.

Definition wildTarget : RankingSpec.Target :=
  {| RankingSpec.target_title := "The Wild Robot on the Island";
     RankingSpec.target_author := "Peter Brown" |}.

Definition candidateTitled (t : string) : RankingSpec.Candidate :=
  {| RankingSpec.title := t; RankingSpec.size := 300000000;
     RankingSpec.seedCount := 9; RankingSpec.sourceId := 1;
     RankingSpec.formatHint := Some "M4B" |}.

(** Stages that award their maximum to every candidate. *)
Definition generousStages : RankingSpec.Stages :=
  {| RankingSpec.titleMatch := fun _ _ => 35;
     RankingSpec.authorMatch := fun _ _ => 15;
     RankingSpec.formatQuality := fun _ => 25;
     RankingSpec.seedStage := fun _ => 15;
     RankingSpec.sizeReasonableness := fun _ => 10;
     RankingSpec.bonus := fun _ => 0 |}.

Definition envSearch (found : list TorrentResult)
           (ranked : list RankedTorrent) : SearchIndexers.Env :=
  {| SearchIndexers.logEnv := workingStore;
     SearchIndexers.configService_get :=
       fun key => if String.eqb key "prowlarr_indexers"
                  then Returned (Some "[{id:1,priority:10}]")
                  else Returned None;
     SearchIndexers.JSON_parse := fun _ => Returned oneIndexer;
     SearchIndexers.getProwlarrService := Returned tt;
     SearchIndexers.prowlarr_search := fun _ _ => Returned found;
     SearchIndexers.rankTorrents := fun _ _ _ _ => ranked |}.

End Scenario.

(* ================================================================== *)
(** ** Specifications of computations in [M] *)

Module Triples.
Import Store.

(** From every store satisfying [P], [m] returns a value and leaves a
    store that satisfy [Q]. *)
Definition returns {A} (P : Db -> Prop) (m : M A) (Q : A -> Db -> Prop)
  : Prop :=
  forall db, P db -> exists a db', m db = (Returned a, db') /\ Q a db'.

(** From every store satisfying [P], [m] throws [e] and leaves a store
    that satisfies [Q]. *)
Definition throws {A} (P : Db -> Prop) (m : M A) (e : Thrown)
           (Q : Db -> Prop) : Prop :=
  forall db, P db -> exists db', m db = (@Threw A e, db') /\ Q db'.

(** The part of the store the pipeline lives in: Request table, work list
    and clock; console and job events are free. *)
Definition pipeline (rs : list Request) (js : list QueuedJob) (t : Z)
           (db : Db) : Prop :=
  requests db = rs /\ jobs db = js /\ now db = t.

(** Two stores with the same pipeline part and configuration; console and
    job events may differ. *)
Definition agree (d1 d2 : Db) : Prop :=
  requests d1 = requests d2 /\ configuration d1 = configuration d2
  /\ jobs d1 = jobs d2 /\ now d1 = now d2.

(** [m1] and [m2] end alike, and keep agreeing stores in agreement. *)
Definition alike {A} (m1 m2 : M A) : Prop :=
  forall d1 d2, agree d1 d2 ->
    fst (m1 d1) = fst (m2 d2) /\ agree (snd (m1 d1)) (snd (m2 d2)).

(** [m] leaves the work list as it is. *)
Definition enqueuesNothing {A} (m : M A) : Prop :=
  forall db, jobs (snd (m db)) = jobs db.

(** [m] adds at most one job to the work list, and only an [ok] one. *)
Definition enqueuesAtMost {A} (ok : QueuedJob -> Prop) (m : M A) : Prop :=
  forall db,
    jobs (snd (m db)) = jobs db
    \/ exists j, ok j /\ jobs (snd (m db)) = (jobs db ++ [j])%list.

(** The Request table after an update of the rows with id [rid]. *)
Definition updated (rid : string) (f : Request -> Request)
           (rs : list Request) : list Request :=
  map (fun r => if String.eqb (id r) rid then f r else r) rs.

End Triples.

(* ================================================================== *)
(** ** [PathMapper.validate] and the shapes of normalised paths *)

Module PathValidation.
Import Store PathMapper.






(** A character that [replaceBackslashes] leaves alone. *)
Definition notBackslash (c : ascii) : bool := negb (Ascii.eqb c "\"%char).

Definition backslashFree (s : string) : Prop :=
  forallb notBackslash (list_ascii_of_string s) = true.

(** The four shapes a normalised path can have: the root, the current
    directory, an absolute path of clean segments, or a relative path of
    clean segments behind any number of [".."]. *)
Inductive canonical : string -> Prop :=
| canonical_root : canonical "/"
| canonical_dot : canonical "."
| canonical_absolute cleans :
    cleans <> [] ->
    Forall (fun seg => cleanSegment seg = true) cleans ->
    canonical (absPath cleans)
| canonical_relative k cleans :
    (repeat ".." k ++ cleans)%list <> [] ->
    Forall (fun seg => cleanSegment seg = true) cleans ->
    canonical (Js.join "/" (repeat ".." k ++ cleans)%list).

(** What [normalizeString] has on its stack: clean segments, most recent
    first, on top of [k] times [".."]. *)
Definition stackShape (allowAboveRoot : bool) (stack : list string) : Prop :=
  exists cs k,
    stack = (cs ++ repeat ".." k)%list
    /\ Forall (fun seg => cleanSegment seg = true) cs
    /\ (allowAboveRoot = false -> k = 0%nat).

End PathValidation.

(* ================================================================== *)
(** ** [JobLogger] (src/lib/utils/job-logger.ts) *)

Module JobLogger.
Import Store.

(** The deprecated wrapper: a logger made by [RMABLogger.forJob] from a job
    id that is always given. *)
Record JobLogger := { logger : Logger.RMABLogger }.



Section WithEnv.
Variable E : Logger.Env.

(** The three methods; each returns a promise that is already settled. *)
Definition info (this : JobLogger) (message : string)
           (metadata : option LogMetadata) : M unit :=
  Logger.info E (logger this) message metadata.

Definition warn (this : JobLogger) (message : string)
           (metadata : option LogMetadata) : M unit :=
  Logger.warn E (logger this) message metadata.

Definition error (this : JobLogger) (message : string)
           (metadata : option LogMetadata) : M unit :=
  Logger.error E (logger this) message metadata.

End WithEnv.

End JobLogger.

(* ================================================================== *)
(** ** Footprints and outcomes of computations in [M] *)

Module Footprint.
Import Store.

(** Whatever the outcome, [m] takes a store to one related to it by [R]. *)
Definition preserves {A} (R : Db -> Db -> Prop) (m : M A) : Prop :=
  forall db, R db (snd (m db)).

(** [m] does not write to the store. *)
Definition stateless {A} (m : M A) : Prop := forall db, snd (m db) = db.

(** From every store satisfying [P], [m] ends with an outcome and a store
    that satisfy [Q]. *)
Definition ends {A} (P : Db -> Prop) (m : M A)
           (Q : Outcome A -> Db -> Prop) : Prop :=
  forall db, P db -> Q (fst (m db)) (snd (m db)).

(** [m1] and [m2] do the same from every store. *)
Definition same {A} (m1 m2 : M A) : Prop := forall db, m1 db = m2 db.

(** A logger and its descendants: [child] applied along a list of
    sub-contexts. *)
Definition descendant (this : Logger.RMABLogger) (subContexts : list string)
  : Logger.RMABLogger :=
  fold_left Logger.child subContexts this.

(** The console lines of a [log] call that is let through. *)
Definition consoleLines (this : Logger.RMABLogger) (level : MsgLevel)
           (message : string) (metadata : option LogMetadata)
  : list ConsoleEntry :=
  ConsoleLine level
    ("[" ++ Logger.levelTag level ++ "] [" ++ Logger.context this ++ "] "
     ++ message)
  :: match metadata with
     | Some (k :: ks) => [ConsoleMetadata (k :: ks)]
     | _ => []
     end.

(** The level passes the filter of [log]. *)
Definition passes (E : Logger.Env) (level : MsgLevel) : bool :=
  negb (Logger.LEVEL_PRIORITY (Logger.levelOf level)
        <? Logger.CONFIGURED_LOG_PRIORITY E)%Z.

End Footprint.

(* ================================================================== *)
(** ** Vocabulary for the search processor *)

Module ProcessorSpecs.
Import Store Triples SearchIndexers.

(** The same collaborators with another indexer search. *)
Definition withSearch (E : Env)
           (search : string -> SearchOptions -> Outcome (list TorrentResult))
  : Env :=
  {| logEnv := logEnv E;
     configService_get := configService_get E;
     JSON_parse := JSON_parse E;
     getProwlarrService := getProwlarrService E;
     prowlarr_search := search;
     rankTorrents := rankTorrents E |}.

(** The options every search of the processor is made with. *)
Definition searchOptionsFor (ids : list (option Json)) : SearchOptions :=
  {| category := 3030; minSeeders := 1; maxResults := 100;
     indexerIds := ids |}.

(** The error text the [catch] block stores on the Request. *)
Definition storedMessage (e : Thrown) : string :=
  match e with
  | Error m => m
  | NonError => "Unknown error during search"
  end.

(** The summary of the selected torrent in the value returned. *)
Definition selectionOf (best : RankedTorrent) : SelectedTorrent :=
  {| sel_title := title (torrent best);
     sel_score := score best;
     sel_seeders := match seeders (torrent best) with
                    | Some n => n
                    | None => 0%Z
                    end;
     sel_format := format (torrent best) |}.

(** The download job for [best]. *)
Definition downloadJobFor (payload : SearchIndexersPayload)
           (best : RankedTorrent) : QueuedJob :=
  DownloadJob (requestId payload)
    {| ref_id := ref_id (audiobook payload);
       ref_title := ref_title (audiobook payload);
       ref_author := ref_author (audiobook payload);
       ref_asin := None |}
    best.

(** [m] always returns and keeps the pipeline part of the store. *)
Definition quietly {A} (m : M A) : Prop :=
  forall rs js t, returns (pipeline rs js t) m (fun _ => pipeline rs js t).

(** An event as the logger of the processor writes it. *)
Definition taggedFor (E : Env) (payload : SearchIndexersPayload)
           (ev : JobEvent) : Prop :=
  Some (ev_jobId ev) = jobId payload
  /\ ev_context ev = "SearchIndexers"
  /\ ev_level ev <> Ldebug
  /\ Footprint.passes (logEnv E) (ev_level ev) = true
  /\ ev_metadata ev = None.

(** The job events only grow, by events that satisfy [ok]. *)
Definition growsBy (ok : JobEvent -> Prop) (a b : Db) : Prop :=
  exists tail, job_events b = (job_events a ++ tail)%list /\ Forall ok tail.

(** Neither job events nor console change. *)
Definition silentStep (a b : Db) : Prop :=
  job_events b = job_events a /\ console b = console a.

(** No Request row is added or removed, rows of other requests stay as
    they are, and configuration and clock are untouched. *)
Definition rowsKept (rid : string) (a b : Db) : Prop :=
  map id (requests b) = map id (requests a)
  /\ (forall r, id r <> rid -> (In r (requests a) <-> In r (requests b)))
  /\ configuration b = configuration a
  /\ now b = now a.

(** The Request table after the first update of the processor, and after
    its [catch] block has recorded the error [e]. *)
Definition searchingRows (payload : SearchIndexersPayload)
           (rs : list Request) (t : Z) : list Request :=
  updated (requestId payload) (searching t) rs.

Definition failedRows (payload : SearchIndexersPayload)
           (rs : list Request) (t : Z) (e : Thrown) : list Request :=
  updated (requestId payload) (failedWith (storedMessage e) t)
    (searchingRows payload rs t).

(** How the processor leaves the pipeline, by outcome: after a throw the
    table is [onThrow e]; after a return the Request either awaits another
    search, or is still searching with one download job added. *)
Definition processorPost (payload : SearchIndexersPayload)
           (rs : list Request) (js : list QueuedJob) (t : Z)
           (onThrow : Thrown -> list Request)
           (out : Outcome Result) (db : Db) : Prop :=
  match out with
  | Threw e => pipeline (onThrow e) js t db
  | Returned res =>
      res_requestId res = requestId payload
      /\ ((success res = false
           /\ selectedTorrent res = None
           /\ resultsCount res = None
           /\ exists msg,
                (msg = noTorrents \/ msg = noQuality)
                /\ pipeline
                     (updated (requestId payload) (awaiting msg t)
                        (searchingRows payload rs t)) js t db)
          \/ (success res = true
              /\ exists best,
                   qualifies best = true
                   /\ selectedTorrent res = Some (selectionOf best)
                   /\ pipeline (searchingRows payload rs t)
                        (js ++ [downloadJobFor payload best])%list t db))
  end.

(** The value returned when [best] is selected among [n] results that
    passed the threshold. *)
Definition selected (payload : SearchIndexersPayload) (n : nat)
           (best : RankedTorrent) : Result :=
  {| success := true;
     message := "Found " ++ Fmt.ofNat n
                ++ " quality matches, selected best torrent";
     res_requestId := requestId payload;
     resultsCount := Some n;
     selectedTorrent := Some (selectionOf best) |}.

End ProcessorSpecs.

(* ================================================================== *)
(** ** Vocabulary for the Fetch E-book route *)

Module FetchEbookSpecs.
Import Store Triples FetchEbook.

(** The row the route creates for the parent [p] found in [db]. *)
Definition ebookRow (E : Env) (pid : string) (p : Request) (db : Db)
  : Request :=
  {| id := newId E db;
     userId := userId p;
     audiobookId := audiobookId p;
     audiobook := audiobook p;
     type := "ebook";
     parentRequestId := Some pid;
     status := "pending";
     progress := 0;
     searchAttempts := 0;
     errorMessage := None;
     lastSearchAt := None;
     updatedAt := now db;
     deletedAt := None |}.

(** The store after the route has created the row, with console [c]. *)
Definition afterCreate (E : Env) (pid : string) (p : Request) (c : list ConsoleEntry)
           (db : Db) : Db :=
  with_console
    (with_jobs
       (with_requests db (requests db ++ [ebookRow E pid p db])%list)
       (jobs db ++ [searchEbookJobFor (newId E db) p])%list)
    c.

(** The store after the route has reset [existing], with console [c]. *)
Definition afterRetry (p existing : Request) (c : list ConsoleEntry)
           (db : Db) : Db :=
  with_console
    (with_jobs
       (with_requests db
          (updated (id existing) (reset (now db)) (requests db)))
       (jobs db ++ [searchEbookJobFor (id existing) p])%list)
    c.

Definition created (rid : string) : Response :=
  NextResponse_json
    (ResultBody true "E-book request created and search started" rid) 200.

Definition retried (rid : string) : Response :=
  NextResponse_json (ResultBody true "E-book search retried" rid) 200.

Definition alreadyExists (st rid : string) : Response :=
  NextResponse_json
    (ResultBody false ("E-book request already exists (status: " ++ st ++ ")")
       rid) 200.

(** The answer reports a started search. *)
Definition started (resp : Response) : option string :=
  match resp with
  | NextResponse_json (ResultBody true _ rid) _ => Some rid
  | _ => None
  end.

(** The parent request is complete. *)
Definition complete (p : Request) : Prop :=
  status p = "downloaded" \/ status p = "available".

(** The ebook request can be retried. *)
Definition retryable (r : Request) : Prop :=
  status r = "failed" \/ status r = "awaiting_search".

(** A pending ebook request of [pid] with id [rid]. *)
Definition pendingEbook (pid rid : string) (r : Request) : Prop :=
  id r = rid /\ type r = "ebook" /\ parentRequestId r = Some pid
  /\ deletedAt r = None
  /\ status r = "pending" /\ progress r = 0%Z /\ errorMessage r = None.

End FetchEbookSpecs.

(* ================================================================== *)
(** ** Further inputs *)

Module Cases.
Import Store.

(** A request of another user's book, next to the one being searched. *)
Definition bystander : Request :=
  Scenario.mkRequest "req-9" "audiobook" None "downloading" None.

Definition dbTwo : Db :=
  Scenario.mkDb
    [Scenario.mkRequest "req-1" "audiobook" None "pending" None; bystander]
    [].

(** [LOG_LEVEL=quiet] over an event store that accepts every insert. *)
Definition quietStore : Logger.Env :=
  {| Logger.CONFIGURED_LOG_LEVEL := Logger.quiet;
     Logger.jobEvent_create_fails := fun _ _ => false |}.

(** A hit well above both thresholds, and a weaker one that also passes. *)
Definition strong : RankedTorrent :=
  {| torrent := Scenario.hit; score := 85; bonusPoints := 10;
     bonusModifiers := [{| reason := "Indexer priority"; points := 10 |}];
     finalScore := 95;
     breakdown := {| matchScore := 55; formatScore := 25;
                     seederScore := 5; notes := [] |} |}.

Definition fair : RankedTorrent :=
  {| torrent := Scenario.hit; score := 60; bonusPoints := 0;
     bonusModifiers := [];
     finalScore := 60;
     breakdown := {| matchScore := 40; formatScore := 15;
                     seederScore := 5; notes := [] |} |}.

(** The search finds one torrent; the ranking engine puts a penalised
    result first, then [strong], then [fair]. *)
Definition envRanked : SearchIndexers.Env :=
  Scenario.envSearch [Scenario.hit] [Scenario.penalised; strong; fair].

(** A search that answers the title of the book only. *)
Definition titleOnly (q : string) (o : SearchIndexers.SearchOptions)
  : Outcome (list TorrentResult) :=
  if String.eqb q "The Wild Robot on the Island"
  then Returned [Scenario.hit]
  else Threw (Error "unexpected query").

(** A completed audiobook request without ebook request, ebooks enabled. *)
Definition completedParent : Request :=
  Scenario.mkRequest "req-1" "audiobook" None "downloaded" None.

Definition dbParentOnly : Db :=
  Scenario.mkDb [completedParent] [("ebook_sidecar_enabled", "true")].

(** The completed parent with its pending ebook request. *)
Definition dbParentAndEbook : Db :=
  Scenario.mkDb
    [completedParent;
     Scenario.mkRequest "req-2" "ebook" (Some "req-1") "pending" None]
    [("ebook_sidecar_enabled", "true")].

End Cases.

(* ================================================================== *)
(** ** Search Ebook job processor
       (src/lib/processors/search-ebook.processor.ts) *)

Module SearchEbook.
Import Store.

Record SearchEbookPayload := {
  requestId : string;
  audiobook : AudiobookRef;
  preferredFormat : option string;
  jobId : option string
}.

(** A row of the download history, with the columns the processor
    writes. *)
Record DownloadHistory := {
  dh_id : string;
  dh_requestId : string;
  indexerName : string;
  torrentName : string;
  torrentSizeBytes : option Z;
  qualityScore : Z;
  selected : bool;
  downloadClient : string;
  downloadStatus : string;
  torrentUrl : option string
}.

(** The arguments of [addStartDirectDownloadJob]. *)
Record DirectDownloadJob := {
  dd_requestId : string;
  dd_downloadHistoryId : string;
  dd_downloadUrl : string;
  dd_targetFilename : string;
  dd_expectedSize : option Z
}.

Record SearchResultSummary := {
  md5 : string;
  res_format : string;
  res_score : Z;
  downloadLinksCount : nat
}.

(** The structured value the processor returns. *)
Record Result := {
  success : bool;
  message : string;
  res_requestId : string;
  searchResult : option SearchResultSummary
}.

(** The store of the other operations, with the download history and the
    queue of direct downloads. *)
Record EbookDb := {
  base : Db;
  download_history : list DownloadHistory;
  direct_jobs : list DirectDownloadJob
}.

Definition with_base (s : EbookDb) (db : Db) : EbookDb :=
  {| base := db; download_history := download_history s;
     direct_jobs := direct_jobs s |}.

Definition with_download_history (s : EbookDb) (hs : list DownloadHistory)
  : EbookDb :=
  {| base := base s; download_history := hs; direct_jobs := direct_jobs s |}.

Definition with_direct_jobs (s : EbookDb) (js : list DirectDownloadJob)
  : EbookDb :=
  {| base := base s; download_history := download_history s;
     direct_jobs := js |}.

(** Computations over the larger store. *)
Definition ME (A : Type) : Type := EbookDb -> Outcome A * EbookDb.

Definition eret {A} (a : A) : ME A := fun s => (Returned a, s).

Definition ebind {A B} (m : ME A) (k : A -> ME B) : ME B :=
  fun s =>
    match m s with
    | (Returned a, s') => k a s'
    | (Threw e, s') => (Threw e, s')
    end.

Definition ethrow {A} (e : Thrown) : ME A := fun s => (Threw e, s).

Definition etryCatch {A} (body : ME A) (handler : Thrown -> ME A) : ME A :=
  fun s =>
    match body s with
    | (Returned a, s') => (Returned a, s')
    | (Threw e, s') => handler e s'
    end.

(** An operation on the smaller store, run on the larger one. *)
Definition lift {A} (m : M A) : ME A :=
  fun s => let (o, db') := m (base s) in (o, with_base s db').

Definition eliftOutcome {A} (o : Outcome A) : ME A := fun s => (o, s).

Definition eget : ME EbookDb := fun s => (Returned s, s).

Declare Scope e_scope.
Delimit Scope e_scope with ME.
Notation "x <- c1 ;; c2" := (ebind c1 (fun x => c2))
  (at level 61, c1 at next level, right associativity) : e_scope.
Notation "c1 ;; c2" := (ebind c1 (fun _ => c2))
  (at level 61, right associativity) : e_scope.
Local Open Scope e_scope.

(** What a function of the scraper does as far as the processor can see:
    the lines it writes through the logger it is given, then its answer
    (a value or a throw). *)
Record Scraped (A : Type) := {
  logged : list (MsgLevel * string * option LogMetadata);
  answer : Outcome A
}.
Arguments logged {A} _.
Arguments answer {A} _.

(** The collaborators of the processor: configuration service, scraper,
    id generator of the download history, [JSON.stringify] on the list of
    links, and for each write to history and queue whether it throws. *)
Record Env := {
  logEnv : Logger.Env;
  configService_get : string -> Outcome (option string);
  searchByAsin :
    string -> string -> string -> option string -> Scraped (option string);
  searchByTitle :
    string -> string -> string -> string -> option string ->
    Scraped (option string);
  getSlowDownloadLinks :
    string -> string -> option string -> Scraped (list string);
  newHistoryId : EbookDb -> string;
  JSON_stringify : list string -> string;
  downloadHistory_create_error : EbookDb -> option Thrown;
  addStartDirectDownloadJob_error : EbookDb -> option Thrown;
  downloadHistory_update_error : EbookDb -> option Thrown
}.

(** [x || d] on a value that is a string or null *)
Definition orElse (x : option string) (d : string) : string :=
  match x with
  | Some (String _ _ as v) => v
  | _ => d
  end.

(** [x || undefined] *)
Definition orUndefined (x : option string) : option string :=
  match x with
  | Some (String _ _ as v) => Some v
  | _ => None
  end.

Inductive SearchMethod := byAsin | byTitle.

(** [searchMethod === 'asin' ? 100 : 80] *)
Definition scoreOf (searchMethod : SearchMethod) : Z :=
  match searchMethod with byAsin => 100 | byTitle => 80 end.

Definition set_torrentUrl (v : option string) (h : DownloadHistory)
  : DownloadHistory :=
  {| dh_id := dh_id h; dh_requestId := dh_requestId h;
     indexerName := indexerName h; torrentName := torrentName h;
     torrentSizeBytes := torrentSizeBytes h; qualityScore := qualityScore h;
     selected := selected h; downloadClient := downloadClient h;
     downloadStatus := downloadStatus h; torrentUrl := v |}.

Definition existsb_history (hid : string) (hs : list DownloadHistory) : bool :=
  existsb (fun h => String.eqb (dh_id h) hid) hs.

Section WithEnv.
Variable E : Env.

Definition info (lg : Logger.RMABLogger) (m : string) : ME unit :=
  lift (Logger.info (logEnv E) lg m None).
Definition warn (lg : Logger.RMABLogger) (m : string) : ME unit :=
  lift (Logger.warn (logEnv E) lg m None).
Definition error (lg : Logger.RMABLogger) (m : string) : ME unit :=
  lift (Logger.error (logEnv E) lg m None).

(** A call of a scraper function with the logger [lg]. *)
Definition scrape {A} (lg : Logger.RMABLogger) (s : Scraped A) : ME A :=
  lift (forEach
          (fun l => Logger.log (logEnv E) lg (fst (fst l)) (snd (fst l))
                               (snd l))
          (logged s)) ;;
  eliftOutcome (answer s).

(** [prisma.downloadHistory.create({ data })]; the row is appended. *)
Definition downloadHistory_create (row : DownloadHistory)
  : ME DownloadHistory :=
  fun s =>
    match downloadHistory_create_error E s with
    | Some e => (Threw e, s)
    | None =>
        (Returned row,
         with_download_history s (download_history s ++ [row])%list)
    end.

(** [jobQueue.addStartDirectDownloadJob(...)] *)
Definition addStartDirectDownloadJob (j : DirectDownloadJob) : ME unit :=
  fun s =>
    match addStartDirectDownloadJob_error E s with
    | Some e => (Threw e, s)
    | None => (Returned tt, with_direct_jobs s (direct_jobs s ++ [j])%list)
    end.

(** [prisma.downloadHistory.update({ where: { id }, data })] *)
Definition downloadHistory_update (hid : string)
           (data : DownloadHistory -> DownloadHistory) : ME unit :=
  fun s =>
    match downloadHistory_update_error E s with
    | Some e => (Threw e, s)
    | None =>
        if existsb_history hid (download_history s)
        then (Returned tt,
              with_download_history s
                (map (fun h => if String.eqb (dh_id h) hid then data h else h)
                     (download_history s)))
        else (Threw (Error "Record to update not found."), s)
    end.

(** [payloadFormat || await configService.get(...) || 'epub'] *)
Definition choosePreferredFormat (payload : SearchEbookPayload) : ME string :=
  match preferredFormat payload with
  | Some (String _ _ as payloadFormat) => eret payloadFormat
  | _ =>
      configured <-
        eliftOutcome
          (configService_get E "ebook_sidecar_preferred_format") ;;
      eret (orElse configured "epub")
  end.

(** Step 1: try the ASIN search; the result is the value of [md5] and of
    [searchMethod] after the step. *)
Definition tryAsinSearch (lg : Logger.RMABLogger)
           (payload : SearchEbookPayload) (preferredFormat baseUrl : string)
           (flaresolverrUrl : option string)
  : ME (option string * SearchMethod) :=
  match ref_asin (audiobook payload) with
  | Some (String _ _ as asin) =>
      info lg ("Searching by ASIN: " ++ asin ++ " (format: "
               ++ preferredFormat ++ ")...") ;;
      md5 <-
        scrape lg
          (searchByAsin E asin preferredFormat baseUrl flaresolverrUrl) ;;
      match md5 with
      | Some (String _ _ as found) =>
          info lg ("Found via ASIN: " ++ found) ;;
          eret (md5, byAsin)
      | _ =>
          info lg
            "No results for ASIN, falling back to title + author search..." ;;
          eret (md5, byTitle)
      end
  | _ => eret (None, byTitle)
  end.

(** Step 2: fall back to the title and author search when [md5] is still
    empty. *)
Definition fallBackToTitleSearch (lg : Logger.RMABLogger)
           (payload : SearchEbookPayload) (preferredFormat baseUrl : string)
           (flaresolverrUrl : option string)
           (step1 : option string * SearchMethod)
  : ME (option string * SearchMethod) :=
  let book := audiobook payload in
  match fst step1 with
  | Some (String _ _) => eret step1
  | _ =>
      info lg ("Searching by title + author: " ++ Fmt.dq ++ ref_title book
               ++ Fmt.dq ++ " by " ++ ref_author book ++ "...") ;;
      md5 <-
        scrape lg
          (searchByTitle E (ref_title book) (ref_author book)
             preferredFormat baseUrl flaresolverrUrl) ;;
      match md5 with
      | Some (String _ _ as found) =>
          info lg ("Found via title search: " ++ found) ;;
          eret (md5, byTitle)
      | _ => eret (md5, snd step1)
      end
  end.

(** The body of the [try] block. *)
Definition searchAndQueue (lg : Logger.RMABLogger)
           (payload : SearchEbookPayload) : ME Result :=
  let rid := requestId payload in
  let book := audiobook payload in
  lift (request_update rid
          (fun db r =>
             set_updatedAt (now db)
               (set_searchAttempts (searchAttempts r + 1)
                  (set_status "searching" r)))) ;;
  preferredFormat <- choosePreferredFormat payload ;;
  baseUrlConfig <- eliftOutcome (configService_get E "ebook_sidecar_base_url") ;;
  let baseUrl := orElse baseUrlConfig "https://annas-archive.li" in
  flaresolverrConfig <-
    eliftOutcome (configService_get E "ebook_sidecar_flaresolverr_url") ;;
  let flaresolverrUrl := orUndefined flaresolverrConfig in
  match flaresolverrUrl with
  | Some url => info lg ("Using FlareSolverr at " ++ url)
  | None => eret tt
  end ;;
  step1 <- tryAsinSearch lg payload preferredFormat baseUrl flaresolverrUrl ;;
  step2 <-
    fallBackToTitleSearch lg payload preferredFormat baseUrl flaresolverrUrl
      step1 ;;
  let searchMethod := snd step2 in
  match fst step2 with
  | Some (String _ _ as md5) =>
      info lg ("Found MD5: " ++ md5) ;;
      slowLinks <-
        scrape lg (getSlowDownloadLinks E md5 baseUrl flaresolverrUrl) ;;
      match slowLinks with
      | [] =>
          warn lg ("No download links available for MD5: " ++ md5) ;;
          lift (request_update rid
                  (fun db r =>
                     set_updatedAt (now db)
                       (set_lastSearchAt (Some (now db))
                          (set_errorMessage
                             (Some "Found ebook but no download links available. Will retry automatically.")
                             (set_status "awaiting_search" r))))) ;;
          eret {| success := false;
                  message :=
                    "No download links available, queued for re-search";
                  res_requestId := rid;
                  searchResult := None |}
      | firstLink :: _ =>
          info lg ("Found " ++ Fmt.ofNat (List.length slowLinks)
                   ++ " download link(s)") ;;
          let score := scoreOf searchMethod in
          let filename :=
            ref_title book ++ " - " ++ ref_author book ++ "."
            ++ preferredFormat in
          info lg "==================== EBOOK SEARCH RESULT ====================" ;;
          info lg ("Title: " ++ Fmt.dq ++ ref_title book ++ Fmt.dq) ;;
          info lg ("Author: " ++ Fmt.dq ++ ref_author book ++ Fmt.dq) ;;
          info lg ("Match Method: "
                   ++ match searchMethod with
                      | byAsin => "ASIN (exact)"
                      | byTitle => "Title + Author (fuzzy)"
                      end) ;;
          info lg ("Format: " ++ preferredFormat) ;;
          info lg ("MD5: " ++ md5) ;;
          info lg ("Download Links: " ++ Fmt.ofNat (List.length slowLinks)) ;;
          info lg ("Score: " ++ Fmt.ofZ score ++ "/100") ;;
          info lg "==============================================================" ;;
          s <- eget ;;
          downloadHistory <-
            downloadHistory_create
              {| dh_id := newHistoryId E s;
                 dh_requestId := rid;
                 indexerName := "Anna's Archive";
                 torrentName := filename;
                 torrentSizeBytes := None;
                 qualityScore := score;
                 selected := true;
                 downloadClient := "direct";
                 downloadStatus := "queued";
                 torrentUrl := None |} ;;
          addStartDirectDownloadJob
            {| dd_requestId := rid;
               dd_downloadHistoryId := dh_id downloadHistory;
               dd_downloadUrl := firstLink;
               dd_targetFilename := filename;
               dd_expectedSize := None |} ;;
          downloadHistory_update (dh_id downloadHistory)
            (set_torrentUrl (Some (JSON_stringify E slowLinks))) ;;
          eret {| success := true;
                  message :=
                    "Found ebook via "
                    ++ match searchMethod with
                       | byAsin => "ASIN"
                       | byTitle => "title search"
                       end ++ ", starting download";
                  res_requestId := rid;
                  searchResult :=
                    Some {| md5 := md5;
                            res_format := preferredFormat;
                            res_score := score;
                            downloadLinksCount := List.length slowLinks |} |}
      end
  | _ =>
      warn lg ("No ebook found for request " ++ rid
               ++ ", marking as awaiting_search") ;;
      lift (request_update rid
              (fun db r =>
                 set_updatedAt (now db)
                   (set_lastSearchAt (Some (now db))
                      (set_errorMessage
                         (Some "No ebook found on Anna's Archive. Will retry automatically.")
                         (set_status "awaiting_search" r))))) ;;
      eret {| success := false;
              message := "No ebook found, queued for re-search";
              res_requestId := rid;
              searchResult := None |}
  end.

(** [processSearchEbook]: the [try] block and its [catch], which records
    the failure on the Request and throws the error again. *)
Definition processSearchEbook (payload : SearchEbookPayload) : ME Result :=
  let lg := Logger.forJob (jobId payload) "SearchEbook" in
  info lg ("Processing ebook request " ++ requestId payload ++ " for "
           ++ Fmt.dq ++ ref_title (audiobook payload) ++ Fmt.dq) ;;
  etryCatch (searchAndQueue lg payload)
    (fun err =>
       error lg ("Error: " ++ match err with
                              | Error m => m
                              | NonError => "Unknown error"
                              end) ;;
       lift (request_update (requestId payload)
               (fun db r =>
                  set_updatedAt (now db)
                    (set_errorMessage
                       (Some match err with
                             | Error m => m
                             | NonError => "Unknown error during ebook search"
                             end)
                       (set_status "failed" r)))) ;;
       ethrow err).

End WithEnv.

End SearchEbook.

(* ================================================================== *)
(** ** Vocabulary for the ebook search processor *)

Module EbookSpecs.
Import Store Triples SearchEbook.

(** From every store satisfying [P], [m] returns a value and leaves a
    store that satisfy [Q]. *)
Definition returnsE {A} (P : EbookDb -> Prop) (m : ME A)
           (Q : A -> EbookDb -> Prop) : Prop :=
  forall s, P s -> exists a s', m s = (Returned a, s') /\ Q a s'.

(** From every store satisfying [P], [m] throws [e] and leaves a store
    that satisfies [Q]. *)
Definition throwsE {A} (P : EbookDb -> Prop) (m : ME A) (e : Thrown)
           (Q : EbookDb -> Prop) : Prop :=
  forall s, P s -> exists s', m s = (@Threw A e, s') /\ Q s'.

(** From every store satisfying [P], [m] ends with an outcome and a store
    that satisfy [Q]. *)
Definition endsE {A} (P : EbookDb -> Prop) (m : ME A)
           (Q : Outcome A -> EbookDb -> Prop) : Prop :=
  forall s, P s -> Q (fst (m s)) (snd (m s)).

(** The part of the store the ebook pipeline lives in: Request table,
    download history, queue of direct downloads and clock. *)
Definition shape (rs : list Request) (hs : list DownloadHistory)
           (js : list DirectDownloadJob) (t : Z) (s : EbookDb) : Prop :=
  requests (base s) = rs /\ download_history s = hs /\ direct_jobs s = js
  /\ now (base s) = t.

(** Whatever the outcome, [m] keeps that part of the store. *)
Definition keeps {A} (m : ME A) : Prop :=
  forall rs hs js t s, shape rs hs js t s -> shape rs hs js t (snd (m s)).

Definition noEbook : string :=
  "No ebook found on Anna's Archive. Will retry automatically.".
Definition noLinks : string :=
  "Found ebook but no download links available. Will retry automatically.".

(** The error text the [catch] block stores on the Request. *)
Definition storedMessage (e : Thrown) : string :=
  match e with
  | Error m => m
  | NonError => "Unknown error during ebook search"
  end.

Definition searchingRows (payload : SearchEbookPayload)
           (rs : list Request) (t : Z) : list Request :=
  updated (requestId payload) (SearchIndexers.searching t) rs.

Definition awaitingRows (payload : SearchEbookPayload) (msg : string)
           (rs : list Request) (t : Z) : list Request :=
  updated (requestId payload) (SearchIndexers.awaiting msg t)
    (searchingRows payload rs t).

Definition failedRows (payload : SearchEbookPayload)
           (rs : list Request) (t : Z) (e : Thrown) : list Request :=
  updated (requestId payload)
    (SearchIndexers.failedWith (storedMessage e) t)
    (searchingRows payload rs t).

(** The name under which the ebook is stored. *)
Definition filename (payload : SearchEbookPayload) (fmt : string) : string :=
  ref_title (audiobook payload) ++ " - " ++ ref_author (audiobook payload)
  ++ "." ++ fmt.

(** The history row the processor creates. *)
Definition historyRow (payload : SearchEbookPayload) (fmt : string)
           (searchMethod : SearchMethod) (hid : string) : DownloadHistory :=
  {| dh_id := hid;
     dh_requestId := requestId payload;
     indexerName := "Anna's Archive";
     torrentName := filename payload fmt;
     torrentSizeBytes := None;
     qualityScore := scoreOf searchMethod;
     selected := true;
     downloadClient := "direct";
     downloadStatus := "queued";
     torrentUrl := None |}.

(** The direct download the processor queues. *)
Definition directJob (payload : SearchEbookPayload) (fmt : string)
           (hid : string) (firstLink : string) : DirectDownloadJob :=
  {| dd_requestId := requestId payload;
     dd_downloadHistoryId := hid;
     dd_downloadUrl := firstLink;
     dd_targetFilename := filename payload fmt;
     dd_expectedSize := None |}.

(** The history after the links have been stored on the rows with id
    [hid]. *)
Definition withLinks (hid : string) (url : string)
           (hs : list DownloadHistory) : list DownloadHistory :=
  map (fun h => if String.eqb (dh_id h) hid
                then set_torrentUrl (Some url) h else h) hs.

(** The value returned when a download has been queued. *)
Definition queued (payload : SearchEbookPayload) (fmt : string)
           (searchMethod : SearchMethod) (md5 : string) (links : nat)
  : Result :=
  {| success := true;
     message := "Found ebook via "
                ++ match searchMethod with
                   | byAsin => "ASIN"
                   | byTitle => "title search"
                   end ++ ", starting download";
     res_requestId := requestId payload;
     searchResult :=
       Some {| md5 := md5; res_format := fmt;
               res_score := scoreOf searchMethod;
               downloadLinksCount := links |} |}.

(** The settings the processor works with: the format of the payload if
    it has one, else the configured one, else epub; the configured base
    address or the default; the configured FlareSolverr address, if
    any. *)
Definition settings (E : Env) (payload : SearchEbookPayload)
           (fmt baseUrl : string) (flaresolverrUrl : option string) : Prop :=
  match preferredFormat payload with
  | Some (String _ _ as payloadFormat) => fmt = payloadFormat
  | _ =>
      exists c,
        configService_get E "ebook_sidecar_preferred_format" = Returned c
        /\ fmt = orElse c "epub"
  end
  /\ (exists c,
        configService_get E "ebook_sidecar_base_url" = Returned c
        /\ baseUrl = orElse c "https://annas-archive.li")
  /\ (exists c,
        configService_get E "ebook_sidecar_flaresolverr_url" = Returned c
        /\ flaresolverrUrl = orUndefined c).

(** The ASIN search is made and finds [md5]. *)
Definition foundByAsin (E : Env) (payload : SearchEbookPayload)
           (fmt baseUrl : string) (fs : option string) (md5 : string)
  : Prop :=
  exists asin,
    orUndefined (ref_asin (audiobook payload)) = Some asin
    /\ answer (searchByAsin E asin fmt baseUrl fs) = Returned (Some md5)
    /\ md5 <> "".

(** There is no ASIN to search by, or the ASIN search finds nothing. *)
Definition nothingByAsin (E : Env) (payload : SearchEbookPayload)
           (fmt baseUrl : string) (fs : option string) : Prop :=
  orUndefined (ref_asin (audiobook payload)) = None
  \/ exists asin r,
       orUndefined (ref_asin (audiobook payload)) = Some asin
       /\ answer (searchByAsin E asin fmt baseUrl fs) = Returned r
       /\ orUndefined r = None.

(** The answer of the title search. *)
Definition titleAnswer (E : Env) (payload : SearchEbookPayload)
           (fmt baseUrl : string) (fs : option string)
  : Outcome (option string) :=
  answer (searchByTitle E (ref_title (audiobook payload))
            (ref_author (audiobook payload)) fmt baseUrl fs).

(** The searches find [md5], by [searchMethod]. *)
Definition located (E : Env) (payload : SearchEbookPayload)
           (fmt baseUrl : string) (fs : option string) (md5 : string)
           (searchMethod : SearchMethod) : Prop :=
  (foundByAsin E payload fmt baseUrl fs md5 /\ searchMethod = byAsin)
  \/ (nothingByAsin E payload fmt baseUrl fs
      /\ titleAnswer E payload fmt baseUrl fs = Returned (Some md5)
      /\ md5 <> ""
      /\ searchMethod = byTitle).

(** Neither search finds anything. *)
Definition notLocated (E : Env) (payload : SearchEbookPayload)
           (fmt baseUrl : string) (fs : option string) : Prop :=
  nothingByAsin E payload fmt baseUrl fs
  /\ exists r, titleAnswer E payload fmt baseUrl fs = Returned r
               /\ orUndefined r = None.

(** No write to history or queue is refused. *)
Definition storageWorks (E : Env) : Prop :=
  forall s,
    downloadHistory_create_error E s = None
    /\ addStartDirectDownloadJob_error E s = None
    /\ downloadHistory_update_error E s = None.

(** How far the writes of a run got when it stopped: nothing written; the
    history row written; or the row written and the download queued. *)
Inductive progressOf (payload : SearchEbookPayload)
          (hs : list DownloadHistory) (js : list DirectDownloadJob)
  : list DownloadHistory -> list DirectDownloadJob -> Prop :=
| nothingWritten : progressOf payload hs js hs js
| rowWritten fmt searchMethod hid :
    progressOf payload hs js
      (hs ++ [historyRow payload fmt searchMethod hid])%list js
| downloadQueued fmt searchMethod hid firstLink :
    progressOf payload hs js
      (hs ++ [historyRow payload fmt searchMethod hid])%list
      (js ++ [directJob payload fmt hid firstLink])%list.

(** How the processor leaves the store, by outcome. *)
Definition processorPost (E : Env) (payload : SearchEbookPayload)
           (rs : list Request) (hs : list DownloadHistory)
           (js : list DirectDownloadJob) (t : Z)
           (onThrow : Thrown -> list Request)
           (out : Outcome Result) (s : EbookDb) : Prop :=
  match out with
  | Threw e =>
      exists hs' js',
        progressOf payload hs js hs' js' /\ shape (onThrow e) hs' js' t s
  | Returned res =>
      res_requestId res = requestId payload
      /\ ((success res = false
           /\ searchResult res = None
           /\ exists msg,
                (msg = noEbook \/ msg = noLinks)
                /\ shape (awaitingRows payload msg rs t) hs js t s)
          \/ (exists fmt searchMethod md5 hid firstLink rest,
                res = queued payload fmt searchMethod md5
                        (S (List.length rest))
                /\ md5 <> ""
                /\ shape (searchingRows payload rs t)
                     (withLinks hid (JSON_stringify E (firstLink :: rest))
                        (hs ++ [historyRow payload fmt searchMethod hid]))
                     (js ++ [directJob payload fmt hid firstLink])%list
                     t s))
  end.

End EbookSpecs.

(* ================================================================== *)
(** ** Inputs for the ebook search *)

Module EbookCases.
Import Store SearchEbook.

(** The ebook request of the completed audiobook request req-1. *)
Definition payload : SearchEbookPayload :=
  {| requestId := "req-2";
     audiobook :=
       {| ref_id := "ab-1"; ref_title := "The Wild Robot on the Island";
          ref_author := "Peter Brown"; ref_asin := Some "B0TEST0001" |};
     preferredFormat := None;
     jobId := Some "job-2" |}.

Definition silent {A} (o : Outcome A) : Scraped A :=
  {| logged := []; answer := o |}.

(** A library that knows the book by title only and offers two links;
    nothing is configured and every write is accepted. *)
Definition library : Env :=
  {| logEnv := Scenario.workingStore;
     configService_get := fun _ => Returned None;
     searchByAsin := fun _ _ _ _ =>
       {| logged := [(Linfo, "asin lookup", None)];
          answer := Returned None |};
     searchByTitle := fun _ _ _ _ _ =>
       silent (Returned (Some "d41d8cd98f00b204e9800998ecf8427e"));
     getSlowDownloadLinks := fun _ _ _ =>
       silent (Returned ["https://mirror.example/slow/1";
                         "https://mirror.example/slow/2"]);
     newHistoryId := fun s =>
       "dh-" ++ Fmt.ofNat (S (List.length (download_history s)));
     JSON_stringify := fun links => "[" ++ Js.join "," links ++ "]";
     downloadHistory_create_error := fun _ => None;
     addStartDirectDownloadJob_error := fun _ => None;
     downloadHistory_update_error := fun _ => None |}.

(** The same library with a queue that refuses the download. *)
Definition queueDown : Env :=
  {| logEnv := logEnv library;
     configService_get := configService_get library;
     searchByAsin := searchByAsin library;
     searchByTitle := searchByTitle library;
     getSlowDownloadLinks := getSlowDownloadLinks library;
     newHistoryId := newHistoryId library;
     JSON_stringify := JSON_stringify library;
     downloadHistory_create_error := fun _ => None;
     addStartDirectDownloadJob_error :=
       fun _ => Some (Error "Queue unavailable");
     downloadHistory_update_error := fun _ => None |}.

(** A library where the ASIN search answers an empty md5 and the title
    search finds nothing. *)
Definition emptyLibrary : Env :=
  {| logEnv := logEnv library;
     configService_get := configService_get library;
     searchByAsin := fun _ _ _ _ => silent (Returned (Some ""));
     searchByTitle := fun _ _ _ _ _ => silent (Returned None);
     getSlowDownloadLinks := getSlowDownloadLinks library;
     newHistoryId := newHistoryId library;
     JSON_stringify := JSON_stringify library;
     downloadHistory_create_error := fun _ => None;
     addStartDirectDownloadJob_error := fun _ => None;
     downloadHistory_update_error := fun _ => None |}.

Definition start : EbookDb :=
  {| base := Cases.dbParentAndEbook; download_history := [];
     direct_jobs := [] |}.

End EbookCases.

(* ================================================================== *)
(** ** User Approval API route ([POST])
       (src/app/api/admin/users/[id]/approve/route.ts) *)

Module UserApproval.
Import Store.

(** The columns of a user the approval route and the list of pending
    users read. *)
Record User := {
  user_id : string;
  plexUsername : string;
  plexEmail : option string;
  authProvider : option string;
  registrationStatus : string;
  createdAt : Z;
  deletedAt : option Z
}.

Definition set_registrationStatus (v : string) (u : User) : User :=
  {| user_id := user_id u; plexUsername := plexUsername u;
     plexEmail := plexEmail u; authProvider := authProvider u;
     registrationStatus := v; createdAt := createdAt u;
     deletedAt := deletedAt u |}.

(** The store of the other operations, with the user table. *)
Record UserDb := {
  base : Db;
  users : list User
}.

Definition with_base (s : UserDb) (db : Db) : UserDb :=
  {| base := db; users := users s |}.

Definition with_users (s : UserDb) (us : list User) : UserDb :=
  {| base := base s; users := us |}.

Definition MU (A : Type) : Type := UserDb -> Outcome A * UserDb.

Definition uret {A} (a : A) : MU A := fun s => (Returned a, s).

Definition ubind {A B} (m : MU A) (k : A -> MU B) : MU B :=
  fun s =>
    match m s with
    | (Returned a, s') => k a s'
    | (Threw e, s') => (Threw e, s')
    end.

Definition utryCatch {A} (body : MU A) (handler : Thrown -> MU A) : MU A :=
  fun s =>
    match body s with
    | (Returned a, s') => (Returned a, s')
    | (Threw e, s') => handler e s'
    end.

Definition lift {A} (m : M A) : MU A :=
  fun s => let (o, db') := m (base s) in (o, with_base s db').

Definition uliftOutcome {A} (o : Outcome A) : MU A := fun s => (o, s).

Declare Scope u_scope.
Delimit Scope u_scope with MU.
Notation "x <- c1 ;; c2" := (ubind c1 (fun x => c2))
  (at level 61, c1 at next level, right associativity) : u_scope.
Notation "c1 ;; c2" := (ubind c1 (fun _ => c2))
  (at level 61, right associativity) : u_scope.
Local Open Scope u_scope.

Inductive Gate := requireAuth | requireAdmin.

Inductive Body :=
| ErrorBody (error : string)
| SuccessBody (message : string).

(** What the route answers: a JSON body with its HTTP status, or the
    answer of a middleware that did not let the call through. *)
Inductive Response :=
| NextResponse_json (body : Body) (status : Z)
| Denied (gate : Gate).

(** The middlewares, the body of the request as [request.json()] yields
    it, and for each call of Prisma whether it throws. *)
Record Env := {
  logEnv : Logger.Env;
  authenticated : bool;
  isAdmin : bool;
  request_json : Outcome SearchIndexers.Json;
  user_findUnique_error : option Thrown;
  user_update_error : option Thrown;
  user_delete_error : option Thrown
}.

(** Truthiness of a JSON value. *)
Definition truthy (v : option SearchIndexers.Json) : bool :=
  match v with
  | None => false
  | Some SearchIndexers.JNull => false
  | Some (SearchIndexers.JBool b) => b
  | Some (SearchIndexers.JNum n) => negb (Qeq_bool n 0)
  | Some (SearchIndexers.JStr s) => Js.truthy s
  | Some (SearchIndexers.JArr _) => true
  | Some (SearchIndexers.JObj _) => true
  end.

Definition existsb_user (uid : string) (us : list User) : bool :=
  existsb (fun u => String.eqb (user_id u) uid) us.

Section WithEnv.
Variable E : Env.

Definition logger : Logger.RMABLogger :=
  Logger.create "API.Admin.Users.Approve".

(** [prisma.user.findUnique({ where: { id }, select })] *)
Definition user_findUnique (uid : string) : MU (option User) :=
  fun s =>
    match user_findUnique_error E with
    | Some e => (Threw e, s)
    | None =>
        (Returned (find (fun u => String.eqb (user_id u) uid) (users s)), s)
    end.

(** [prisma.user.update({ where: { id }, data })] *)
Definition user_update (uid : string) (data : User -> User) : MU unit :=
  fun s =>
    match user_update_error E with
    | Some e => (Threw e, s)
    | None =>
        if existsb_user uid (users s)
        then (Returned tt,
              with_users s
                (map (fun u => if String.eqb (user_id u) uid
                               then data u else u)
                     (users s)))
        else (Threw (Error "Record to update not found."), s)
    end.

(** [prisma.user.delete({ where: { id } })] *)
Definition user_delete (uid : string) : MU unit :=
  fun s =>
    match user_delete_error E with
    | Some e => (Threw e, s)
    | None =>
        if existsb_user uid (users s)
        then (Returned tt,
              with_users s
                (filter (fun u => negb (String.eqb (user_id u) uid))
                        (users s)))
        else (Threw (Error "Record to delete does not exist."), s)
    end.

(** The body of the [try] block of the handler. *)
Definition handler (id : string) : MU Response :=
  body <- uliftOutcome (request_json E) ;;
  approve <- uliftOutcome (SearchIndexers.property "approve" body) ;;
  user <- user_findUnique id ;;
  match user with
  | None => uret (NextResponse_json (ErrorBody "User not found") 404)
  | Some user =>
      if negb (String.eqb (registrationStatus user) "pending_approval")
      then
        uret (NextResponse_json
                (ErrorBody "User is not pending approval") 400)
      else if truthy approve
      then
        user_update id (set_registrationStatus "approved") ;;
        uret (NextResponse_json
                (SuccessBody ("User " ++ plexUsername user
                              ++ " has been approved"))
                200)
      else
        user_delete id ;;
        uret (NextResponse_json
                (SuccessBody ("User " ++ plexUsername user
                              ++ " has been rejected and removed"))
                200)
  end.

(** [POST]: the handler behind [requireAuth] and [requireAdmin], with the
    [catch] that answers 500. *)
Definition POST (id : string) : MU Response :=
  if negb (authenticated E) then uret (Denied requireAuth)
  else if negb (isAdmin E) then uret (Denied requireAdmin)
  else
    utryCatch (handler id)
      (fun err =>
         lift (Logger.error (logEnv E) logger "Failed to approve/reject user"
                 (Some [("error",
                         match err with
                         | Error m => m
                         | NonError => "[object]"
                         end)])) ;;
         uret (NextResponse_json
                 (ErrorBody "Failed to process user approval") 500)).

End WithEnv.

(** The same surroundings with another request body. *)
Definition withBody (E : Env) (body : Outcome SearchIndexers.Json) : Env :=
  {| logEnv := logEnv E;
     authenticated := authenticated E;
     isAdmin := isAdmin E;
     request_json := body;
     user_findUnique_error := user_findUnique_error E;
     user_update_error := user_update_error E;
     user_delete_error := user_delete_error E |}.

(** The call is made by an administrator, the body can be read and is not
    null, and Prisma does not throw. *)
Definition served (E : Env) (body : SearchIndexers.Json) : Prop :=
  authenticated E = true /\ isAdmin E = true
  /\ request_json E = Returned body
  /\ body <> SearchIndexers.JNull
  /\ user_findUnique_error E = None
  /\ user_update_error E = None
  /\ user_delete_error E = None.

(** The value of [approve] in the body. *)
Definition approveOf (body : SearchIndexers.Json)
  : option SearchIndexers.Json :=
  match SearchIndexers.property "approve" body with
  | Returned v => v
  | Threw _ => None
  end.

Definition pending (u : User) : Prop :=
  registrationStatus u = "pending_approval".

Definition findUser (uid : string) (s : UserDb) : option User :=
  find (fun u => String.eqb (user_id u) uid) (users s).

(** The answer is a success. *)
Definition succeeded (r : Response) : bool :=
  match r with
  | NextResponse_json (SuccessBody _) _ => true
  | _ => false
  end.

End UserApproval.

(* ================================================================== *)
(** ** Pending Users API route ([GET])
       (src/app/api/admin/users/pending/route.ts) *)

Module PendingUsers.
Import Store UserApproval.
Local Open Scope u_scope.

(** The columns the route selects. *)
Record Listed := {
  listed_id : string;
  listed_plexUsername : string;
  listed_plexEmail : option string;
  listed_authProvider : option string;
  listed_createdAt : Z
}.

Inductive Body :=
| ErrorBody (error : string)
| UsersBody (users : list Listed).

Inductive Response :=
| NextResponse_json (body : Body) (status : Z)
| Denied (gate : Gate).

Record Env := {
  logEnv : Logger.Env;
  authenticated : bool;
  isAdmin : bool;
  user_findMany_error : option Thrown
}.

(** [where: { registrationStatus: 'pending_approval', deletedAt: null }] *)
Definition pendingWhere (u : User) : bool :=
  String.eqb (registrationStatus u) "pending_approval"
  && match deletedAt u with None => true | Some _ => false end.

Definition select (u : User) : Listed :=
  {| listed_id := user_id u;
     listed_plexUsername := plexUsername u;
     listed_plexEmail := plexEmail u;
     listed_authProvider := authProvider u;
     listed_createdAt := createdAt u |}.

(** [orderBy: { createdAt: 'desc' }]; rows of equal [createdAt] are kept
    in table order. *)
Fixpoint insertDesc (u : User) (sorted : list User) : list User :=
  match sorted with
  | [] => [u]
  | v :: rest =>
      if (createdAt v <? createdAt u)%Z then u :: v :: rest
      else v :: insertDesc u rest
  end.

Definition orderByCreatedAtDesc (us : list User) : list User :=
  fold_right insertDesc [] us.

Section WithEnv.
Variable E : Env.

Definition logger : Logger.RMABLogger :=
  Logger.create "API.Admin.Users.Pending".

(** [prisma.user.findMany({ where, select, orderBy })] *)
Definition user_findMany : MU (list Listed) :=
  fun s =>
    match user_findMany_error E with
    | Some e => (Threw e, s)
    | None =>
        (Returned
           (map select (orderByCreatedAtDesc (filter pendingWhere (users s)))),
         s)
    end.

(** [GET]: the lookup behind [requireAuth] and [requireAdmin], with the
    [catch] that answers 500. *)
Definition GET : MU Response :=
  if negb (authenticated E) then uret (Denied requireAuth)
  else if negb (isAdmin E) then uret (Denied requireAdmin)
  else
    utryCatch
      (pendingUsers <- user_findMany ;;
       uret (NextResponse_json (UsersBody pendingUsers) 200))
      (fun err =>
         lift (Logger.error (logEnv E) logger "Failed to fetch pending users"
                 (Some [("error",
                         match err with
                         | Error m => m
                         | NonError => "[object]"
                         end)])) ;;
         uret (NextResponse_json
                 (ErrorBody "Failed to fetch pending users") 500)).

End WithEnv.

(** The call is made by an administrator and Prisma does not throw. *)
Definition served (E : Env) : Prop :=
  authenticated E = true /\ isAdmin E = true
  /\ user_findMany_error E = None.

(** The ids in the answer. *)
Definition listedIds (r : Response) : list string :=
  match r with
  | NextResponse_json (UsersBody us) _ => map listed_id us
  | _ => []
  end.

End PendingUsers.

(* ================================================================== *)
(** ** Inputs for the user approval route *)

Module ApprovalCases.
Import Store UserApproval.

Definition member : User :=
  {| user_id := "u-1"; plexUsername := "reader";
     plexEmail := Some "reader@example.org"; authProvider := Some "plex";
     registrationStatus := "approved"; createdAt := 100;
     deletedAt := None |}.

Definition newcomer : User :=
  {| user_id := "u-2"; plexUsername := "newcomer";
     plexEmail := None; authProvider := Some "local";
     registrationStatus := "pending_approval"; createdAt := 200;
     deletedAt := None |}.

(** A pending account that was soft-deleted. *)
Definition ghost : User :=
  {| user_id := "u-3"; plexUsername := "ghost";
     plexEmail := None; authProvider := Some "local";
     registrationStatus := "pending_approval"; createdAt := 150;
     deletedAt := Some 180%Z |}.

Definition withGhost : UserDb :=
  {| base := Scenario.dbPending; users := [member; newcomer; ghost] |}.

Definition start : UserDb :=
  {| base := Scenario.dbPending; users := [member; newcomer] |}.

(** An administrator whose request body is the empty object. *)
Definition bodyless : Env :=
  {| logEnv := Scenario.workingStore;
     authenticated := true;
     isAdmin := true;
     request_json := Returned (SearchIndexers.JObj []);
     user_findUnique_error := None;
     user_update_error := None;
     user_delete_error := None |}.

(** The same administrator sending [approve: true]. *)
Definition approving : Env :=
  withBody bodyless
    (Returned (SearchIndexers.JObj
                 [("approve", SearchIndexers.JBool true)])).

(** An administrator asking for the list of pending users. *)
Definition listing : PendingUsers.Env :=
  {| PendingUsers.logEnv := Scenario.workingStore;
     PendingUsers.authenticated := true;
     PendingUsers.isAdmin := true;
     PendingUsers.user_findMany_error := None |}.

End ApprovalCases.

(* ================================================================== *)
(** ** Local Login endpoint ([POST /api/auth/local/login]) *)

Module LocalLogin.
Import Store.

Record Tokens := {
  accessToken : string;
  refreshToken : string
}.

(** What [LocalAuthProvider.handleCallback] resolves to. *)
Record AuthResult := {
  success : bool;
  requiresApproval : bool;
  error : option string;
  user : SearchIndexers.Json;
  tokens : option Tokens
}.

Inductive Body :=
| ErrorBody (error : option string)
| PendingBody (message : string)
| LoginBody (user : SearchIndexers.Json) (accessToken refreshToken : string).

Inductive Response :=
| NextResponse_json (body : Body) (status : Z).

(** The environment variable, the body of the request, the provider, and
    how a value is shown in the metadata of a log line. *)
Record Env := {
  logEnv : Logger.Env;
  DISABLE_LOCAL_LOGIN : option string;
  request_json : Outcome SearchIndexers.Json;
  handleCallback :
    option SearchIndexers.Json -> option SearchIndexers.Json ->
    Outcome AuthResult;
  show : option SearchIndexers.Json -> string
}.

(** [process.env.DISABLE_LOCAL_LOGIN === 'true'] *)
Definition disabled (E : Env) : bool :=
  match DISABLE_LOCAL_LOGIN E with
  | Some v => String.eqb v "true"
  | None => false
  end.

Section WithEnv.
Variable E : Env.

Definition logger : Logger.RMABLogger := Logger.create "API.Auth.LocalLogin".

(** The body of the [try] block. *)
Definition handler : M Response :=
  if disabled E
  then ret (NextResponse_json
              (ErrorBody (Some "Local login is disabled")) 403)
  else
    body <- liftOutcome (request_json E) ;;
    username <- liftOutcome (SearchIndexers.property "username" body) ;;
    password <- liftOutcome (SearchIndexers.property "password" body) ;;
    if negb (UserApproval.truthy username) || negb (UserApproval.truthy password)
    then ret (NextResponse_json
                (ErrorBody (Some "Username and password are required")) 400)
    else
      Logger.info (logEnv E) logger "Attempting login"
        (Some [("username", show E username)]) ;;
      result <- liftOutcome (handleCallback E username password) ;;
      if negb (success result)
      then
        if requiresApproval result
        then
          Logger.info (logEnv E) logger "Account pending approval"
            (Some [("username", show E username)]) ;;
          ret (NextResponse_json
                 (PendingBody "Account pending admin approval.") 200)
        else
          Logger.error (logEnv E) logger "Login failed"
            (Some [("error",
                    show E (option_map SearchIndexers.JStr
                                       (error result)))]) ;;
          ret (NextResponse_json (ErrorBody (error result)) 401)
      else
        Logger.info (logEnv E) logger "Login successful"
          (Some [("username", show E username)]) ;;
        Logger.debug (logEnv E) logger "User data"
          (Some [("user", show E (Some (user result)))]) ;;
        Logger.debug (logEnv E) logger "Token generated successfully" None ;;
        match tokens result with
        | None =>
            throw (Error
              "Cannot read properties of undefined (reading 'accessToken')")
        | Some t =>
            ret (NextResponse_json
                   (LoginBody (user result) (accessToken t) (refreshToken t))
                   200)
        end.

(** [POST]: the [try] block with the [catch] that answers 500. *)
Definition POST : M Response :=
  tryCatch handler
    (fun err =>
       Logger.error (logEnv E) logger "Error"
         (Some [("error",
                 match err with
                 | Error m => m
                 | NonError => "[object]"
                 end)]) ;;
       ret (NextResponse_json (ErrorBody (Some "Login failed")) 500)).

End WithEnv.

(** The same surroundings with another provider. *)
Definition withProvider (E : Env)
           (provider : option SearchIndexers.Json ->
                       option SearchIndexers.Json -> Outcome AuthResult)
  : Env :=
  {| logEnv := logEnv E;
     DISABLE_LOCAL_LOGIN := DISABLE_LOCAL_LOGIN E;
     request_json := request_json E;
     handleCallback := provider;
     show := show E |}.

(** The credentials in the body of the request, when both are there. *)
Definition credentials (E : Env)
  : option (option SearchIndexers.Json * option SearchIndexers.Json) :=
  match request_json E with
  | Returned body =>
      match SearchIndexers.property "username" body,
            SearchIndexers.property "password" body with
      | Returned username, Returned password =>
          if UserApproval.truthy username && UserApproval.truthy password
          then Some (username, password)
          else None
      | _, _ => None
      end
  | Threw _ => None
  end.

(** The tokens in an answer, if it carries any. *)
Definition issued (r : Response) : option Tokens :=
  match r with
  | NextResponse_json (LoginBody _ a b) _ =>
      Some {| accessToken := a; refreshToken := b |}
  | _ => None
  end.

Definition statusOf (r : Response) : Z :=
  match r with NextResponse_json _ st => st end.

End LocalLogin.

(* ================================================================== *)
(** ** Inputs for the local login endpoint *)

Module LoginCases.
Import Store LocalLogin.

Definition goodTokens : Tokens :=
  {| accessToken := "access-1"; refreshToken := "refresh-1" |}.

(** A provider that knows one account. *)
Definition provider (username password : option SearchIndexers.Json)
  : Outcome AuthResult :=
  match username, password with
  | Some (SearchIndexers.JStr "admin"), Some (SearchIndexers.JStr "secret") =>
      Returned {| success := true; requiresApproval := false;
                  error := None;
                  user := SearchIndexers.JObj
                            [("username", SearchIndexers.JStr "admin")];
                  tokens := Some goodTokens |}
  | _, _ =>
      Returned {| success := false; requiresApproval := false;
                  error := Some "Invalid username or password";
                  user := SearchIndexers.JNull;
                  tokens := None |}
  end.

Definition showJson (v : option SearchIndexers.Json) : string :=
  match v with
  | Some (SearchIndexers.JStr s) => s
  | _ => "[value]"
  end.

(** A login with the right credentials. *)
Definition login : Env :=
  {| logEnv := Scenario.workingStore;
     DISABLE_LOCAL_LOGIN := None;
     request_json :=
       Returned (SearchIndexers.JObj
                   [("username", SearchIndexers.JStr "admin");
                    ("password", SearchIndexers.JStr "secret")]);
     handleCallback := provider;
     show := showJson |}.

(** The same request with local login switched off. *)
Definition switchedOff : Env :=
  {| logEnv := Scenario.workingStore;
     DISABLE_LOCAL_LOGIN := Some "true";
     request_json := request_json login;
     handleCallback := provider;
     show := showJson |}.

(** A provider that lets everybody in. *)
Definition openDoor (username password : option SearchIndexers.Json)
  : Outcome AuthResult :=
  Returned {| success := true; requiresApproval := false; error := None;
              user := SearchIndexers.JNull; tokens := Some goodTokens |}.

End LoginCases.

(* ================================================================== *)
(** ** Version API route ([GET /api/version]) and Version Badge *)

Module Version.

(** The environment variables the route reads. *)
Record Env := {
  APP_VERSION : option string;
  GIT_COMMIT : option string;
  BUILD_DATE : option string
}.

(** The JSON body of the answer. *)
Record VersionInfo := {
  version : string;
  fullVersion : string;
  commit : string;
  buildDate : string
}.

Definition GET (E : Env) : VersionInfo :=
  let appVersion := SearchEbook.orElse (APP_VERSION E) "unknown" in
  let gitCommit := SearchEbook.orElse (GIT_COMMIT E) "unknown" in
  let buildDate := SearchEbook.orElse (BUILD_DATE E) "unknown" in
  {| version := if negb (String.eqb appVersion "unknown")
                then "v" ++ appVersion else "vDEV";
     fullVersion := appVersion;
     commit := gitCommit;
     buildDate := buildDate |}.

End Version.

Module VersionBadge.
Import Store.

(** What [res.json()] yields, as far as the badge reads it. *)
Record Data := {
  data_version : option string;
  data_commit : option string
}.

(** The variables inlined at build time and the outcome of
    [fetch('/api/version')] with [res.json()]. *)
Record Env := {
  NEXT_PUBLIC_APP_VERSION : option string;
  NEXT_PUBLIC_GIT_COMMIT : option string;
  fetch_version : Outcome Data
}.

(** The state of the component: [version] and [commit]. *)
Record State := {
  version : option string;
  commit : option string
}.

(** [s.substring(0, 7)] *)
Definition substring7 (s : string) : string := String.substring 0 7 s.

(** The state once the effect has run (and the fetch, if made, has
    settled); the console line of the [catch] is left out. *)
Definition useEffect (E : Env) : State :=
  let fallback :=
    match fetch_version E with
    | Returned data =>
        {| version := data_version data;
           commit :=
             match data_commit data with
             | Some (String _ _ as c) =>
                 if negb (String.eqb c "unknown")
                 then Some (substring7 c) else None
             | _ => None
             end |}
    | Threw _ => {| version := Some "vDEV"; commit := None |}
    end in
  match NEXT_PUBLIC_APP_VERSION E with
  | Some (String _ _ as buildTimeVersion) =>
      if negb (String.eqb buildTimeVersion "unknown")
      then
        {| version := Some ("v" ++ buildTimeVersion);
           commit :=
             match NEXT_PUBLIC_GIT_COMMIT E with
             | Some (String _ _ as buildTimeCommit) =>
                 if negb (String.eqb buildTimeCommit "unknown")
                 then
                   Some (if (7 <=? String.length buildTimeCommit)%nat
                         then substring7 buildTimeCommit
                         else buildTimeCommit)
                 else None
             | _ => None
             end |}
      else fallback
  | _ => fallback
  end.

(** What is rendered: nothing, or the tooltip and the text. *)
Definition render (st : State) : option (string * string) :=
  match version st with
  | Some (String _ _ as v) =>
      Some (match commit st with
            | Some (String _ _ as c) => v ++ " (" ++ c ++ ")"
            | _ => v
            end, v)
  | _ => None
  end.

(** The answer of the version route as the badge receives it. *)
Definition served (info : Version.VersionInfo) : Data :=
  {| data_version := Some (Version.version info);
     data_commit := Some (Version.commit info) |}.

(** A badge built with the variables of the server [E], whose fetch would
    end in [o]. *)
Definition builtWith (E : Version.Env) (o : Outcome Data) : Env :=
  {| NEXT_PUBLIC_APP_VERSION := Version.APP_VERSION E;
     NEXT_PUBLIC_GIT_COMMIT := Version.GIT_COMMIT E;
     fetch_version := o |}.

(** A badge built without variables, served by [E]. *)
Definition servedBy (E : Version.Env) : Env :=
  {| NEXT_PUBLIC_APP_VERSION := None;
     NEXT_PUBLIC_GIT_COMMIT := None;
     fetch_version := Returned (served (Version.GET E)) |}.

(** The commit the badge was given: at build time, or by the server. *)
Definition commitGiven (E : Env) : option string :=
  match NEXT_PUBLIC_APP_VERSION E with
  | Some (String _ _ as buildTimeVersion) =>
      if negb (String.eqb buildTimeVersion "unknown")
      then NEXT_PUBLIC_GIT_COMMIT E
      else match fetch_version E with
           | Returned data => data_commit data
           | Threw _ => None
           end
  | _ => match fetch_version E with
         | Returned data => data_commit data
         | Threw _ => None
         end
  end.

End VersionBadge.

(* ================================================================== *)
(** ** Inputs for the version badge *)

Module VersionCases.

Definition release : Version.Env :=
  {| Version.APP_VERSION := Some "1.4.2";
     Version.GIT_COMMIT := Some "0123456789abcdef";
     Version.BUILD_DATE := Some "2025-01-01" |}.

End VersionCases.

(* ================================================================== *)
(** ** Admin Job Execution Status route ([GET /api/admin/job-status/:id]) *)

Module JobStatus.
Import Store.

(** What [verifyAccessToken] yields for a valid token, as far as the
    route reads it. *)
Record TokenPayload := { role : string }.

(** A job as the queue service returns it. *)
Record JobRow := {
  job_id : string;
  job_type : string;
  job_status : string;
  job_payload : SearchIndexers.Json;
  job_priority : Z;
  createdAt : string;
  startedAt : option string;
  completedAt : option string;
  result : option SearchIndexers.Json;
  errorMessage : option string;
  attempts : Z;
  maxAttempts : Z
}.

(** The part of the job the route answers with. *)
Record JobView := {
  view_id : string;
  view_type : string;
  view_status : string;
  view_createdAt : string;
  view_startedAt : option string;
  view_completedAt : option string;
  view_result : option SearchIndexers.Json;
  view_errorMessage : option string;
  view_attempts : Z;
  view_maxAttempts : Z
}.

Inductive Body :=
| ErrorBody (error : string)
| InternalError (message : string)
| JobBody (job : JobView).

Inductive Response :=
| NextResponse_json (body : Body) (status : Z).

(** The [Authorization] header of the request, the verification of
    tokens and the queue service. *)
Record Env := {
  logEnv : Logger.Env;
  authorization : option string;
  verifyAccessToken : string -> Outcome (option TokenPayload);
  getJob : string -> Outcome (option JobRow)
}.

(** [s.replace(pattern, '')] with a string pattern: the first occurrence
    is removed. *)
Fixpoint removeFirst (pattern s : string) : string :=
  if Js.startsWith s pattern
  then Js.substring_from (String.length pattern) s
  else match s with
       | EmptyString => EmptyString
       | String c rest => String c (removeFirst pattern rest)
       end.

(** [request.headers.get('Authorization')?.replace('Bearer ', '')] *)
Definition tokenOf (E : Env) : option string :=
  option_map (removeFirst "Bearer ") (authorization E).

Definition viewOf (job : JobRow) : JobView :=
  {| view_id := job_id job;
     view_type := job_type job;
     view_status := job_status job;
     view_createdAt := createdAt job;
     view_startedAt := startedAt job;
     view_completedAt := completedAt job;
     view_result := result job;
     view_errorMessage := errorMessage job;
     view_attempts := attempts job;
     view_maxAttempts := maxAttempts job |}.

Section WithEnv.
Variable E : Env.

Definition logger : Logger.RMABLogger := Logger.create "API.JobStatus".

(** The body of the [try] block. *)
Definition handler (id : string) : M Response :=
  match tokenOf E with
  | Some (String _ _ as token) =>
      payload <- liftOutcome (verifyAccessToken E token) ;;
      match payload with
      | Some payload =>
          if negb (String.eqb (role payload) "admin")
          then ret (NextResponse_json
                      (ErrorBody "Forbidden - Admin access required") 403)
          else
            Logger.debug (logEnv E) logger
              ("Fetching status for job ID: " ++ id) None ;;
            job <- liftOutcome (getJob E id) ;;
            match job with
            | None =>
                Logger.debug (logEnv E) logger ("Job not found: " ++ id)
                  None ;;
                ret (NextResponse_json (ErrorBody "Job not found") 404)
            | Some job =>
                Logger.debug (logEnv E) logger
                  ("Job " ++ id ++ " status: " ++ job_status job
                   ++ ", type: " ++ job_type job) None ;;
                ret (NextResponse_json (JobBody (viewOf job)) 200)
            end
      | None =>
          ret (NextResponse_json
                 (ErrorBody "Forbidden - Admin access required") 403)
      end
  | _ => ret (NextResponse_json (ErrorBody "Unauthorized") 401)
  end.

(** [GET]: the [try] block with the [catch] that answers 500. *)
Definition GET (id : string) : M Response :=
  tryCatch (handler id)
    (fun err =>
       Logger.error (logEnv E) logger "Failed to get job status"
         (Some [("error",
                 match err with
                 | Error m => m
                 | NonError => "[object]"
                 end)]) ;;
       ret (NextResponse_json
              (InternalError match err with
                             | Error m => m
                             | NonError => "Failed to get job status"
                             end)
              500)).

End WithEnv.

(** The answer carries the details of a job. *)
Definition disclosed (r : Response) : option JobView :=
  match r with
  | NextResponse_json (JobBody v) _ => Some v
  | _ => None
  end.

Definition statusOf (r : Response) : Z :=
  match r with NextResponse_json _ st => st end.

(** [pattern] does not occur in [s]. *)
Fixpoint absent (pattern s : string) : bool :=
  negb (Js.startsWith s pattern)
  && match s with
     | EmptyString => true
     | String _ rest => absent pattern rest
     end.

End JobStatus.

(* ================================================================== *)
(** ** Inputs for the job status route *)

Module JobStatusCases.
Import Store JobStatus.

Definition searchJob : JobRow :=
  {| job_id := "job-1"; job_type := "search_indexers";
     job_status := "completed";
     job_payload := SearchIndexers.JObj
                      [("requestId", SearchIndexers.JStr "req-1")];
     job_priority := 0;
     createdAt := "2025-01-01T00:00:00Z";
     startedAt := Some "2025-01-01T00:00:01Z";
     completedAt := Some "2025-01-01T00:00:09Z";
     result := None; errorMessage := None;
     attempts := 1; maxAttempts := 3 |}.

(** A call with the token of an administrator. *)
Definition adminCall : Env :=
  {| logEnv := Scenario.workingStore;
     authorization := Some "Bearer admin-token";
     verifyAccessToken := fun token =>
       if String.eqb token "admin-token"
       then Returned (Some {| role := "admin" |})
       else Returned None;
     getJob := fun id =>
       if String.eqb id "job-1" then Returned (Some searchJob)
       else Returned None |}.

End JobStatusCases.

(* ================================================================== *)
(** * Properties *)

(** ** Path translation *)


Module PathMapperProofs.
Import PathMapper.

Lemma append_nil_r (s : string) : s ++ "" = s.
Proof. induction s; simpl; congruence. Qed.

Lemma append_assoc (a b c : string) : (a ++ b) ++ c = a ++ b ++ c.
Proof. induction a; simpl; congruence. Qed.

Lemma absPath_app (xs ys : list string) :
  absPath (xs ++ ys)%list = absPath xs ++ absPath ys.
Proof.
  induction xs as [|x xs IH]; simpl; [reflexivity|].
  rewrite IH, append_assoc. reflexivity.
Qed.

Lemma startsWith_app (s t : string) : Js.startsWith (s ++ t) s = true.
Proof.
  unfold Js.startsWith. induction s as [|a s IH]; simpl.
  - destruct t; reflexivity.
  - destruct (ascii_dec a a); [exact IH | congruence].
Qed.

Lemma substring_from_app (s t : string) :
  Js.substring_from (String.length s) (s ++ t) = t.
Proof. induction s; simpl; [destruct t; reflexivity | assumption]. Qed.

Lemma cleanSegment_plain seg : cleanSegment seg = true -> plain seg.
Proof.
  unfold cleanSegment, plain. intros H.
  apply andb_prop in H. tauto.
Qed.

Lemma plain_empty : plain "".
Proof. reflexivity. Qed.

Lemma replaceBackslashes_plain seg :
  plain seg -> Js.replaceBackslashes seg = seg.
Proof.
  unfold plain. induction seg as [|a s IH]; simpl; [reflexivity|].
  intros H. apply andb_prop in H. destruct H as [Ha Hs].
  unfold plainChar in Ha. apply andb_prop in Ha. destruct Ha as [_ Hb].
  apply negb_true_iff in Hb. rewrite Hb, (IH Hs). reflexivity.
Qed.

Lemma plain_app (s t : string) : plain s -> plain t -> plain (s ++ t).
Proof.
  unfold plain. induction s as [|a s IH]; simpl; [tauto|].
  intros H Ht. apply andb_prop in H. destruct H as [Ha Hs].
  rewrite Ha. simpl. auto.
Qed.

Lemma replaceBackslashes_app (s t : string) :
  Js.replaceBackslashes (s ++ t)
  = Js.replaceBackslashes s ++ Js.replaceBackslashes t.
Proof. induction s; simpl; congruence. Qed.

Lemma replaceBackslashes_absPath segs :
  Forall plain segs -> Js.replaceBackslashes (absPath segs) = absPath segs.
Proof.
  induction 1 as [|seg rest Hseg _ IH]; simpl; [reflexivity|].
  rewrite replaceBackslashes_app, IH, (replaceBackslashes_plain _ Hseg).
  reflexivity.
Qed.

Lemma split_nonempty sep s : Js.split sep s <> [].
Proof.
  destruct s as [|a s]; simpl; [discriminate|].
  destruct (Ascii.eqb a sep); [discriminate|].
  destruct (Js.split sep s); discriminate.
Qed.

Lemma split_plain_app seg t :
  plain seg ->
  Js.split "/"%char (seg ++ t)
  = match Js.split "/"%char t with
    | h :: tl => (seg ++ h) :: tl
    | [] => [seg]
    end.
Proof.
  unfold plain. induction seg as [|a s IH]; simpl; intros H.
  - destruct (Js.split "/"%char t) eqn:E; [|reflexivity].
    exfalso. exact (split_nonempty _ _ E).
  - apply andb_prop in H. destruct H as [Ha Hs].
    unfold plainChar in Ha. apply andb_prop in Ha. destruct Ha as [Hsl _].
    apply negb_true_iff in Hsl. rewrite Hsl, (IH Hs).
    destruct (Js.split "/"%char t); reflexivity.
Qed.

Lemma split_absPath segs :
  Forall plain segs -> Js.split "/"%char (absPath segs) = "" :: segs.
Proof.
  induction 1 as [|seg rest Hseg _ IH]; [reflexivity|].
  cbn [absPath]. change ("/" ++ seg ++ absPath rest)
    with (String "/"%char (seg ++ absPath rest)).
  cbn [Js.split]. rewrite Ascii.eqb_refl.
  rewrite (split_plain_app _ _ Hseg), IH, append_nil_r. reflexivity.
Qed.

(** On segments that are empty or clean, [normalizeString] keeps exactly
    the clean ones. *)
Lemma normalizeStep_clean allow res seg :
  cleanSegment seg = true ->
  NodePath.normalizeStep allow res seg = seg :: res.
Proof.
  unfold cleanSegment, NodePath.normalizeStep. intros H.
  repeat (apply andb_prop in H; destruct H as [H ?]).
  destruct seg as [|a s]; [discriminate|].
  repeat match goal with
         | [ E : negb _ = true |- _ ] => apply negb_true_iff in E; rewrite E
         end.
  reflexivity.
Qed.

Lemma fold_normalizeStep allow segs : forall acc,
  Forall emptyOrClean segs ->
  fold_left (NodePath.normalizeStep allow) segs acc
  = (rev (filter Js.truthy segs) ++ acc)%list.
Proof.
  induction segs as [|seg rest IH]; intros acc H; [reflexivity|].
  inversion H as [|? ? Hseg Hrest]; subst. cbn [fold_left filter].
  destruct Hseg as [-> | Hc].
  - cbn. apply IH; assumption.
  - rewrite (normalizeStep_clean _ _ _ Hc), (IH _ Hrest).
    assert (Js.truthy seg = true) as ->.
    { unfold cleanSegment in Hc.
      repeat (apply andb_prop in Hc; destruct Hc as [Hc ?]). assumption. }
    cbn [rev]. rewrite <- app_assoc. reflexivity.
Qed.

Lemma emptyOrClean_plain seg : emptyOrClean seg -> plain seg.
Proof. intros [-> | H]; [exact plain_empty | exact (cleanSegment_plain _ H)]. Qed.

Lemma join_absPath segs :
  segs <> [] -> "/" ++ Js.join "/" segs = absPath segs.
Proof.
  induction segs as [|a rest IH]; [congruence|]. intros _.
  destruct rest as [|b rest'].
  - cbn. rewrite append_nil_r. reflexivity.
  - change (absPath (a :: b :: rest'))
      with ("/" ++ a ++ absPath (b :: rest')).
    rewrite <- IH by discriminate. reflexivity.
Qed.

Lemma join_last_nonempty xs last :
  last <> "" -> Js.join "/" (xs ++ [last])%list <> "".
Proof.
  intros Hl. destruct xs as [|x xs']; [exact Hl|].
  cbn [app Js.join]. destruct (xs' ++ [last])%list eqn:E.
  - destruct xs'; discriminate.
  - destruct x; discriminate.
Qed.

Lemma endsWithChar_app c (s t : string) :
  t <> "" -> Js.endsWithChar c (s ++ t) = Js.endsWithChar c t.
Proof.
  intros Ht. induction s as [|a s IH]; [reflexivity|].
  cbn [append Js.endsWithChar]. destruct (s ++ t) eqn:E.
  - destruct s; [simpl in E; congruence | discriminate].
  - exact IH.
Qed.

Lemma endsWithChar_clean seg :
  cleanSegment seg = true -> Js.endsWithChar "/"%char seg = false.
Proof.
  intros H. pose proof (cleanSegment_plain _ H) as Hp.
  assert (seg <> "") as Hne.
  { intros ->. discriminate H. }
  clear H. unfold plain in Hp.
  induction seg as [|a s IH]; [congruence|].
  simpl in Hp. apply andb_prop in Hp. destruct Hp as [Ha Hs].
  destruct s as [|b s'].
  - cbn. unfold plainChar in Ha. apply andb_prop in Ha.
    destruct Ha as [Ha _]. apply negb_true_iff in Ha. exact Ha.
  - cbn [Js.endsWithChar]. apply IH; [exact Hs | discriminate].
Qed.

Lemma endsWithChar_absPath segs last :
  cleanSegment last = true ->
  Js.endsWithChar "/"%char (absPath (segs ++ [last])%list) = false.
Proof.
  intros H. rewrite absPath_app. cbn [absPath]. rewrite append_nil_r.
  assert (last <> "") as Hne by (intros ->; discriminate H).
  rewrite endsWithChar_app.
  - change ("/" ++ last) with (String "/"%char last).
    destruct last as [|a s]; [congruence|].
    cbn [Js.endsWithChar]. exact (endsWithChar_clean _ H).
  - discriminate.
Qed.

Lemma absPath_cons_shape segs :
  segs <> [] -> exists s, absPath segs = String "/"%char s.
Proof. destruct segs as [|a r]; [congruence|]. intros _. eexists. reflexivity. Qed.

(** [path.normalize] on a slash-separated absolute path whose segments are
    empty or clean and whose last segment is clean. *)
Lemma normalize_absPath segs last :
  Forall emptyOrClean segs -> cleanSegment last = true ->
  NodePath.normalize (absPath (segs ++ [last])%list)
  = absPath (filter Js.truthy segs ++ [last])%list.
Proof.
  intros Hs Hl.
  assert (Forall emptyOrClean (segs ++ [last])%list) as Hall.
  { apply Forall_app. split; [assumption|]. constructor; [right; assumption | constructor]. }
  assert (Js.truthy last = true) as Htl.
  { unfold cleanSegment in Hl.
    repeat (apply andb_prop in Hl; destruct Hl as [Hl ?]). assumption. }
  destruct (absPath_cons_shape (segs ++ [last])%list) as [s Es].
  { destruct segs; discriminate. }
  unfold NodePath.normalize. rewrite Es. rewrite <- Es.
  assert (NodePath.isAbsolute (absPath (segs ++ [last])%list) = true) as ->.
  { rewrite Es. reflexivity. }
  rewrite (endsWithChar_absPath _ _ Hl).
  unfold NodePath.normalizeString.
  rewrite split_absPath
    by (eapply Forall_impl; [exact emptyOrClean_plain | exact Hall]).
  cbn [fold_left]. change (NodePath.normalizeStep (negb true) [] "") with (@nil string).
  rewrite (fold_normalizeStep _ _ _ Hall), app_nil_r, rev_involutive.
  rewrite filter_app. cbn [filter]. rewrite Htl.
  pose proof (join_absPath (filter Js.truthy segs ++ [last])%list) as J.
  assert (filter Js.truthy segs ++ [last] <> [])%list as Hne
      by (destruct (filter Js.truthy segs); discriminate).
  specialize (J Hne).
  destruct (Js.join "/" (filter Js.truthy segs ++ [last])%list) eqn:EJ.
  - exfalso. apply (join_last_nonempty (filter Js.truthy segs) last); [|exact EJ].
    intros ->. discriminate Htl.
  - exact J.
Qed.

Lemma cleanSegment_truthy seg : cleanSegment seg = true -> Js.truthy seg = true.
Proof.
  unfold cleanSegment. intros H.
  repeat (apply andb_prop in H; destruct H as [H ?]). assumption.
Qed.

Lemma filter_truthy_clean segs :
  Forall (fun seg => cleanSegment seg = true) segs ->
  filter Js.truthy segs = segs.
Proof.
  induction 1 as [|seg rest H _ IH]; [reflexivity|].
  cbn [filter]. rewrite (cleanSegment_truthy _ H), IH. reflexivity.
Qed.

Lemma clean_emptyOrClean segs :
  Forall (fun seg => cleanSegment seg = true) segs -> Forall emptyOrClean segs.
Proof. apply Forall_impl. intros seg H. right. exact H. Qed.

Lemma truthy_absPath segs : segs <> [] -> Js.truthy (absPath segs) = true.
Proof. destruct segs; [congruence | reflexivity]. Qed.

Lemma normalize_clean segs :
  segs <> [] -> Forall (fun seg => cleanSegment seg = true) segs ->
  NodePath.normalize (absPath segs) = absPath segs.
Proof.
  intros Hne Hc. destruct (exists_last Hne) as [pre [last ->]].
  apply Forall_app in Hc. destruct Hc as [Hpre Hlast].
  inversion Hlast as [|? ? Hl _]; subst.
  rewrite (normalize_absPath _ _ (clean_emptyOrClean _ Hpre) Hl).
  rewrite (filter_truthy_clean _ Hpre). reflexivity.
Qed.

(** [normalizePath] leaves a path in normal form alone. *)
Lemma normalizePath_clean segs :
  segs <> [] -> Forall (fun seg => cleanSegment seg = true) segs ->
  normalizePath (absPath segs) = absPath segs.
Proof.
  intros Hne Hc. unfold normalizePath.
  assert (Forall plain segs) as Hp.
  { eapply Forall_impl; [exact cleanSegment_plain | exact Hc]. }
  rewrite (replaceBackslashes_absPath _ Hp), (normalize_clean _ Hne Hc).
  rewrite (replaceBackslashes_absPath _ Hp).
  destruct (exists_last Hne) as [pre [last ->]].
  apply Forall_app in Hc. destruct Hc as [_ Hlast].
  inversion Hlast as [|? ? Hl _]; subst.
  rewrite (endsWithChar_absPath _ _ Hl), andb_false_r. reflexivity.
Qed.

Lemma join_clean l rest :
  l <> [] ->
  Forall (fun seg => cleanSegment seg = true) l ->
  Forall (fun seg => cleanSegment seg = true) rest ->
  NodePath.join (absPath l) (absPath rest) = absPath (l ++ rest)%list.
Proof.
  intros Hl Hcl Hcr. unfold NodePath.join.
  destruct (absPath_cons_shape l Hl) as [sl El]. rewrite El, <- El.
  destruct rest as [|x rest'].
  - cbn [absPath]. rewrite app_nil_r. exact (normalize_clean _ Hl Hcl).
  - destruct (absPath_cons_shape (x :: rest')) as [sr Er]; [discriminate|].
    rewrite Er, <- Er.
    assert (absPath l ++ "/" ++ absPath (x :: rest')
            = absPath (l ++ "" :: x :: rest')%list) as ->.
    { rewrite absPath_app. reflexivity. }
    destruct (@exists_last _ (x :: rest')) as [pre [last Epre]];
      [discriminate|].
    rewrite Epre in *.
    apply Forall_app in Hcr. destruct Hcr as [Hpre Hlast].
    inversion Hlast as [|? ? Hlc _]; subst.
    replace (l ++ "" :: pre ++ [last])%list
      with ((l ++ "" :: pre) ++ [last])%list
      by (rewrite <- app_assoc; reflexivity).
    rewrite normalize_absPath; [| |exact Hlc].
    + rewrite filter_app. cbn [filter Js.truthy].
      rewrite (filter_truthy_clean _ Hcl), (filter_truthy_clean _ Hpre).
      rewrite <- app_assoc. reflexivity.
    + apply Forall_app. split; [exact (clean_emptyOrClean _ Hcl)|].
      constructor; [left; reflexivity | exact (clean_emptyOrClean _ Hpre)].
Qed.

(** On paths in normal form whose remote prefix ends at a segment border,
    [transform] replaces the remote prefix by the local one. *)
Lemma transform_clean remote local rest :
  remote <> [] -> local <> [] ->
  Forall (fun seg => cleanSegment seg = true) remote ->
  Forall (fun seg => cleanSegment seg = true) local ->
  Forall (fun seg => cleanSegment seg = true) rest ->
  transform (absPath (remote ++ rest)%list)
            {| enabled := true;
               remotePath := absPath remote;
               localPath := absPath local |}
  = absPath local ++ absPath rest.
Proof.
  intros Hr Hl Hcr Hcl Hcrest. unfold transform. cbn [enabled remotePath localPath negb].
  assert (remote ++ rest <> [])%list as Hrr by (destruct remote; [congruence|discriminate]).
  rewrite (truthy_absPath _ Hrr), (truthy_absPath _ Hr), (truthy_absPath _ Hl).
  cbn [negb orb].
  rewrite (normalizePath_clean _ Hr Hcr), (normalizePath_clean _ Hl Hcl).
  rewrite (normalizePath_clean _ Hrr)
    by (apply Forall_app; split; assumption).
  rewrite absPath_app, startsWith_app, substring_from_app. cbn [negb].
  rewrite (join_clean _ _ Hl Hcl Hcrest). apply absPath_app.
Qed.

Lemma truthy_false s : s = "" -> Js.truthy s = false.
Proof. intros ->. reflexivity. Qed.

Lemma truthy_true s : s <> "" -> Js.truthy s = true.
Proof. destruct s; [congruence | reflexivity]. Qed.

Lemma transform_unmatched p cfg :
  Js.startsWith (normalizePath p) (normalizePath (remotePath cfg)) = false ->
  transform p cfg = p.
Proof.
  intros H. unfold transform. rewrite H.
  destruct (negb (enabled cfg)); [reflexivity|].
  destruct (_ || _); reflexivity.
Qed.

(** C7 (as amended): [transform] returns the reported path unchanged when
    mapping is disabled, when the path or either prefix is empty, or when
    the normalised path does not start with the normalised remote prefix;
    when mapping is enabled, nothing is empty and the normalised path
    starts with the normalised remote prefix, it returns the normalised
    local prefix joined with the rest of the normalised path; for paths in
    normal form whose remote prefix ends at a segment border this is the
    path with the remote prefix replaced by the local prefix; and
    transform("/remote/a/b", remote "/remote", local "/local") is
    "/local/a/b". *)
Theorem transform_normalised_prefix :
  (forall p cfg, enabled cfg = false -> transform p cfg = p)
  /\ (forall p cfg,
        p = "" \/ remotePath cfg = "" \/ localPath cfg = "" ->
        transform p cfg = p)
  /\ (forall p cfg,
        Js.startsWith (normalizePath p) (normalizePath (remotePath cfg))
        = false ->
        transform p cfg = p)
  /\ (forall p cfg,
        enabled cfg = true ->
        p <> "" -> remotePath cfg <> "" -> localPath cfg <> "" ->
        Js.startsWith (normalizePath p) (normalizePath (remotePath cfg))
        = true ->
        transform p cfg
        = NodePath.join
            (normalizePath (localPath cfg))
            (Js.substring_from
               (String.length (normalizePath (remotePath cfg)))
               (normalizePath p)))
  /\ (forall remote local rest,
        remote <> [] -> local <> [] ->
        Forall (fun seg => cleanSegment seg = true) remote ->
        Forall (fun seg => cleanSegment seg = true) local ->
        Forall (fun seg => cleanSegment seg = true) rest ->
        transform (absPath (remote ++ rest)%list)
                  {| enabled := true;
                     remotePath := absPath remote;
                     localPath := absPath local |}
        = absPath local ++ absPath rest)
  /\ transform "/remote/a/b"
               {| enabled := true; remotePath := "/remote";
                  localPath := "/local" |}
     = "/local/a/b".
Proof.
  repeat split.
  - intros p cfg H. unfold transform. rewrite H. reflexivity.
  - intros p cfg H. unfold transform.
    destruct (negb (enabled cfg)); [reflexivity|].
    destruct H as [H | [H | H]]; rewrite (truthy_false _ H); cbn [negb orb];
      rewrite ?orb_true_r; reflexivity.
  - exact transform_unmatched.
  - intros p cfg He Hp Hr Hl Hs. unfold transform.
    rewrite He, (truthy_true _ Hp), (truthy_true _ Hr), (truthy_true _ Hl), Hs.
    reflexivity.
  - exact transform_clean.
Qed.

Lemma transform_normalised_prefix_witness :
  transform "/media/book" {| enabled := false; remotePath := "/remote";
                             localPath := "/local" |} = "/media/book"
  /\ transform "" {| enabled := true; remotePath := "/remote";
                     localPath := "/local" |} = ""
  /\ transform "/elsewhere/book" {| enabled := true; remotePath := "/remote";
                                    localPath := "/local" |}
     = "/elsewhere/book"
  /\ transform "/remote//Book.Name/" {| enabled := true;
                                        remotePath := "/remote/";
                                        localPath := "/local" |}
     = "/local/Book.Name"
  /\ transform "/data/torrents/Book/01.m4b"
               {| enabled := true; remotePath := "/data/torrents";
                  localPath := "/downloads" |}
     = "/downloads/Book/01.m4b".
Proof.
  destruct transform_normalised_prefix as (H1 & H2 & H3 & H4 & H5 & _).
  split; [apply H1; reflexivity|].
  split; [apply H2; left; reflexivity|].
  split; [apply H3; reflexivity|].
  split; [rewrite H4; [reflexivity | reflexivity | discriminate
                      | discriminate | discriminate | reflexivity]|].
  apply (H5 ["data"; "torrents"] ["downloads"] ["Book"; "01.m4b"]);
    try discriminate; repeat constructor.
Defined.

(** Where the code leaves the wording of the claim: a reported path that
    starts with the remote prefix is returned unchanged once
    normalisation resolves the prefix away, and a path written with
    backslashes, which does not start with the remote prefix, is
    rewritten all the same. *)
Lemma transform_not_as_specified :
  (Js.startsWith "/remote/../x" "/remote" = true
   /\ transform "/remote/../x" Scenario.mapping = "/remote/../x"
   /\ transform "/remote/../x" Scenario.mapping
      <> transform_as_specified "/remote/../x" Scenario.mapping)
  /\ (Js.startsWith "\remote\a" "/remote" = false
      /\ transform "\remote\a" Scenario.mapping = "/local/a"
      /\ transform "\remote\a" Scenario.mapping
         <> transform_as_specified "\remote\a" Scenario.mapping).
Proof.
  repeat split; try reflexivity; vm_compute; discriminate.
Qed.

End PathMapperProofs.

(** ** Logging *)

Module LoggerProofs.
Import Store Logger.

Ltac run_log :=
  unfold debug, info, warn, error, log, persistToDatabase, console_write,
    jobEvent_create, tryCatch, bind, modify, ret;
  cbn [fst snd].

(** What a call of [log] can do to the store: it returns, writes to the
    console at most, and appends at most one event, never at debug
    level. *)
Lemma log_effect E this level message metadata db :
  exists c evs,
    log E this level message metadata db
    = (Returned tt, with_job_events (with_console db c) evs)
    /\ (evs = job_events db
        \/ (hasJobId this = true /\ level <> Ldebug
            /\ evs = (job_events db
                      ++ [eventOf this level message metadata])%list)).
Proof.
  run_log.
  destruct (_ <? _)%Z.
  { exists (console db), (job_events db).
    split; [destruct db; reflexivity | left; reflexivity]. }
  destruct metadata as [[|k ks]|];
    (destruct (hasJobId this) eqn:Ej;
     [ destruct level; cbn [isDebug negb andb];
       [ | match goal with
           | [ |- context [jobEvent_create_fails E ?d ?e] ] =>
               destruct (jobEvent_create_fails E d e)
           end .. ] | cbn [andb] ]);
    cbv [with_console with_job_events requests configuration jobs
         job_events console now];
    try (eexists _, (job_events db); split; [reflexivity | left; reflexivity]);
    try (eexists _, _; split;
         [reflexivity
         | right; split; [reflexivity | split; [discriminate | reflexivity]]]).
Qed.

(** With an event store that rejects the insert, a call of [log] only
    writes to the console. *)
Lemma log_failing_store E this level message metadata db :
  (forall d ev, jobEvent_create_fails E d ev = true) ->
  exists c, log E this level message metadata db
            = (Returned tt, with_console db c).
Proof.
  intros Hfail. run_log.
  destruct (_ <? _)%Z.
  { exists (console db). destruct db; reflexivity. }
  destruct metadata as [[|k ks]|];
    (destruct (hasJobId this);
     [ destruct level; cbn [isDebug negb andb] | cbn [andb] ]);
    rewrite ?Hfail;
    cbv [with_console with_job_events requests configuration jobs
         job_events console now];
    eexists; reflexivity.
Qed.

Lemma log_returns E this level message metadata db :
  fst (log E this level message metadata db) = Returned tt.
Proof.
  destruct (log_effect E this level message metadata db) as (c & evs & -> & _).
  reflexivity.
Qed.

Lemma log_frame E this level message metadata db :
  let db' := snd (log E this level message metadata db) in
  requests db' = requests db /\ jobs db' = jobs db
  /\ configuration db' = configuration db /\ now db' = now db.
Proof.
  destruct (log_effect E this level message metadata db) as (c & evs & -> & _).
  repeat split.
Qed.

(** C10: a debug call never writes to the job-event store, also on a
    job-aware logger: it returns and leaves [job_events] unchanged; and
    whatever a [log] call at any level adds to the store is a single event
    of that level, which is info, warn or error. *)
Theorem debug_never_persisted :
  (forall E this message metadata db,
      fst (debug E this message metadata db) = Returned tt
      /\ job_events (snd (debug E this message metadata db))
         = job_events db)
  /\ (forall E this level message metadata db ev,
        In ev (job_events (snd (log E this level message metadata db))) ->
        In ev (job_events db)
        \/ (ev_level ev = level /\ level <> Ldebug)).
Proof.
  split.
  - intros E this message metadata db. unfold debug.
    destruct (log_effect E this Ldebug message metadata db)
      as (c & evs & -> & [-> | (_ & Hne & _)]).
    + split; reflexivity.
    + congruence.
  - intros E this level message metadata db ev.
    destruct (log_effect E this level message metadata db)
      as (c & evs & -> & [-> | (_ & Hne & ->)]); cbn [snd].
    + intros H. left. exact H.
    + intros H. cbn [with_job_events job_events] in H.
      apply in_app_or in H. destruct H as [H | [<- | []]].
      * left. exact H.
      * right. split; [reflexivity | exact Hne].
Qed.

Lemma debug_never_persisted_witness :
  job_events
    (snd (debug Scenario.workingStore Scenario.jobLogger "Found 15 results"
                None Scenario.dbPending))
  = []
  /\ (In {| ev_jobId := "job-1"; ev_level := Linfo;
            ev_context := "SearchIndexers"; ev_message := "Searching";
            ev_metadata := None |}
         (job_events Scenario.dbPending)
      \/ (Linfo = Linfo /\ Linfo <> Ldebug)).
Proof.
  destruct debug_never_persisted as (H1 & H2).
  split.
  - apply (H1 Scenario.workingStore Scenario.jobLogger "Found 15 results"
              None Scenario.dbPending).
  - apply (H2 Scenario.workingStore Scenario.jobLogger Linfo "Searching"
              None Scenario.dbPending
              {| ev_jobId := "job-1"; ev_level := Linfo;
                 ev_context := "SearchIndexers"; ev_message := "Searching";
                 ev_metadata := None |}).
    cbn. left. reflexivity.
Defined.

End LoggerProofs.

(** ** Rules for computations in [M] *)

Module TripleRules.
Import Store Triples.

Lemma returns_ret {A} (P : Db -> Prop) (a : A) (Q : A -> Db -> Prop) :
  (forall db, P db -> Q a db) -> returns P (ret a) Q.
Proof. intros H db Hp. exists a, db. split; [reflexivity | auto]. Qed.

Lemma returns_bind {A B} (P : Db -> Prop) (m : M A) (R : A -> Db -> Prop)
      (k : A -> M B) (Q : B -> Db -> Prop) :
  returns P m R -> (forall a, returns (R a) (k a) Q) ->
  returns P (bind m k) Q.
Proof.
  intros Hm Hk db Hp. destruct (Hm db Hp) as (a & db1 & E1 & Hr).
  destruct (Hk a db1 Hr) as (b & db2 & E2 & Hq).
  exists b, db2. unfold bind. rewrite E1. auto.
Qed.

Lemma throws_bind_l {A B} (P : Db -> Prop) (m : M A) e (Q : Db -> Prop)
      (k : A -> M B) :
  throws P m e Q -> throws P (bind m k) e Q.
Proof.
  intros Hm db Hp. destruct (Hm db Hp) as (db1 & E1 & Hq).
  exists db1. unfold bind. rewrite E1. auto.
Qed.

Lemma throws_bind_r {A B} (P : Db -> Prop) (m : M A) (R : A -> Db -> Prop)
      (k : A -> M B) e (Q : Db -> Prop) :
  returns P m R -> (forall a, throws (R a) (k a) e Q) ->
  throws P (bind m k) e Q.
Proof.
  intros Hm Hk db Hp. destruct (Hm db Hp) as (a & db1 & E1 & Hr).
  destruct (Hk a db1 Hr) as (db2 & E2 & Hq).
  exists db2. unfold bind. rewrite E1. auto.
Qed.

Lemma throws_throw {A} (P : Db -> Prop) e :
  throws (A := A) P (throw e) e P.
Proof. intros db Hp. exists db. split; [reflexivity | exact Hp]. Qed.

Lemma returns_tryCatch {A} (P : Db -> Prop) (body : M A) h Q :
  returns P body Q -> returns P (tryCatch body h) Q.
Proof.
  intros Hb db Hp. destruct (Hb db Hp) as (a & db1 & E1 & Hq).
  exists a, db1. unfold tryCatch. rewrite E1. auto.
Qed.

Lemma throws_tryCatch {A} (P : Db -> Prop) (body : M A) e R h e' Q :
  throws P body e R -> throws R (h e) e' Q ->
  throws P (tryCatch body h) e' Q.
Proof.
  intros Hb Hh db Hp. destruct (Hb db Hp) as (db1 & E1 & Hr).
  destruct (Hh db1 Hr) as (db2 & E2 & Hq).
  exists db2. unfold tryCatch. rewrite E1. auto.
Qed.

Lemma returns_weaken {A} (P P' : Db -> Prop) (m : M A)
      (Q Q' : A -> Db -> Prop) :
  returns P' m Q' -> (forall db, P db -> P' db) ->
  (forall a db, Q' a db -> Q a db) -> returns P m Q.
Proof.
  intros Hm Hp Hq db H. destruct (Hm db (Hp db H)) as (a & db1 & E & Hq').
  exists a, db1. auto.
Qed.

Lemma returns_liftOutcome {A} (P : Db -> Prop) (o : Outcome A) (a : A) :
  o = Returned a ->
  returns P (liftOutcome o) (fun x db => x = a /\ P db).
Proof. intros -> db Hp. exists a, db. repeat split; assumption. Qed.

Lemma throws_liftOutcome {A} (P : Db -> Prop) (o : Outcome A) e :
  o = Threw e -> throws P (liftOutcome o) e P.
Proof. intros -> db Hp. exists db. split; [reflexivity | assumption]. Qed.

(** Logging keeps the pipeline part of the store. *)
Lemma returns_log E this level message metadata rs js t :
  returns (pipeline rs js t)
          (Logger.log E this level message metadata)
          (fun _ => pipeline rs js t).
Proof.
  intros db (Hr & Hj & Ht).
  destruct (LoggerProofs.log_effect E this level message metadata db)
    as (c & evs & E1 & _).
  exists tt. eexists. split; [exact E1|].
  repeat split; assumption.
Qed.

Lemma existsb_id_updated rid rid' f rs :
  (forall r, id (f r) = id r) ->
  existsb_id rid' (updated rid f rs) = existsb_id rid' rs.
Proof.
  intros Hid. unfold existsb_id, updated.
  induction rs as [|r rest IH]; [reflexivity|].
  cbn [map existsb]. rewrite IH.
  destruct (String.eqb (id r) rid); [rewrite Hid|]; reflexivity.
Qed.

(** An update of an existing row: the table is rewritten at that id. *)
Lemma returns_request_update rid data f rs js t :
  existsb_id rid rs = true ->
  (forall db r, now db = t -> data db r = f r) ->
  returns (pipeline rs js t)
          (request_update rid data)
          (fun _ => pipeline (updated rid f rs) js t).
Proof.
  intros Hex Hdata db (Hr & Hj & Ht).
  exists tt. eexists. unfold request_update. rewrite Hr, Hex.
  split; [reflexivity|].
  repeat split; cbn; try assumption.
  unfold updated. apply map_ext. intros r.
  rewrite (Hdata db r Ht). reflexivity.
Qed.

Lemma pipeline_self db : pipeline (requests db) (jobs db) (now db) db.
Proof. repeat split. Qed.

Lemma returns_enqueue j rs js t :
  returns (pipeline rs js t) (enqueue j)
          (fun _ => pipeline rs (js ++ [j])%list t).
Proof.
  intros db (Hr & Hj & Ht). exists tt. eexists.
  split; [reflexivity|]. repeat split; cbn; congruence.
Qed.

End TripleRules.

(** ** Search Indexers processor *)

Module SearchIndexersProofs.
Import Store Triples TripleRules SearchIndexers.

Lemma returns_pure_pre {A} (phi : Prop) (P : Db -> Prop) (m : M A) Q :
  (phi -> returns P m Q) -> returns (fun db => phi /\ P db) m Q.
Proof. intros H db [Hphi Hp]. exact (H Hphi db Hp). Qed.

Lemma throws_pure_pre {A} (phi : Prop) (P : Db -> Prop) (m : M A) e Q :
  (phi -> throws P m e Q) -> throws (fun db => phi /\ P db) m e Q.
Proof. intros H db [Hphi Hp]. exact (H Hphi db Hp). Qed.

Lemma mapM_pure {A B} (f : A -> M B) (g : A -> B) xs db :
  (forall x, In x xs -> f x db = (Returned (g x), db)) ->
  mapM f xs db = (Returned (map g xs), db).
Proof.
  induction xs as [|x rest IH]; intros Hf; [reflexivity|].
  cbn [mapM map]. unfold bind. rewrite (Hf x (or_introl eq_refl)).
  rewrite IH by (intros y Hy; apply Hf; right; exact Hy).
  reflexivity.
Qed.

Lemma returns_mapM_pure {A B} (P : Db -> Prop) (f : A -> M B) (g : A -> B) xs :
  (forall x db, In x xs -> f x db = (Returned (g x), db)) ->
  returns P (mapM f xs) (fun ys db => ys = map g xs /\ P db).
Proof.
  intros Hf db Hp. exists (map g xs), db.
  rewrite (mapM_pure f g xs db (fun x Hx => Hf x db Hx)).
  repeat split. exact Hp.
Qed.

Lemma property_nonNull name i :
  isNull i = false ->
  exists v, property name i = Returned v.
Proof. destruct i; cbn; intros H; try discriminate; eexists; reflexivity. Qed.

Lemma returns_ids (P : Db -> Prop) items :
  forallb (fun i => negb (isNull i)) items = true ->
  returns P
    (arrayMap (JArr items) (fun indexer => liftOutcome (property "id" indexer)))
    (fun ids db => ids = map idOf items /\ P db).
Proof.
  intros H. cbn [arrayMap]. apply returns_mapM_pure.
  intros i db Hi. rewrite forallb_forall in H.
  specialize (H i Hi). apply negb_true_iff in H.
  unfold liftOutcome, idOf.
  destruct (property_nonNull "id" i H) as [v ->]. reflexivity.
Qed.

Lemma returns_priorities (P : Db -> Prop) items :
  forallb (fun i => negb (isNull i)) items = true ->
  returns P
    (arrayMap (JArr items)
       (fun indexer =>
          bind (liftOutcome (property "id" indexer)) (fun i =>
          bind (liftOutcome (property "priority" indexer)) (fun p =>
          ret (i, nullish p (JNum 10))))))
    (fun ps db => ps = map priorityOf items /\ P db).
Proof.
  intros H. cbn [arrayMap]. apply returns_mapM_pure.
  intros i db Hi. rewrite forallb_forall in H.
  specialize (H i Hi). apply negb_true_iff in H.
  unfold liftOutcome, priorityOf, idOf, bind, ret.
  destruct (property_nonNull "id" i H) as [v ->].
  destruct (property_nonNull "priority" i H) as [w ->]. reflexivity.
Qed.

Ltac unfold_loggers :=
  unfold SearchIndexers.info, SearchIndexers.warn, SearchIndexers.error,
    Logger.info, Logger.warn, Logger.error.

Ltac step_log :=
  eapply returns_bind; [unfold_loggers; apply returns_log | intros []].

Lemma flags_match E flagStr :
  match flagStr with
  | Some (String _ _ as fstr) => liftOutcome (JSON_parse E fstr)
  | _ => ret (JArr [])
  end = liftOutcome (parsedFlags E flagStr).
Proof. destruct flagStr as [[|]|]; reflexivity. Qed.

Lemma searchAndSelect_awaiting E lg payload items flags results msg rs js t :
  existsb_id (requestId payload) rs = true ->
  searchReturns E payload items flags results ->
  (results = [] /\ msg = noTorrents)
  \/ (results <> []
      /\ filteredResults
           (rankTorrents E results
              (ref_title (audiobook payload), ref_author (audiobook payload))
              (map priorityOf items) flags) = []
      /\ msg = noQuality) ->
  returns (pipeline rs js t)
    (searchAndSelect E lg payload)
    (fun res db =>
       success res = false
       /\ pipeline
            (updated (requestId payload) (awaiting msg t)
               (updated (requestId payload) (searching t) rs)) js t db).
Proof.
  intros Hex ((str & flagStr & Hcfg & Htr & Hparse & Hne & Hnn & Hfl & Hpf)
              & Hsvc & Hsearch) Hcase.
  unfold searchAndSelect.
  eapply returns_bind.
  { apply (returns_request_update _ _ (searching t)); [exact Hex|].
    intros db r Hnow. unfold searching. rewrite Hnow. reflexivity. }
  intros [].
  eapply returns_bind; [apply returns_liftOutcome; exact Hcfg|].
  intros x. apply returns_pure_pre. intros ->.
  destruct str as [|c0 str0]; [discriminate Htr|].
  eapply returns_bind; [apply returns_liftOutcome; exact Hparse|].
  intros x. apply returns_pure_pre. intros ->.
  eapply returns_bind; [apply returns_ids; exact Hnn|].
  intros ids. apply returns_pure_pre. intros ->.
  destruct items as [|i0 items0]; [congruence|].
  cbn [map].
  eapply returns_bind; [apply returns_priorities; exact Hnn|].
  intros ps. apply returns_pure_pre. intros ->.
  eapply returns_bind; [apply returns_liftOutcome; exact Hfl|].
  intros x. apply returns_pure_pre. intros ->.
  rewrite flags_match.
  eapply returns_bind; [apply returns_liftOutcome; exact Hpf|].
  intros x. apply returns_pure_pre. intros ->.
  step_log.
  eapply returns_bind; [apply returns_liftOutcome; exact Hsvc|].
  intros x. apply returns_pure_pre. intros ->.
  step_log.
  eapply returns_bind; [apply returns_liftOutcome; exact Hsearch|].
  intros x. apply returns_pure_pre. intros ->.
  step_log.
  destruct Hcase as [[-> ->] | (Hres & Hfilt & ->)].
  - step_log.
    eapply returns_bind.
    { apply (returns_request_update _ _ (awaiting noTorrents t)).
      - rewrite existsb_id_updated; [exact Hex | reflexivity].
      - intros db r Hnow. unfold awaiting, noTorrents. rewrite Hnow.
        reflexivity. }
    intros []. apply returns_ret. intros db H. split; [reflexivity | exact H].
  - destruct results as [|r0 results0]; [congruence|].
    cbv zeta. rewrite Hfilt.
    step_log.
    eapply returns_bind.
    { destruct (_ <? _)%nat; [unfold_loggers; apply returns_log|].
      apply returns_ret. intros db H. exact H. }
    intros [].
    step_log.
    eapply returns_bind.
    { apply (returns_request_update _ _ (awaiting noQuality t)).
      - rewrite existsb_id_updated; [exact Hex | reflexivity].
      - intros db r Hnow. unfold awaiting, noQuality. rewrite Hnow.
        reflexivity. }
    intros []. apply returns_ret. intros db H. split; [reflexivity | exact H].
Qed.

Lemma searchAndSelect_configurationError E lg payload msg rs js t :
  existsb_id (requestId payload) rs = true ->
  configurationError E msg ->
  throws (pipeline rs js t)
    (searchAndSelect E lg payload)
    (Error msg)
    (pipeline (updated (requestId payload) (searching t) rs) js t).
Proof.
  intros Hex Hcfg. unfold searchAndSelect.
  eapply throws_bind_r.
  { apply (returns_request_update _ _ (searching t)); [exact Hex|].
    intros db r Hnow. unfold searching. rewrite Hnow. reflexivity. }
  intros [].
  destruct Hcfg as [(v & Hget & Hv & ->) | (str & Hget & Htr & Hparse & ->)].
  - eapply throws_bind_r; [apply returns_liftOutcome; exact Hget|].
    intros x. apply throws_pure_pre. intros ->.
    destruct v as [[|c0 s0]|]; try contradiction; apply throws_throw.
  - eapply throws_bind_r; [apply returns_liftOutcome; exact Hget|].
    intros x. apply throws_pure_pre. intros ->.
    destruct str as [|c0 str0]; [discriminate Htr|].
    eapply throws_bind_r; [apply returns_liftOutcome; exact Hparse|].
    intros x. apply throws_pure_pre. intros ->.
    eapply throws_bind_r.
    { apply (returns_ids _ []). reflexivity. }
    intros ids. apply throws_pure_pre. intros ->.
    apply throws_throw.
Qed.

Lemma In_updated rid f rs r :
  (forall x, id (f x) = id x) ->
  In r (updated rid f rs) -> id r = rid -> exists r0, In r0 rs /\ r = f r0.
Proof.
  intros Hid Hin Hr. unfold updated in Hin. apply in_map_iff in Hin.
  destruct Hin as (r0 & E & Hin). exists r0. split; [exact Hin|].
  destruct (String.eqb (id r0) rid) eqn:Eq; [congruence|].
  subst r. apply String.eqb_neq in Eq. contradiction.
Qed.

(** Running the processor from a store whose pipeline part is known. *)
Lemma processSearchIndexers_awaiting E payload items flags results msg rs js t :
  existsb_id (requestId payload) rs = true ->
  searchReturns E payload items flags results ->
  (results = [] /\ msg = noTorrents)
  \/ (results <> []
      /\ filteredResults
           (rankTorrents E results
              (ref_title (audiobook payload), ref_author (audiobook payload))
              (map priorityOf items) flags) = []
      /\ msg = noQuality) ->
  returns (pipeline rs js t)
    (processSearchIndexers E payload)
    (fun res db =>
       success res = false
       /\ pipeline
            (updated (requestId payload) (awaiting msg t)
               (updated (requestId payload) (searching t) rs)) js t db).
Proof.
  intros Hex Hs Hcase. unfold processSearchIndexers.
  step_log. apply returns_tryCatch.
  exact (searchAndSelect_awaiting _ _ _ _ _ _ _ _ _ _ Hex Hs Hcase).
Qed.

Lemma processSearchIndexers_configurationError E payload msg rs js t :
  existsb_id (requestId payload) rs = true ->
  configurationError E msg ->
  throws (pipeline rs js t)
    (processSearchIndexers E payload)
    (Error msg)
    (pipeline
       (updated (requestId payload) (failedWith msg t)
          (updated (requestId payload) (searching t) rs)) js t).
Proof.
  intros Hex Hcfg. unfold processSearchIndexers.
  eapply throws_bind_r; [unfold_loggers; apply returns_log|].
  intros [].
  eapply throws_tryCatch.
  - exact (searchAndSelect_configurationError _ _ _ _ _ _ _ Hex Hcfg).
  - eapply throws_bind_r; [unfold_loggers; apply returns_log|].
    intros [].
    eapply throws_bind_r.
    { apply (returns_request_update _ _ (failedWith msg t)).
      - rewrite existsb_id_updated; [exact Hex | reflexivity].
      - intros db r Hnow. unfold failedWith. rewrite Hnow. reflexivity. }
    intros []. apply throws_throw.
Qed.

(** *** What the processor may enqueue *)

Lemma nothing_ret {A} (a : A) : enqueuesNothing (ret a).
Proof. intros db. reflexivity. Qed.

Lemma nothing_throw {A} e : enqueuesNothing (@throw A e).
Proof. intros db. reflexivity. Qed.

Lemma nothing_liftOutcome {A} (o : Outcome A) : enqueuesNothing (liftOutcome o).
Proof. intros db. reflexivity. Qed.

Lemma nothing_log L lg lv m md : enqueuesNothing (Logger.log L lg lv m md).
Proof.
  intros db. destruct (LoggerProofs.log_frame L lg lv m md db) as (_ & H & _).
  exact H.
Qed.

Lemma nothing_request_update rid data :
  enqueuesNothing (request_update rid data).
Proof.
  intros db. unfold request_update.
  destruct (existsb_id rid (requests db)); reflexivity.
Qed.

Lemma nothing_bind {A B} (m : M A) (k : A -> M B) :
  enqueuesNothing m -> (forall a, enqueuesNothing (k a)) ->
  enqueuesNothing (bind m k).
Proof.
  intros Hm Hk db. unfold bind. specialize (Hm db).
  destruct (m db) as [[a|e] db1]; cbn [snd] in *; [|exact Hm].
  rewrite (Hk a db1). exact Hm.
Qed.

Lemma nothing_forEach {A} (f : A -> M unit) xs :
  (forall x, enqueuesNothing (f x)) -> enqueuesNothing (forEach f xs).
Proof.
  intros Hf. induction xs as [|x rest IH]; cbn [forEach].
  - apply nothing_ret.
  - apply nothing_bind; [apply Hf | intros _; exact IH].
Qed.

Lemma nothing_mapM {A B} (f : A -> M B) xs :
  (forall x, enqueuesNothing (f x)) -> enqueuesNothing (mapM f xs).
Proof.
  intros Hf. induction xs as [|x rest IH]; cbn [mapM].
  - apply nothing_ret.
  - apply nothing_bind; [apply Hf | intros y].
    apply nothing_bind; [exact IH | intros ys; apply nothing_ret].
Qed.

Lemma nothing_arrayMap {B} v (f : Json -> M B) :
  (forall x, enqueuesNothing (f x)) -> enqueuesNothing (arrayMap v f).
Proof.
  intros Hf. destruct v; cbn [arrayMap]; try apply nothing_throw.
  apply nothing_mapM. exact Hf.
Qed.

Ltac nothing_step :=
  first
    [ apply nothing_ret
    | apply nothing_throw
    | apply nothing_log
    | apply nothing_liftOutcome
    | apply nothing_request_update
    | apply nothing_forEach; intros ?
    | apply nothing_arrayMap; intros ?
    | apply nothing_bind; [|intros ?]
    | match goal with
      | [ |- enqueuesNothing (match ?x with _ => _ end) ] => destruct x
      end ].

Lemma nothing_logResults E lg count results : forall i,
  enqueuesNothing (logResults E lg count i results).
Proof.
  induction results as [|r rest IH]; intros i; cbn [logResults].
  - apply nothing_ret.
  - apply nothing_bind; [|intros _; apply IH].
    unfold logResult. unfold_loggers. repeat nothing_step.
Qed.

Lemma atMost_nothing {A} ok (m : M A) :
  enqueuesNothing m -> enqueuesAtMost ok m.
Proof. intros H db. left. apply H. Qed.

Lemma atMost_bind {A B} ok (m : M A) (k : A -> M B) :
  enqueuesNothing m -> (forall a, enqueuesAtMost ok (k a)) ->
  enqueuesAtMost ok (bind m k).
Proof.
  intros Hm Hk db. unfold bind. specialize (Hm db).
  destruct (m db) as [[a|e] db1]; cbn [snd] in *; [|left; exact Hm].
  rewrite <- Hm. apply Hk.
Qed.

Lemma atMost_enqueue {A} (ok : QueuedJob -> Prop) j (k : M A) :
  ok j -> enqueuesNothing k -> enqueuesAtMost ok (bind (enqueue j) (fun _ => k)).
Proof.
  intros Hj Hk db. right. exists j. split; [exact Hj|].
  unfold bind, enqueue, modify. rewrite Hk. reflexivity.
Qed.

Lemma atMost_tryCatch {A} ok (body : M A) h :
  enqueuesAtMost ok body -> (forall e, enqueuesNothing (h e)) ->
  enqueuesAtMost ok (tryCatch body h).
Proof.
  intros Hb Hh db. unfold tryCatch. specialize (Hb db).
  destruct (body db) as [[a|e] db1]; cbn [snd] in *; [exact Hb|].
  rewrite (Hh e db1). exact Hb.
Qed.

Lemma head_qualifies rs best rest :
  filteredResults rs = best :: rest -> qualifies best = true.
Proof.
  intros H. assert (In best (filteredResults rs)) as Hin
      by (rewrite H; left; reflexivity).
  unfold filteredResults in Hin. apply filter_In in Hin. tauto.
Qed.

(** Whatever happens, the processor enqueues at most one job, a download
    of a result that passed the dual threshold. *)
Lemma processSearchIndexers_selects E payload :
  enqueuesAtMost selectable (processSearchIndexers E payload).
Proof.
  unfold processSearchIndexers.
  apply atMost_bind; [unfold_loggers; apply nothing_log | intros _].
  apply atMost_tryCatch;
    [|intros e; unfold_loggers; repeat nothing_step].
  unfold searchAndSelect. unfold_loggers.
  repeat first
    [ apply atMost_bind;
      [ solve [ apply nothing_request_update | apply nothing_liftOutcome
              | apply nothing_log | apply nothing_logResults
              | apply nothing_arrayMap; intros ?; repeat nothing_step
              | repeat nothing_step ]
      | intros ? ]
    | match goal with
      | [ |- enqueuesAtMost _ (match filteredResults ?rs with _ => _ end) ] =>
          destruct (filteredResults rs) eqn:?
      | [ |- enqueuesAtMost _ (match ?x with _ => _ end) ] => destruct x
      end
    | apply atMost_enqueue;
      [ cbn [selectable]; eapply head_qualifies; eassumption
      | apply nothing_ret ]
    | apply atMost_nothing; solve [repeat nothing_step] ].
Qed.

(** C2: a ranked candidate is in the qualifying set exactly when it was
    ranked and both its base score and its final score are at least 50;
    a candidate with base score 80 and bonus points -40, whose final
    score is their sum, is not in the qualifying set; and the only job the
    processor ever enqueues is a download of a candidate with both scores
    at least 50. *)
Theorem dual_threshold_filter :
  (forall rankedResults r,
      In r (filteredResults rankedResults)
      <-> In r rankedResults /\ 50 <= score r /\ 50 <= finalScore r)
  /\ (forall rankedResults r,
        score r == 80 -> bonusPoints r == -40 ->
        finalScore r == score r + bonusPoints r ->
        ~ In r (filteredResults rankedResults))
  /\ (forall E payload db,
        jobs (snd (processSearchIndexers E payload db)) = jobs db
        \/ exists rid book r,
             50 <= score r /\ 50 <= finalScore r
             /\ jobs (snd (processSearchIndexers E payload db))
                = (jobs db ++ [DownloadJob rid book r])%list).
Proof.
  assert (forall rankedResults r,
             In r (filteredResults rankedResults)
             <-> In r rankedResults /\ 50 <= score r /\ 50 <= finalScore r)
    as Hiff.
  { intros rs r. unfold filteredResults, qualifies.
    rewrite filter_In, andb_true_iff, !Qle_bool_iff. tauto. }
  split; [exact Hiff|]. split.
  - intros rs r Hs Hb Hf Hin. apply Hiff in Hin.
    destruct Hin as (_ & _ & Hfinal).
    rewrite Hf, Hs, Hb in Hfinal. revert Hfinal. apply Qlt_not_le.
    reflexivity.
  - intros E payload db.
    destruct (processSearchIndexers_selects E payload db)
      as [H | (j & Hj & H)]; [left; exact H|].
    destruct j as [? ?|rid book r]; [contradiction|].
    right. exists rid, book, r. cbn [selectable] in Hj.
    unfold qualifies in Hj. apply andb_true_iff in Hj.
    rewrite !Qle_bool_iff in Hj. tauto.
Qed.

Lemma dual_threshold_filter_witness :
  ~ In Scenario.penalised (filteredResults [Scenario.penalised]).
Proof.
  apply (proj1 (proj2 dual_threshold_filter)
               [Scenario.penalised] Scenario.penalised);
    reflexivity.
Defined.

(** C3: when the execution reaches the search (the Request row exists, so
    the first update succeeds; the indexer configuration is usable and the
    indexer service available) and the search returns no candidate, or
    none of the ranked candidates passes the dual threshold, the processor
    returns normally with [success = false], the Request is left in
    [awaiting_search] with its [errorMessage] set, nothing is enqueued, and
    the job queue boundary completes the job without consuming an
    attempt. *)
Theorem no_candidates_awaiting_search :
  forall E payload db items flags results msg,
    existsb_id (requestId payload) (requests db) = true ->
    searchReturns E payload items flags results ->
    (results = [] /\ msg = noTorrents)
    \/ (results <> []
        /\ filteredResults
             (rankTorrents E results
                (ref_title (audiobook payload),
                 ref_author (audiobook payload))
                (map priorityOf items) flags) = []
        /\ msg = noQuality) ->
    exists res db',
      processSearchIndexers E payload db = (Returned res, db')
      /\ success res = false
      /\ existsb_id (requestId payload) (requests db') = true
      /\ (forall r, In r (requests db') -> id r = requestId payload ->
                    status r = "awaiting_search"
                    /\ errorMessage r = Some msg)
      /\ jobs db' = jobs db
      /\ (forall j,
            JobQueue.job_status
              (JobQueue.settle j showResult (@Returned Result res))
            = JobQueue.completed
            /\ JobQueue.attempts
                 (JobQueue.settle j showResult (@Returned Result res))
               = JobQueue.attempts j).
Proof.
  intros E payload db items flags results msg Hex Hs Hcase.
  destruct (processSearchIndexers_awaiting E payload items flags results msg
              _ (jobs db) (now db) Hex Hs Hcase db (pipeline_self db))
    as (res & db' & Erun & Hsucc & Hreq & Hjobs & _).
  exists res, db'. split; [exact Erun|]. split; [exact Hsucc|].
  split; [|split; [|split; [exact Hjobs|]]].
  - rewrite Hreq, !existsb_id_updated; [exact Hex | reflexivity..].
  - intros r Hin Hid. rewrite Hreq in Hin.
    destruct (In_updated _ (awaiting msg (now db)) _ _
                         (fun x => eq_refl) Hin Hid) as (r0 & _ & ->).
    split; reflexivity.
  - intros j. split; reflexivity.
Qed.

Lemma no_candidates_awaiting_search_witness :
  exists res db',
    processSearchIndexers (Scenario.envSearch [] []) Scenario.payload
      Scenario.dbPending = (Returned res, db')
    /\ success res = false
    /\ existsb_id "req-1" (requests db') = true
    /\ (forall r, In r (requests db') -> id r = "req-1" ->
                  status r = "awaiting_search"
                  /\ errorMessage r = Some noTorrents)
    /\ jobs db' = []
    /\ (forall j,
          JobQueue.job_status
            (JobQueue.settle j showResult (@Returned Result res))
          = JobQueue.completed
          /\ JobQueue.attempts
               (JobQueue.settle j showResult (@Returned Result res))
             = JobQueue.attempts j).
Proof.
  apply (no_candidates_awaiting_search
           (Scenario.envSearch [] []) Scenario.payload Scenario.dbPending
           [SearchIndexers.JObj [("id", JNum 1); ("priority", JNum 10)]]
           (JArr []) [] noTorrents).
  - reflexivity.
  - split; [|split; reflexivity].
    exists "[{id:1,priority:10}]", None.
    repeat split; try reflexivity. discriminate.
  - left. split; reflexivity.
Defined.

(** C4 (as amended): when a configuration error is detected (no indexers
    configured, or none enabled), the processor marks the Request
    [failed] with the descriptive message as its [errorMessage], enqueues
    nothing, and throws the error again to its caller; at the job queue
    boundary the throw is routed to [fail], which counts an attempt. *)
Theorem configuration_error_fails_request :
  forall E payload db msg,
    existsb_id (requestId payload) (requests db) = true ->
    configurationError E msg ->
    exists db',
      processSearchIndexers E payload db = (Threw (Error msg), db')
      /\ (msg = noIndexersConfigured \/ msg = noIndexersEnabled)
      /\ existsb_id (requestId payload) (requests db') = true
      /\ (forall r, In r (requests db') -> id r = requestId payload ->
                    status r = "failed" /\ errorMessage r = Some msg)
      /\ jobs db' = jobs db
      /\ (forall j,
            JobQueue.attempts
              (JobQueue.settle j showResult (@Threw Result (Error msg)))
            = S (JobQueue.attempts j)).
Proof.
  intros E payload db msg Hex Hcfg.
  destruct (processSearchIndexers_configurationError E payload msg
              _ (jobs db) (now db) Hex Hcfg db (pipeline_self db))
    as (db' & Erun & Hreq & Hjobs & _).
  exists db'. split; [exact Erun|].
  split; [destruct Hcfg as [(v & _ & _ & ->) | (s & _ & _ & _ & ->)]; auto|].
  split; [|split; [|split; [exact Hjobs|]]].
  - rewrite Hreq, !existsb_id_updated; [exact Hex | reflexivity..].
  - intros r Hin Hid. rewrite Hreq in Hin.
    destruct (In_updated _ (failedWith msg (now db)) _ _
                         (fun x => eq_refl) Hin Hid) as (r0 & _ & ->).
    split; reflexivity.
  - intros j. unfold JobQueue.settle, JobQueue.fail.
    destruct (_ <? _)%nat; reflexivity.
Qed.

Lemma configuration_error_fails_request_witness :
  exists db',
    processSearchIndexers Scenario.envNoConfig Scenario.payload
      Scenario.dbPending = (Threw (Error noIndexersConfigured), db')
    /\ (noIndexersConfigured = noIndexersConfigured
        \/ noIndexersConfigured = noIndexersEnabled)
    /\ existsb_id "req-1" (requests db') = true
    /\ (forall r, In r (requests db') -> id r = "req-1" ->
                  status r = "failed"
                  /\ errorMessage r = Some noIndexersConfigured)
    /\ jobs db' = []
    /\ (forall j,
          JobQueue.attempts
            (JobQueue.settle j showResult
               (@Threw Result (Error noIndexersConfigured)))
          = S (JobQueue.attempts j)).
Proof.
  apply (configuration_error_fails_request
           Scenario.envNoConfig Scenario.payload Scenario.dbPending
           noIndexersConfigured).
  - reflexivity.
  - left. exists None. repeat split.
Defined.

(** The configuration error does reach the job queue: with no indexers
    configured the processor throws, and the first attempt of the job is
    consumed. *)
Lemma configuration_error_is_rethrown :
  fst (processSearchIndexers Scenario.envNoConfig Scenario.payload
         Scenario.dbPending)
  = Threw (Error noIndexersConfigured)
  /\ isReturned
       (fst (processSearchIndexers Scenario.envNoConfig Scenario.payload
               Scenario.dbPending)) = false
  /\ JobQueue.attempts Scenario.job0 = 0%nat
  /\ JobQueue.attempts
       (JobQueue.settle Scenario.job0 showResult
          (fst (processSearchIndexers Scenario.envNoConfig Scenario.payload
                  Scenario.dbPending)))
     = 1%nat.
Proof. vm_compute. repeat split. Qed.

End SearchIndexersProofs.

(** ** The event store does not steer the pipeline *)

Module Noninterference.
Import Store Triples TripleRules SearchIndexers.

Lemma alike_ret {A} (a : A) : alike (ret a) (ret a).
Proof. intros d1 d2 H. split; [reflexivity | exact H]. Qed.

Lemma alike_throw {A} e : alike (@throw A e) (throw e).
Proof. intros d1 d2 H. split; [reflexivity | exact H]. Qed.

Lemma alike_liftOutcome {A} (o : Outcome A) :
  alike (liftOutcome o) (liftOutcome o).
Proof. intros d1 d2 H. split; [reflexivity | exact H]. Qed.

Lemma alike_bind {A B} (m1 m2 : M A) (k1 k2 : A -> M B) :
  alike m1 m2 -> (forall a, alike (k1 a) (k2 a)) ->
  alike (bind m1 k1) (bind m2 k2).
Proof.
  intros Hm Hk d1 d2 H. unfold bind.
  destruct (Hm d1 d2 H) as [Ho Ha].
  destruct (m1 d1) as [[a1|e1] d1'], (m2 d2) as [[a2|e2] d2'];
    cbn [fst snd] in *; try discriminate.
  - inversion Ho; subst. apply Hk. exact Ha.
  - inversion Ho; subst. split; [reflexivity | exact Ha].
Qed.

Lemma alike_tryCatch {A} (b1 b2 : M A) (h1 h2 : Thrown -> M A) :
  alike b1 b2 -> (forall e, alike (h1 e) (h2 e)) ->
  alike (tryCatch b1 h1) (tryCatch b2 h2).
Proof.
  intros Hb Hh d1 d2 H. unfold tryCatch.
  destruct (Hb d1 d2 H) as [Ho Ha].
  destruct (b1 d1) as [[a1|e1] d1'], (b2 d2) as [[a2|e2] d2'];
    cbn [fst snd] in *; try discriminate.
  - split; [exact Ho | exact Ha].
  - inversion Ho; subst. apply Hh. exact Ha.
Qed.

(** Two [log] calls, whatever their event stores, loggers and messages. *)
Lemma alike_log L1 L2 lg1 lg2 lv1 lv2 m1 m2 md1 md2 :
  alike (Logger.log L1 lg1 lv1 m1 md1) (Logger.log L2 lg2 lv2 m2 md2).
Proof.
  intros d1 d2 (Hr & Hc & Hj & Hn).
  destruct (LoggerProofs.log_effect L1 lg1 lv1 m1 md1 d1) as (c1 & e1 & -> & _).
  destruct (LoggerProofs.log_effect L2 lg2 lv2 m2 md2 d2) as (c2 & e2 & -> & _).
  split; [reflexivity|]. repeat split; assumption.
Qed.

Lemma alike_request_update rid data :
  (forall d1 d2 r, agree d1 d2 -> data d1 r = data d2 r) ->
  alike (request_update rid data) (request_update rid data).
Proof.
  intros Hdata d1 d2 H. pose proof H as (Hr & Hc & Hj & Hn).
  unfold request_update. rewrite Hr.
  destruct (existsb_id rid (requests d2)).
  - split; [reflexivity|]. repeat split; cbn; try assumption.
    apply map_ext. intros r. rewrite (Hdata d1 d2 r H). reflexivity.
  - split; [reflexivity | exact H].
Qed.

Lemma alike_enqueue j : alike (enqueue j) (enqueue j).
Proof.
  intros d1 d2 (Hr & Hc & Hj & Hn). split; [reflexivity|].
  repeat split; cbn; congruence.
Qed.

Lemma alike_forEach {A} (f1 f2 : A -> M unit) xs :
  (forall x, alike (f1 x) (f2 x)) -> alike (forEach f1 xs) (forEach f2 xs).
Proof.
  intros Hf. induction xs as [|x rest IH]; cbn [forEach].
  - apply alike_ret.
  - apply alike_bind; [apply Hf | intros _; exact IH].
Qed.

Lemma alike_mapM {A B} (f1 f2 : A -> M B) xs :
  (forall x, alike (f1 x) (f2 x)) -> alike (mapM f1 xs) (mapM f2 xs).
Proof.
  intros Hf. induction xs as [|x rest IH]; cbn [mapM].
  - apply alike_ret.
  - apply alike_bind; [apply Hf | intros y].
    apply alike_bind; [exact IH | intros ys; apply alike_ret].
Qed.

Lemma alike_arrayMap {B} v (f1 f2 : Json -> M B) :
  (forall x, alike (f1 x) (f2 x)) -> alike (arrayMap v f1) (arrayMap v f2).
Proof.
  intros Hf. destruct v; cbn [arrayMap];
    try apply alike_throw. apply alike_mapM. exact Hf.
Qed.

Ltac alike_step :=
  first
    [ apply alike_ret
    | apply alike_throw
    | apply alike_log
    | apply alike_liftOutcome
    | apply alike_enqueue
    | apply alike_request_update;
      intros ? ? ? (_ & _ & _ & Hnow); rewrite Hnow; reflexivity
    | apply alike_forEach; intros ?
    | apply alike_arrayMap; intros ?
    | apply alike_tryCatch; [|intros ?]
    | apply alike_bind; [|intros ?]
    | match goal with
      | [ |- alike (match ?x with _ => _ end) (match ?x with _ => _ end) ] =>
          destruct x
      end ].

Ltac unfold_logging :=
  unfold SearchIndexers.info, SearchIndexers.warn, SearchIndexers.error,
    Logger.info, Logger.warn, Logger.error.

Lemma alike_logResults E L lg count results : forall i,
  alike (logResults E lg count i results)
        (logResults (withLogEnv E L) lg count i results).
Proof.
  induction results as [|r rest IH]; intros i; cbn [logResults].
  - apply alike_ret.
  - apply alike_bind; [|intros _; apply IH].
    unfold logResult. unfold_logging. cbn [logEnv withLogEnv].
    repeat alike_step.
Qed.

(** The processor ends alike, and leaves the same Request table and work
    list, whichever event store sits behind its logger. *)
Lemma processSearchIndexers_alike E L payload :
  alike (processSearchIndexers E payload)
        (processSearchIndexers (withLogEnv E L) payload).
Proof.
  unfold processSearchIndexers, searchAndSelect. unfold_logging.
  cbn [logEnv withLogEnv configService_get JSON_parse getProwlarrService
       prowlarr_search rankTorrents].
  repeat first [apply alike_logResults | alike_step].
Qed.

Import Logger.

(** C9: every failure of the write to the job-event store is swallowed:
    [persistToDatabase] returns normally and leaves the store as it was
    when the insert is rejected; a [log] call at any level, on any logger,
    against any event store returns normally and changes neither the
    Request table nor the job queue; when the event store rejects every
    insert, the job events are unchanged as well; and the search
    processor ends the same way and leaves the same Request table and work
    list whatever event store, failing or not, sits behind its logger. *)
Theorem persist_failure_swallowed :
  (forall E this level message metadata db,
      jobEvent_create_fails E db (eventOf this level message metadata)
      = true ->
      persistToDatabase E this level message metadata db
      = (Returned tt, db))
  /\ (forall E this level message metadata db,
        fst (log E this level message metadata db) = Returned tt
        /\ requests (snd (log E this level message metadata db))
           = requests db
        /\ jobs (snd (log E this level message metadata db)) = jobs db)
  /\ (forall E this level message metadata db,
        (forall d ev, jobEvent_create_fails E d ev = true) ->
        fst (log E this level message metadata db) = Returned tt
        /\ requests (snd (log E this level message metadata db))
           = requests db
        /\ jobs (snd (log E this level message metadata db)) = jobs db
        /\ job_events (snd (log E this level message metadata db))
           = job_events db)
  /\ (forall E L payload db,
        fst (processSearchIndexers (withLogEnv E L) payload db)
        = fst (processSearchIndexers E payload db)
        /\ requests (snd (processSearchIndexers (withLogEnv E L) payload db))
           = requests (snd (processSearchIndexers E payload db))
        /\ jobs (snd (processSearchIndexers (withLogEnv E L) payload db))
           = jobs (snd (processSearchIndexers E payload db))).
Proof.
  split; [|split; [|split]].
  - intros E this level message metadata db H.
    unfold persistToDatabase, tryCatch, jobEvent_create. rewrite H.
    reflexivity.
  - intros E this level message metadata db.
    split; [apply LoggerProofs.log_returns|].
    destruct (LoggerProofs.log_frame E this level message metadata db) as (H1 & H2 & _).
    split; assumption.
  - intros E this level message metadata db Hfail.
    destruct (LoggerProofs.log_failing_store E this level message metadata db Hfail)
      as [c ->].
    repeat split.
  - intros E L payload db.
    destruct (processSearchIndexers_alike E L payload db db)
      as (Ho & Hr & _ & Hj & _); [repeat split|].
    repeat split; congruence.
Qed.

Lemma persist_failure_swallowed_witness :
  persistToDatabase Scenario.failingStore Scenario.jobLogger Lerror
    "Error: timeout" None Scenario.dbPending
  = (Returned tt, Scenario.dbPending)
  /\ job_events
       (snd (log Scenario.failingStore Scenario.jobLogger Lwarn
                 "No torrents found" None Scenario.dbPending))
     = job_events Scenario.dbPending.
Proof.
  destruct persist_failure_swallowed as (H1 & _ & H3 & _).
  split.
  - apply H1. reflexivity.
  - apply H3. intros d ev. reflexivity.
Defined.

End Noninterference.

(** ** Fetch E-book route *)

Module FetchEbookProofs.
Import Store Triples TripleRules FetchEbook.

Lemma bind_configuration_findUnique {B} key (k : option string -> M B) db :
  bind (configuration_findUnique key) k db
  = k (option_map snd
         (find (fun kv => String.eqb (fst kv) key) (configuration db))) db.
Proof. reflexivity. Qed.

Lemma bind_request_findUnique {B} rid (k : option Request -> M B) db :
  bind (request_findUnique rid) k db = k (findById rid db) db.
Proof. reflexivity. Qed.

Lemma bind_request_findFirst {B} w (k : option Request -> M B) db :
  bind (request_findFirst w) k db = k (find w (requests db)) db.
Proof. reflexivity. Qed.

Lemma find_existsb_id w rs r :
  find w rs = Some r -> existsb_id (id r) rs = true.
Proof.
  intros H. apply find_some in H. destruct H as [Hin _].
  unfold existsb_id. apply existsb_exists. exists r.
  split; [exact Hin | apply String.eqb_refl].
Qed.

Lemma map_id_updated rid f rs :
  (forall r, id (f r) = id r) -> map id (updated rid f rs) = map id rs.
Proof.
  intros Hid. unfold updated. rewrite map_map. apply map_ext.
  intros r. destruct (String.eqb (id r) rid); [apply Hid | reflexivity].
Qed.

(** The retry branch: reset the row, enqueue the search, answer. *)
Lemma retry_returns E existing parentRequest rs js t :
  existsb_id (id existing) rs = true ->
  returns (pipeline rs js t)
    (request_update (id existing)
       (fun db r =>
          set_updatedAt (now db)
            (set_errorMessage None
               (set_progress 0 (set_status "pending" r)))) ;;
     enqueue (searchEbookJobFor (id existing) parentRequest) ;;
     Logger.info (logEnv E) logger
       ("Retrying ebook request " ++ id existing ++ " for "
        ++ Fmt.dq ++ ab_title (audiobook parentRequest) ++ Fmt.dq) None ;;
     ret (NextResponse_json
            (ResultBody true "E-book search retried" (id existing)) 200))
    (fun resp db =>
       resp = NextResponse_json
                (ResultBody true "E-book search retried" (id existing)) 200
       /\ pipeline (updated (id existing) (reset t) rs)
                   (js ++ [searchEbookJobFor (id existing) parentRequest])%list
                   t db).
Proof.
  intros Hex.
  eapply returns_bind.
  { apply (returns_request_update _ _ (reset t)); [exact Hex|].
    intros db r Hnow. unfold reset. rewrite Hnow. reflexivity. }
  intros [].
  eapply returns_bind; [apply returns_enqueue|]. intros [].
  eapply returns_bind; [unfold Logger.info; apply returns_log|]. intros [].
  apply returns_ret. intros db H. split; [reflexivity | exact H].
Qed.

(** The route past its gates, with a retryable ebook request in place. *)
Lemma POST_retry E pid db parentRequest existing :
  authenticated E = true -> isAdmin E = true ->
  featureEnabled db = true ->
  findById pid db = Some parentRequest ->
  includes ["downloaded"; "available"] (status parentRequest) = true ->
  find (existingEbookWhere pid) (requests db) = Some existing ->
  includes ["failed"; "awaiting_search"] (status existing) = true ->
  exists db',
    POST E pid db
    = (Returned (NextResponse_json
                   (ResultBody true "E-book search retried" (id existing))
                   200), db')
    /\ requests db' = updated (id existing) (reset (now db)) (requests db)
    /\ jobs db'
       = (jobs db ++ [searchEbookJobFor (id existing) parentRequest])%list.
Proof.
  intros Hauth Hadm Hflag Hparent Hdone Hfind Hretry.
  destruct (retry_returns E existing parentRequest _ (jobs db) (now db)
              (find_existsb_id _ _ _ Hfind) db (pipeline_self db))
    as (resp & db' & Erun & -> & Hreq & Hjobs & _).
  exists db'. split; [|split; assumption].
  unfold POST. rewrite Hauth, Hadm. cbn [negb].
  unfold tryCatch, handler.
  rewrite bind_configuration_findUnique.
  change (valueIs "true" _) with (featureEnabled db). rewrite Hflag.
  cbn [negb].
  rewrite bind_request_findUnique, Hparent, Hdone. cbn [negb].
  rewrite bind_request_findFirst, Hfind, Hretry.
  rewrite Erun. reflexivity.
Qed.

Lemma includes_two a b x :
  includes [a; b] x = true <-> x = a \/ x = b.
Proof.
  unfold includes. cbn [existsb]. rewrite orb_false_r, orb_true_iff.
  rewrite !String.eqb_eq. tauto.
Qed.

(** While an undeleted ebook request exists for the parent, a call of the
    route adds no row to the Request table. *)
Lemma POST_no_second_row E pid db existing :
  find (existingEbookWhere pid) (requests db) = Some existing ->
  map id (requests (snd (POST E pid db))) = map id (requests db).
Proof.
  intros Hfind. unfold POST.
  destruct (authenticated E); [|reflexivity].
  destruct (isAdmin E); [|reflexivity]. cbn [negb].
  unfold tryCatch, handler.
  rewrite bind_configuration_findUnique.
  destruct (negb (valueIs "true" _)); [reflexivity|].
  rewrite bind_request_findUnique.
  destruct (findById pid db) as [p|]; [|reflexivity].
  destruct (negb (includes _ (status p))); [reflexivity|].
  rewrite bind_request_findFirst, Hfind.
  destruct (includes _ (status existing)); [|reflexivity].
  destruct (retry_returns E existing p _ (jobs db) (now db)
              (find_existsb_id _ _ _ Hfind) db (pipeline_self db))
    as (resp & db' & Erun & -> & Hreq & _).
  rewrite Erun. cbn [snd]. rewrite Hreq.
  apply map_id_updated. reflexivity.
Qed.

(** C5 (as amended): when the call passes the gates of the route (an
    authenticated administrator, the ebook feature enabled, the parent
    request present and downloaded or available) and the parent already
    has an undeleted ebook request whose status is failed or
    awaiting_search, the route resets that request to pending with
    progress 0 and no error message, enqueues a search job for it and
    answers success; and whatever the gates, while such a request exists
    no second row is created. *)
Theorem retry_resets_existing_ebook_request :
  (forall E pid db parentRequest existing,
      authenticated E = true -> isAdmin E = true ->
      featureEnabled db = true ->
      findById pid db = Some parentRequest ->
      status parentRequest = "downloaded"
      \/ status parentRequest = "available" ->
      find (existingEbookWhere pid) (requests db) = Some existing ->
      status existing = "failed" \/ status existing = "awaiting_search" ->
      exists db',
        POST E pid db
        = (Returned (NextResponse_json
                       (ResultBody true "E-book search retried"
                                   (id existing)) 200), db')
        /\ (forall r, In r (requests db') -> id r = id existing ->
                      status r = "pending" /\ progress r = 0%Z
                      /\ errorMessage r = None)
        /\ existsb_id (id existing) (requests db') = true
        /\ jobs db'
           = (jobs db ++ [searchEbookJobFor (id existing) parentRequest])%list
        /\ map id (requests db') = map id (requests db))
  /\ (forall E pid db existing,
        find (existingEbookWhere pid) (requests db) = Some existing ->
        map id (requests (snd (POST E pid db))) = map id (requests db)).
Proof.
  split; [|exact POST_no_second_row].
  intros E pid db parentRequest existing Hauth Hadm Hflag Hparent Hdone
         Hfind Hretry.
  apply includes_two in Hdone. apply includes_two in Hretry.
  destruct (POST_retry E pid db parentRequest existing
              Hauth Hadm Hflag Hparent Hdone Hfind Hretry)
    as (db' & Erun & Hreq & Hjobs).
  exists db'. split; [exact Erun|].
  split; [|split; [|split; [exact Hjobs|]]].
  - intros r Hin Hid. rewrite Hreq in Hin. unfold updated in Hin.
    apply in_map_iff in Hin. destruct Hin as (r0 & Er & _).
    destruct (String.eqb (id r0) (id existing)) eqn:Eq.
    + subst r. repeat split.
    + subst r. apply String.eqb_neq in Eq. contradiction.
  - rewrite Hreq, existsb_id_updated;
      [exact (find_existsb_id _ _ _ Hfind) | reflexivity].
  - rewrite Hreq. apply map_id_updated. reflexivity.
Qed.

Lemma retry_resets_existing_ebook_request_witness :
  exists db',
    POST Scenario.admin "req-1" Scenario.dbEbookEnabled
    = (Returned (NextResponse_json
                   (ResultBody true "E-book search retried" "req-2") 200),
       db')
    /\ (forall r, In r (requests db') -> id r = "req-2" ->
                  status r = "pending" /\ progress r = 0%Z
                  /\ errorMessage r = None)
    /\ existsb_id "req-2" (requests db') = true
    /\ jobs db'
       = [searchEbookJobFor "req-2"
            (Scenario.mkRequest "req-1" "audiobook" None "downloaded" None)]
    /\ map id (requests db') = ["req-1"; "req-2"].
Proof.
  apply (proj1 retry_resets_existing_ebook_request
               Scenario.admin "req-1" Scenario.dbEbookEnabled
               (Scenario.mkRequest "req-1" "audiobook" None "downloaded" None)
               (Scenario.mkRequest "req-2" "ebook" (Some "req-1") "failed"
                  (Some "No download links available")));
    try reflexivity; left; reflexivity.
Defined.

(** With the ebook feature switched off, triggering the fetch for a parent
    whose ebook request has failed resets nothing and enqueues nothing. *)
Lemma disabled_feature_does_not_retry :
  find (existingEbookWhere "req-1") (requests Scenario.dbEbookDisabled)
  = Some (Scenario.mkRequest "req-2" "ebook" (Some "req-1") "failed"
            (Some "No download links available"))
  /\ POST Scenario.admin "req-1" Scenario.dbEbookDisabled
     = (Returned (NextResponse_json
                    (ErrorBody "E-book sidecar feature is not enabled") 400),
        Scenario.dbEbookDisabled)
  /\ option_map status (findById "req-2" Scenario.dbEbookDisabled)
     = Some "failed"
  /\ jobs (snd (POST Scenario.admin "req-1" Scenario.dbEbookDisabled)) = [].
Proof. repeat split. Qed.

(** C6: when the parent request does not exist, or its status is neither
    downloaded nor available, the route turns the call away and leaves
    the store as it was, so no ebook request is created and nothing is
    enqueued; conversely a call that adds a row found the parent
    downloaded or available. *)
Theorem sidecar_requires_completed_parent :
  (forall E pid db,
      findById pid db = None
      \/ (exists p, findById pid db = Some p
                    /\ status p <> "downloaded"
                    /\ status p <> "available") ->
      exists resp,
        POST E pid db = (Returned resp, db) /\ rejected resp = true)
  /\ (forall E pid db,
        (List.length (requests db)
         < List.length (requests (snd (POST E pid db))))%nat ->
        exists p, findById pid db = Some p
                  /\ (status p = "downloaded" \/ status p = "available")).
Proof.
  split.
  - intros E pid db Hparent. unfold POST.
    destruct (authenticated E); [|eexists; split; reflexivity].
    destruct (isAdmin E); [|eexists; split; reflexivity]. cbn [negb].
    unfold tryCatch, handler.
    rewrite bind_configuration_findUnique.
    destruct (negb (valueIs "true" _)); [eexists; split; reflexivity|].
    rewrite bind_request_findUnique.
    destruct Hparent as [-> | (p & -> & Hd & Ha)];
      [eexists; split; reflexivity|].
    destruct (includes _ (status p)) eqn:Einc.
    + apply includes_two in Einc. tauto.
    + eexists; split; reflexivity.
  - intros E pid db. unfold POST.
    destruct (authenticated E); [|cbn; lia].
    destruct (isAdmin E); [|cbn; lia]. cbn [negb].
    unfold tryCatch, handler.
    rewrite bind_configuration_findUnique.
    destruct (negb (valueIs "true" _)); [cbn; lia|].
    rewrite bind_request_findUnique.
    destruct (findById pid db) as [p|]; [|cbn; lia].
    destruct (includes _ (status p)) eqn:Einc; [|cbn; lia].
    intros _. exists p. split; [reflexivity|].
    apply includes_two. exact Einc.
Qed.

Lemma sidecar_requires_completed_parent_witness :
  (exists resp,
      POST Scenario.admin "req-1" Scenario.dbDownloading
      = (Returned resp, Scenario.dbDownloading) /\ rejected resp = true)
  /\ (exists resp,
        POST Scenario.admin "req-9" Scenario.dbDownloading
        = (Returned resp, Scenario.dbDownloading) /\ rejected resp = true).
Proof.
  split.
  - apply (proj1 sidecar_requires_completed_parent).
    right. eexists. split; [reflexivity|]. split; discriminate.
  - apply (proj1 sidecar_requires_completed_parent).
    left. reflexivity.
Defined.

End FetchEbookProofs.

(** ** Ranking engine *)

Module RankingSpecProofs.
Import RankingSpec.

Lemma insertRanked_In x rs r :
  In r (insertRanked x rs) <-> r = x \/ In r rs.
Proof.
  induction rs as [|a rest IH]; cbn [insertRanked].
  - cbn. intuition congruence.
  - destruct (before x a); cbn [In] in *; rewrite ?IH; intuition congruence.
Qed.

Lemma sortRanked_In rs r : In r (sortRanked rs) <-> In r rs.
Proof.
  induction rs as [|a rest IH]; cbn [sortRanked]; [tauto|].
  rewrite insertRanked_In, IH. cbn [In]. intuition congruence.
Qed.

Lemma rank_In S candidates t r :
  In r (rank S candidates t) <->
  exists c, In c candidates /\ r = scoreCandidate S t c.
Proof.
  unfold rank. rewrite sortRanked_In, in_map_iff.
  split; intros (c & H1 & H2); exists c; auto.
Qed.

Lemma gate_closed S t c :
  coverageBelow80 (target_title t) (title c) = true ->
  baseScore (scoreCandidate S t c) = 0.
Proof.
  intros H. cbn [scoreCandidate baseScore]. unfold computeBaseScore.
  rewrite H. reflexivity.
Qed.

(** Below the bar means: found / wanted < 80 / 100. *)
Lemma coverageBelow80_fraction t c found wanted :
  coverage t c = (found, wanted) -> (0 < wanted)%nat ->
  (coverageBelow80 t c = true
   <-> inject_Z (Z.of_nat found) / inject_Z (Z.of_nat wanted) < 80 # 100).
Proof.
  intros Hc Hw. unfold coverageBelow80. rewrite Hc.
  rewrite Nat.ltb_lt.
  assert (0 < inject_Z (Z.of_nat wanted)) as Hpos.
  { unfold Qlt. cbn. lia. }
  split; intros H.
  - apply Qlt_shift_div_r; [exact Hpos|].
    unfold Qlt, Qmult, inject_Z. cbn [Qnum Qden Pos.mul]. lia.
  - apply (Qmult_lt_compat_r _ _ _ Hpos) in H.
    unfold Qdiv in H. rewrite <- Qmult_assoc in H.
    rewrite (Qmult_comm (/ _)), Qmult_inv_r, Qmult_1_r in H.
    + unfold Qlt, Qmult, inject_Z in H. cbn [Qnum Qden Pos.mul] in H. lia.
    + intros E. rewrite E in Hpos. discriminate Hpos.
Qed.

(** C1: a candidate whose title covers less than 80% of the significant
    words of the target title has base score 0, whatever the title,
    author, format, seed and size stages would award, both as scored and
    as found in the ranked list; for the target "The Wild Robot on the
    Island" the candidate "The Wild Robot" covers 2 of 3 words and scores
    0, while "The Wild Robot on the Island [Unabridged]" covers 3 of 3 and
    receives the sum of the stages. *)
Theorem coverage_gate_forces_zero :
  (forall S t c,
      coverageBelow80 (target_title t) (title c) = true ->
      baseScore (scoreCandidate S t c) = 0)
  /\ (forall S candidates t r,
        In r (rank S candidates t) ->
        coverageBelow80 (target_title t) (title (candidate r)) = true ->
        baseScore r = 0)
  /\ (forall t c found wanted,
        coverage t c = (found, wanted) -> (0 < wanted)%nat ->
        (coverageBelow80 t c = true
         <-> inject_Z (Z.of_nat found) / inject_Z (Z.of_nat wanted)
             < 80 # 100))
  /\ coverage "The Wild Robot on the Island" "The Wild Robot"
     = (2%nat, 3%nat)
  /\ (forall S author c,
        title c = "The Wild Robot" ->
        baseScore
          (scoreCandidate S
             {| target_title := "The Wild Robot on the Island";
                target_author := author |} c) = 0)
  /\ coverage "The Wild Robot on the Island"
              "The Wild Robot on the Island [Unabridged]"
     = (3%nat, 3%nat)
  /\ (forall S author c,
        title c = "The Wild Robot on the Island [Unabridged]" ->
        baseScore
          (scoreCandidate S
             {| target_title := "The Wild Robot on the Island";
                target_author := author |} c)
        = stageSum S {| target_title := "The Wild Robot on the Island";
                        target_author := author |} c).
Proof.
  split; [exact gate_closed|].
  split.
  { intros S candidates t r Hin Hcov.
    apply rank_In in Hin. destruct Hin as (c & _ & ->).
    apply gate_closed. exact Hcov. }
  split; [exact coverageBelow80_fraction|].
  split; [reflexivity|].
  split.
  { intros S author c Ht. apply gate_closed. cbn [target_title].
    rewrite Ht. reflexivity. }
  split; [reflexivity|].
  intros S author c Ht. cbn [scoreCandidate baseScore].
  unfold computeBaseScore. cbn [target_title]. rewrite Ht. reflexivity.
Qed.

Lemma coverage_gate_forces_zero_witness :
  baseScore
    (scoreCandidate Scenario.generousStages Scenario.wildTarget
       (Scenario.candidateTitled "The Wild Robot")) = 0
  /\ (forall r,
        In r (rank Scenario.generousStages
                [Scenario.candidateTitled "The Wild Robot";
                 Scenario.candidateTitled
                   "The Wild Robot on the Island [Unabridged]"]
                Scenario.wildTarget) ->
        title (candidate r) = "The Wild Robot" -> baseScore r = 0).
Proof.
  destruct coverage_gate_forces_zero as (H1 & H2 & _).
  split.
  - apply H1. reflexivity.
  - intros r Hin Ht. apply (H2 _ _ _ _ Hin).
    cbn [Scenario.wildTarget target_title]. rewrite Ht. reflexivity.
Defined.

Local Open Scope R_scope.

Lemma ln10_pos : 0 < ln 10.
Proof. rewrite <- ln_1. apply ln_increasing; lra. Qed.

Lemma log10_le x y : 0 < x -> x <= y -> log10 x <= log10 y.
Proof.
  intros Hx Hxy. unfold log10.
  apply Rmult_le_compat_r.
  - left. apply Rinv_0_lt_compat. exact ln10_pos.
  - destruct Hxy as [Hlt | ->]; [left; apply ln_increasing; assumption|].
    right. reflexivity.
Qed.

Lemma log10_pow n : log10 (10 ^ n) = INR n.
Proof.
  unfold log10. rewrite ln_pow by lra. field.
  apply Rgt_not_eq. exact ln10_pos.
Qed.

Lemma seedScore_mono m n : (m <= n)%nat -> seedScore m <= seedScore n.
Proof.
  intros H. unfold seedScore. apply Rle_min_compat_l.
  apply Rmult_le_compat_r; [lra|].
  apply log10_le.
  - pose proof (pos_INR m). lra.
  - apply le_INR in H. lra.
Qed.

Lemma seedScore_zero : seedScore 0 = 0.
Proof.
  unfold seedScore, log10. cbn [INR].
  replace (0 + 1) with 1 by lra. rewrite ln_1.
  replace (0 / ln 10 * 6) with 0 by (field; apply Rgt_not_eq, ln10_pos).
  apply Rmin_right. lra.
Qed.

(** C8: the seed score is min(15, log10(seedCount + 1) * 6) over the
    reals; it does not decrease when the seed count grows, lies between 0
    and 15, is 0 without seeders, 6 for 9 seeders and 15 for 999. *)
Theorem seed_score_properties :
  (forall n, seedScore n = Rmin 15 (ln (INR n + 1) / ln 10 * 6))
  /\ (forall m n, (m <= n)%nat -> seedScore m <= seedScore n)
  /\ (forall n, 0 <= seedScore n <= 15)
  /\ seedScore 0 = 0
  /\ seedScore 9 = 6
  /\ seedScore 999 = 15.
Proof.
  split; [reflexivity|].
  split; [exact seedScore_mono|].
  split.
  { intros n. split.
    - rewrite <- seedScore_zero. apply seedScore_mono. lia.
    - unfold seedScore. apply Rmin_l. }
  split; [exact seedScore_zero|].
  split.
  - unfold seedScore.
    replace (INR 9 + 1) with (10 ^ 1) by (simpl; lra).
    rewrite log10_pow.
    replace (INR 1 * 6) with 6 by (simpl; lra).
    apply Rmin_right. lra.
  - unfold seedScore.
    replace (INR 999 + 1) with (10 ^ 3)
      by (rewrite INR_IZR_INZ; simpl; lra).
    rewrite log10_pow.
    replace (INR 3 * 6) with 18 by (simpl; lra).
    apply Rmin_left. lra.
Qed.

Lemma seed_score_properties_witness : seedScore 9 <= seedScore 999.
Proof. apply (proj1 (proj2 seed_score_properties)). lia. Defined.

End RankingSpecProofs.

(** ** Shapes of normalised paths *)

Module PathShapeProofs.
Import Store PathMapper PathValidation PathMapperProofs.

Lemma plain_backslashFree seg : plain seg -> backslashFree seg.
Proof.
  unfold plain, backslashFree. induction seg as [|a s IH]; cbn; [reflexivity|].
  intros H. apply andb_prop in H. destruct H as [Ha Hs].
  unfold plainChar in Ha. apply andb_prop in Ha. destruct Ha as [_ Hb].
  unfold notBackslash. rewrite Hb. cbn. exact (IH Hs).
Qed.

Lemma backslashFree_app s t :
  backslashFree s -> backslashFree t -> backslashFree (s ++ t).
Proof.
  unfold backslashFree. induction s as [|a s IH]; cbn; [tauto|].
  intros H Ht. apply andb_prop in H. destruct H as [Ha Hs].
  rewrite Ha. cbn. auto.
Qed.

Lemma backslashFree_replaced s : backslashFree (Js.replaceBackslashes s).
Proof.
  unfold backslashFree. induction s as [|a s IH]; cbn; [reflexivity|].
  rewrite IH, andb_true_r. unfold notBackslash.
  destruct (Ascii.eqb a "\"%char) eqn:E; [reflexivity|].
  rewrite E. reflexivity.
Qed.

Lemma replaceBackslashes_free s :
  backslashFree s -> Js.replaceBackslashes s = s.
Proof.
  unfold backslashFree. induction s as [|a s IH]; cbn; [reflexivity|].
  intros H. apply andb_prop in H. destruct H as [Ha Hs].
  unfold notBackslash in Ha. apply negb_true_iff in Ha.
  rewrite Ha, (IH Hs). reflexivity.
Qed.

(** Cutting a backslash-free string at its slashes leaves plain segments. *)
Lemma split_segments_plain s :
  backslashFree s -> Forall plain (Js.split "/"%char s).
Proof.
  unfold backslashFree. induction s as [|a s IH]; cbn; intros H.
  - constructor; [reflexivity | constructor].
  - apply andb_prop in H. destruct H as [Ha Hs]. specialize (IH Hs).
    destruct (Ascii.eqb a "/"%char) eqn:E.
    + constructor; [reflexivity | exact IH].
    + destruct (Js.split "/"%char s) as [|seg rest].
      * constructor; [|constructor]. unfold plain, plainChar. cbn.
        rewrite E. unfold notBackslash in Ha. rewrite Ha. reflexivity.
      * inversion IH as [|? ? Hseg Hrest]; subst.
        constructor; [|exact Hrest]. unfold plain in *. cbn.
        unfold plainChar at 1. rewrite E. unfold notBackslash in Ha.
        rewrite Ha. cbn. exact Hseg.
Qed.

Lemma dots_plain : plain "..".
Proof. reflexivity. Qed.

Lemma clean_not_dots seg : cleanSegment seg = true -> seg <> "..".
Proof. intros H ->. discriminate H. Qed.

Lemma plain_clean seg :
  plain seg -> String.eqb seg "" = false -> String.eqb seg "." = false ->
  String.eqb seg ".." = false -> cleanSegment seg = true.
Proof.
  intros Hp H0 H1 H2. unfold cleanSegment. rewrite H1, H2, Hp.
  destruct seg; [discriminate H0 | reflexivity].
Qed.

(** One step of [normalizeString] keeps the shape of the stack. *)
Lemma normalizeStep_shape allow stack seg :
  stackShape allow stack -> plain seg ->
  stackShape allow (NodePath.normalizeStep allow stack seg).
Proof.
  intros (cs & k & -> & Hcs & Hk) Hp. unfold NodePath.normalizeStep.
  destruct (String.eqb seg "") eqn:E0; cbn [orb].
  { exists cs, k. auto. }
  destruct (String.eqb seg ".") eqn:E1.
  { exists cs, k. auto. }
  destruct (String.eqb seg "..") eqn:E2.
  - destruct cs as [|top cs'].
    + cbn [app]. destruct k as [|k'].
      * cbn [repeat]. destruct allow.
        -- exists [], 1%nat. repeat split; [constructor | discriminate].
        -- exists [], 0%nat. repeat split. constructor.
      * cbn [repeat]. rewrite String.eqb_refl. destruct allow.
        -- exists [], (S (S k')). repeat split; [constructor | discriminate].
        -- exists [], (S k'). repeat split; [constructor | exact Hk].
    + cbn [app]. inversion Hcs as [|? ? Htop Hcs']; subst.
      assert (String.eqb top ".." = false) as ->.
      { apply String.eqb_neq. exact (clean_not_dots _ Htop). }
      exists cs', k. auto.
  - exists (seg :: cs), k. repeat split; [|exact Hk].
    constructor; [exact (plain_clean _ Hp E0 E1 E2) | exact Hcs].
Qed.

Lemma fold_normalizeStep_shape allow segs : forall stack,
  stackShape allow stack -> Forall plain segs ->
  stackShape allow (fold_left (NodePath.normalizeStep allow) segs stack).
Proof.
  induction segs as [|seg rest IH]; intros stack Hs Hp; [exact Hs|].
  inversion Hp as [|? ? Hseg Hrest]; subst. cbn [fold_left].
  apply IH; [apply normalizeStep_shape; assumption | exact Hrest].
Qed.

Lemma rev_repeat_dots k : rev (repeat ".." k) = repeat ".." k.
Proof.
  induction k as [|k IH]; [reflexivity|].
  cbn [repeat rev]. rewrite IH. clear IH.
  induction k as [|k IH]; [reflexivity|]. cbn [repeat app]. rewrite IH.
  reflexivity.
Qed.

(** What [normalizeString] returns on a backslash-free path. *)
Lemma normalizeString_shape q allow :
  backslashFree q ->
  exists k cleans,
    NodePath.normalizeString q allow
    = Js.join "/" (repeat ".." k ++ cleans)
    /\ Forall (fun seg => cleanSegment seg = true) cleans
    /\ (allow = false -> k = 0%nat).
Proof.
  intros Hq. unfold NodePath.normalizeString.
  destruct (fold_normalizeStep_shape allow (Js.split "/"%char q) [])
    as (cs & k & -> & Hcs & Hk).
  - exists [], 0%nat. repeat split. constructor.
  - apply split_segments_plain. exact Hq.
  - exists k, (rev cs). rewrite rev_app_distr, rev_repeat_dots.
    repeat split; [|exact Hk]. apply Forall_rev. exact Hcs.
Qed.

Lemma endsWithChar_plain seg :
  plain seg -> seg <> "" -> Js.endsWithChar "/"%char seg = false.
Proof.
  unfold plain. induction seg as [|a s IH]; [congruence|].
  cbn [list_ascii_of_string forallb]. intros Hp _.
  apply andb_prop in Hp. destruct Hp as [Ha Hs].
  destruct s as [|b s'].
  - cbn. unfold plainChar in Ha. apply andb_prop in Ha.
    destruct Ha as [Ha _]. apply negb_true_iff in Ha. exact Ha.
  - cbn [Js.endsWithChar]. apply IH; [exact Hs | discriminate].
Qed.

(** The entries of a normalised relative path: [".."] or clean. *)
Lemma entries_plain k cleans :
  Forall (fun seg => cleanSegment seg = true) cleans ->
  Forall (fun seg => plain seg /\ seg <> "") (repeat ".." k ++ cleans)%list.
Proof.
  intros Hc. apply Forall_app. split.
  - apply Forall_forall. intros x Hx. apply repeat_spec in Hx. subst x.
    split; [exact dots_plain | discriminate].
  - eapply Forall_impl; [|exact Hc]. intros seg H.
    split; [exact (cleanSegment_plain _ H)|]. intros ->. discriminate H.
Qed.

Lemma join_empty L :
  Forall (fun seg => plain seg /\ seg <> "") L -> Js.join "/" L = "" -> L = [].
Proof.
  intros H E. destruct L as [|x rest]; [reflexivity|]. exfalso.
  inversion H as [|? ? [_ Hx] _]; subst.
  destruct rest; cbn in E; [congruence|].
  destruct x; [congruence | discriminate E].
Qed.

Lemma join_endsWith L :
  Forall (fun seg => plain seg /\ seg <> "") L ->
  Js.endsWithChar "/"%char (Js.join "/" L) = false.
Proof.
  induction 1 as [|x rest [Hp Hne] Hrest IH]; [reflexivity|].
  destruct rest as [|y rest'].
  - cbn. exact (endsWithChar_plain _ Hp Hne).
  - change (Js.join "/" (x :: y :: rest'))
      with (x ++ "/" ++ Js.join "/" (y :: rest')).
    rewrite endsWithChar_app by discriminate.
    change ("/" ++ Js.join "/" (y :: rest'))
      with (String "/"%char (Js.join "/" (y :: rest'))).
    destruct (Js.join "/" (y :: rest')) eqn:E.
    + exfalso. apply join_empty in E; [discriminate | exact Hrest].
    + cbn [Js.endsWithChar]. exact IH.
Qed.

Lemma join_backslashFree L :
  Forall (fun seg => plain seg /\ seg <> "") L ->
  backslashFree (Js.join "/" L).
Proof.
  induction 1 as [|x rest [Hp Hne] Hrest IH]; [reflexivity|].
  destruct rest as [|y rest'].
  - cbn. exact (plain_backslashFree _ Hp).
  - change (Js.join "/" (x :: y :: rest'))
      with (x ++ "/" ++ Js.join "/" (y :: rest')).
    apply backslashFree_app; [exact (plain_backslashFree _ Hp)|].
    apply backslashFree_app; [reflexivity | exact IH].
Qed.

Lemma join_relative L :
  Forall (fun seg => plain seg /\ seg <> "") L ->
  NodePath.isAbsolute (Js.join "/" L) = false.
Proof.
  intros H. destruct L as [|x rest]; [reflexivity|].
  inversion H as [|? ? [Hp Hne] _]; subst.
  destruct x as [|a s]; [congruence|].
  assert (Ascii.eqb a "/"%char = false) as Ea.
  { unfold plain in Hp. cbn in Hp. apply andb_prop in Hp.
    destruct Hp as [Ha _]. unfold plainChar in Ha.
    apply andb_prop in Ha. destruct Ha as [Ha _].
    apply negb_true_iff in Ha. exact Ha. }
  destruct rest; cbn; exact Ea.
Qed.

Lemma split_join L :
  L <> [] -> Forall (fun seg => plain seg /\ seg <> "") L ->
  Js.split "/"%char (Js.join "/" L) = L.
Proof.
  intros Hne H. induction H as [|x rest [Hp Hx] Hrest IH]; [congruence|].
  destruct rest as [|y rest'].
  - cbn [Js.join]. rewrite <- (append_nil_r x) at 1.
    rewrite (split_plain_app _ _ Hp). cbn. rewrite append_nil_r.
    reflexivity.
  - change (Js.join "/" (x :: y :: rest'))
      with (x ++ String "/"%char (Js.join "/" (y :: rest'))).
    rewrite (split_plain_app _ _ Hp). cbn [Js.split].
    rewrite Ascii.eqb_refl, IH by discriminate.
    rewrite append_nil_r. reflexivity.
Qed.

Lemma absPath_backslashFree cleans :
  Forall (fun seg => cleanSegment seg = true) cleans ->
  backslashFree (absPath cleans).
Proof.
  induction 1 as [|seg rest H _ IH]; [reflexivity|]. cbn [absPath].
  apply backslashFree_app; [reflexivity|].
  apply backslashFree_app; [|exact IH].
  apply plain_backslashFree, cleanSegment_plain, H.
Qed.

Lemma dropLast_slash X : X <> "" -> Js.dropLast (X ++ "/") = X.
Proof.
  induction X as [|a s IH]; [congruence|]. intros _.
  destruct s as [|b s']; [reflexivity|].
  specialize (IH ltac:(discriminate)).
  change (Js.dropLast (String a (String b s') ++ "/"))
    with (String a (Js.dropLast (String b s' ++ "/"))).
  rewrite IH. reflexivity.
Qed.

Lemma endsWithChar_slash X : Js.endsWithChar "/"%char (X ++ "/") = true.
Proof.
  induction X as [|a s IH]; [reflexivity|].
  cbn [append Js.endsWithChar]. destruct (s ++ "/") eqn:E; [|exact IH].
  destruct s; discriminate E.
Qed.

Lemma length_slash X : X <> "" -> (1 <? String.length (X ++ "/"))%nat = true.
Proof. destruct X as [|a s]; [congruence|]. intros _. destruct s; reflexivity. Qed.

(** The closing steps of [normalizePath] on a string with or without a
    trailing slash. *)
Lemma strip_trailing X (tr : bool) :
  X <> "" -> backslashFree X -> Js.endsWithChar "/"%char X = false ->
  (let normalized := Js.replaceBackslashes (if tr then X ++ "/" else X) in
   if (1 <? String.length normalized)%nat
      && Js.endsWithChar "/"%char normalized
   then Js.dropLast normalized else normalized) = X.
Proof.
  intros Hne Hb He. cbv zeta. destruct tr.
  - rewrite replaceBackslashes_free
      by (apply backslashFree_app; [exact Hb | reflexivity]).
    rewrite (length_slash _ Hne), endsWithChar_slash. cbn [andb].
    exact (dropLast_slash _ Hne).
  - rewrite (replaceBackslashes_free _ Hb), He, andb_false_r. reflexivity.
Qed.

(** [path.normalize] on a non-empty backslash-free path: the root, or one
    of the other shapes with or without a slash behind it. *)
Lemma normalize_shape q :
  q <> "" -> backslashFree q ->
  NodePath.normalize q = "/"
  \/ exists X (tr : bool),
       NodePath.normalize q = (if tr then X ++ "/" else X)
       /\ canonical X /\ X <> "" /\ backslashFree X
       /\ Js.endsWithChar "/"%char X = false.
Proof.
  intros Hne Hq. destruct q as [|a s]; [congruence|].
  unfold NodePath.normalize.
  destruct (normalizeString_shape (String a s)
              (negb (NodePath.isAbsolute (String a s))) Hq)
    as (k & cleans & -> & Hc & Hk).
  pose proof (entries_plain k cleans Hc) as Hent.
  set (tr := Js.endsWithChar "/"%char (String a s)).
  destruct (Js.join "/" (repeat ".." k ++ cleans)%list) as [|b t] eqn:Ej.
  - destruct (NodePath.isAbsolute (String a s)); [left; reflexivity|].
    right. exists ".", tr.
    split; [destruct tr; reflexivity|].
    split; [exact canonical_dot|]. repeat split. discriminate.
  - rewrite <- Ej. right.
    assert (repeat ".." k ++ cleans <> [])%list as Hl.
    { intros E. rewrite E in Ej. discriminate Ej. }
    assert (Js.join "/" (repeat ".." k ++ cleans)%list <> "") as Hj.
    { rewrite Ej. discriminate. }
    destruct (NodePath.isAbsolute (String a s)) eqn:Ea.
    + rewrite (Hk eq_refl) in *. cbn [repeat app] in *.
      exists (absPath cleans), tr.
      split.
      { rewrite <- (join_absPath cleans Hl). destruct tr; reflexivity. }
      split; [apply canonical_absolute; assumption|].
      split; [destruct cleans; [congruence | discriminate]|].
      split; [apply absPath_backslashFree; exact Hc|].
      destruct (exists_last Hl) as [pre [last ->]].
      apply Forall_app in Hc. destruct Hc as [_ Hlast].
      inversion Hlast; subst. apply endsWithChar_absPath. assumption.
    + exists (Js.join "/" (repeat ".." k ++ cleans)%list), tr.
      split; [destruct tr; reflexivity|].
      split; [apply canonical_relative; assumption|].
      split; [exact Hj|].
      split; [apply join_backslashFree; exact Hent|].
      apply join_endsWith. exact Hent.
Qed.

(** Every path leaves [normalizePath] in one of the four shapes. *)
Lemma normalizePath_canonical p : canonical (normalizePath p).
Proof.
  unfold normalizePath.
  pose proof (backslashFree_replaced p) as Hq.
  destruct (Js.replaceBackslashes p) as [|a s] eqn:Eq;
    [exact canonical_dot|].
  destruct (normalize_shape (String a s)) as [-> | (X & tr & -> & Hc & Hx & Hb & He)];
    [discriminate | exact Hq | exact canonical_root |].
  pose proof (strip_trailing X tr Hx Hb He) as Hs. cbv zeta in Hs.
  rewrite Hs. exact Hc.
Qed.

Lemma fold_dots k : forall j,
  fold_left (NodePath.normalizeStep true) (repeat ".." k) (repeat ".." j)
  = repeat ".." (k + j).
Proof.
  induction k as [|k IH]; intros j; [reflexivity|].
  cbn [repeat fold_left].
  assert (NodePath.normalizeStep true (repeat ".." j) ".."
          = repeat ".." (S j)) as ->.
  { destruct j; reflexivity. }
  rewrite IH. f_equal. lia.
Qed.

(** A path in one of the four shapes is left alone by [normalizePath]. *)
Lemma canonical_fixed q : canonical q -> normalizePath q = q.
Proof.
  intros [| |cleans Hne Hc|k cleans Hne Hc]; try reflexivity.
  - exact (normalizePath_clean _ Hne Hc).
  - pose proof (entries_plain k cleans Hc) as Hent.
    set (L := (repeat ".." k ++ cleans)%list) in *.
    assert (Js.join "/" L <> "") as Hj.
    { intros E. apply Hne. exact (join_empty _ Hent E). }
    assert (NodePath.normalizeString (Js.join "/" L) true = Js.join "/" L)
      as Hbody.
    { unfold NodePath.normalizeString. rewrite (split_join _ Hne Hent).
      unfold L. rewrite fold_left_app.
      change (@nil string) with (repeat ".." 0). rewrite fold_dots.
      rewrite (fold_normalizeStep _ _ _ (clean_emptyOrClean _ Hc)).
      rewrite (filter_truthy_clean _ Hc), rev_app_distr, rev_involutive.
      rewrite rev_repeat_dots, Nat.add_0_r. reflexivity. }
    assert (NodePath.normalize (Js.join "/" L) = Js.join "/" L) as Hn.
    { unfold NodePath.normalize.
      rewrite (join_relative _ Hent), (join_endsWith _ Hent). cbn [negb].
      rewrite Hbody.
      destruct (Js.join "/" L); [congruence | reflexivity]. }
    unfold normalizePath.
    rewrite (replaceBackslashes_free _ (join_backslashFree _ Hent)), Hn.
    rewrite (replaceBackslashes_free _ (join_backslashFree _ Hent)).
    rewrite (join_endsWith _ Hent), andb_false_r. reflexivity.
Qed.

(** X1: [normalizePath] never returns the empty string, never leaves a
    backslash, and leaves a trailing slash only on the root. *)
Theorem normalizePath_shape :
  forall p,
    normalizePath p <> ""
    /\ backslashFree (normalizePath p)
    /\ (Js.endsWithChar "/"%char (normalizePath p) = true ->
        normalizePath p = "/").
Proof.
  intros p.
  destruct (normalizePath_canonical p) as [| |cleans Hne Hc|k cleans Hne Hc].
  - repeat split. discriminate.
  - repeat split; [discriminate | discriminate].
  - split; [destruct cleans; [congruence | discriminate]|].
    split; [exact (absPath_backslashFree _ Hc)|].
    destruct (exists_last Hne) as [pre [last ->]].
    apply Forall_app in Hc. destruct Hc as [_ Hl]. inversion Hl; subst.
    rewrite endsWithChar_absPath by assumption. discriminate.
  - pose proof (entries_plain k cleans Hc) as Hent.
    split; [intros E; apply Hne; exact (join_empty _ Hent E)|].
    split; [exact (join_backslashFree _ Hent)|].
    rewrite (join_endsWith _ Hent). discriminate.
Qed.

Lemma normalizePath_shape_witness : normalizePath "//" = "/".
Proof.
  apply (proj2 (proj2 (normalizePath_shape "//"))).
  reflexivity.
Defined.

(** X2: Normalising twice is normalising once. *)
Theorem normalizePath_idempotent :
  forall p, normalizePath (normalizePath p) = normalizePath p.
Proof. intros p. apply canonical_fixed, normalizePath_canonical. Qed.

(** X3: The prefix test of [transform] is on characters: a remote prefix that
    ends inside a segment matches, and what is left of that segment
    becomes a segment of its own under the local prefix. *)
Theorem transform_inside_segment :
  forall pre a b rest local,
    local <> [] ->
    Forall (fun seg => cleanSegment seg = true) pre ->
    cleanSegment a = true -> cleanSegment b = true ->
    cleanSegment (a ++ b) = true ->
    Forall (fun seg => cleanSegment seg = true) rest ->
    Forall (fun seg => cleanSegment seg = true) local ->
    transform (absPath (pre ++ (a ++ b)%string :: rest)%list)
              {| enabled := true;
                 remotePath := absPath (pre ++ [a])%list;
                 localPath := absPath local |}
    = absPath (local ++ b :: rest)%list.
Proof.
  intros pre a b rest local Hl Hpre Ha Hb Hab Hrest Hlocal.
  assert (Forall (fun seg => cleanSegment seg = true) (pre ++ [a])%list)
    as Hremote by (apply Forall_app; split; [assumption | repeat constructor; assumption]).
  assert (Forall (fun seg => cleanSegment seg = true)
                 (pre ++ (a ++ b)%string :: rest)%list) as Hpath
      by (apply Forall_app; split; [assumption | constructor; assumption]).
  assert (pre ++ [a] <> [])%list as Hr1 by (destruct pre; discriminate).
  assert (pre ++ (a ++ b)%string :: rest <> [])%list as Hp1
      by (destruct pre; discriminate).
  assert (absPath (pre ++ (a ++ b)%string :: rest)%list
          = absPath (pre ++ [a])%list ++ (b ++ absPath rest)) as Esplit.
  { rewrite !absPath_app. cbn [absPath].
    rewrite (append_nil_r a).
    rewrite (append_assoc (absPath pre)), (append_assoc a b).
    reflexivity. }
  unfold transform. cbn [enabled remotePath localPath negb].
  rewrite (truthy_absPath _ Hp1), (truthy_absPath _ Hr1), (truthy_absPath _ Hl).
  cbn [negb orb].
  rewrite (normalizePath_clean _ Hr1 Hremote), (normalizePath_clean _ Hl Hlocal),
    (normalizePath_clean _ Hp1 Hpath).
  rewrite Esplit, startsWith_app, substring_from_app. cbn [negb].
  unfold NodePath.join.
  destruct (absPath_cons_shape local Hl) as [sl El]. rewrite El, <- El.
  assert (b <> "") as Hbne by (intros ->; discriminate Hb).
  destruct (b ++ absPath rest) as [|c t] eqn:Eb.
  { destruct b; [congruence | discriminate Eb]. }
  rewrite <- Eb.
  assert (absPath local ++ "/" ++ b ++ absPath rest
          = absPath (local ++ b :: rest)%list) as ->.
  { rewrite absPath_app. reflexivity. }
  apply normalize_clean.
  - destruct local; [congruence | discriminate].
  - apply Forall_app. split; [assumption | constructor; assumption].
Qed.

Lemma transform_inside_segment_witness :
  transform "/remote/x"
    {| enabled := true; remotePath := "/rem"; localPath := "/rem" |}
  = "/rem/ote/x".
Proof.
  apply (transform_inside_segment [] "rem" "ote" ["x"] ["rem"]);
    try discriminate; try reflexivity; repeat constructor.
Defined.

End PathShapeProofs.

(** ** [PathMapper.validate] *)

Module PathValidationProofs.
Import Store PathMapper PathValidation.








End PathValidationProofs.

(** ** What a log call writes *)

Module LoggerWrites.
Import Store Logger Footprint.

Lemma with_console_twice db c1 c2 :
  with_console (with_console db c1) c2 = with_console db c2.
Proof. reflexivity. Qed.

(** [log], case by case: filtered out, console only, or console and one
    event. *)
Lemma log_exact E this level message metadata db :
  log E this level message metadata db
  = if passes E level
    then
      let db1 :=
        with_console db
          (console db ++ consoleLines this level message metadata)%list in
      if hasJobId this && negb (isDebug level)
      then
        if jobEvent_create_fails E db1 (eventOf this level message metadata)
        then (Returned tt, db1)
        else (Returned tt,
              with_job_events db1
                (job_events db
                 ++ [eventOf this level message metadata])%list)
      else (Returned tt, db1)
    else (Returned tt, db).
Proof.
  unfold log, passes, persistToDatabase, console_write, jobEvent_create,
    tryCatch, bind, modify, ret, consoleLines.
  destruct (_ <? _)%Z; cbn [negb]; [reflexivity|].
  cbv zeta.
  destruct metadata as [[|k ks]|];
    cbv [with_console with_job_events requests configuration jobs
         job_events console now];
    rewrite <- ?app_assoc; cbn [app];
    (destruct (hasJobId this && negb (isDebug level)); [|reflexivity]);
    match goal with
    | [ |- context [jobEvent_create_fails E ?d ?e] ] =>
        destruct (jobEvent_create_fails E d e)
    end; reflexivity.
Qed.


Lemma isDebug_false level : negb (isDebug level) = true <-> level <> Ldebug.
Proof. destruct level; cbn; split; congruence. Qed.

(** The job events after a [log] call: as before, or one more. *)
Lemma log_events_cases E this level message metadata db :
  job_events (snd (log E this level message metadata db)) = job_events db
  \/ (passes E level = true /\ hasJobId this = true /\ level <> Ldebug
      /\ job_events (snd (log E this level message metadata db))
         = (job_events db ++ [eventOf this level message metadata])%list).
Proof.
  rewrite log_exact.
  destruct (passes E level); cbv zeta; [|left; reflexivity].
  destruct (hasJobId this); cbn [andb]; [|left; reflexivity].
  destruct (negb (isDebug level)) eqn:Ed; [|left; reflexivity].
  apply isDebug_false in Ed.
  destruct (jobEvent_create_fails E _ _); [left; reflexivity|].
  right. repeat split; assumption.
Qed.

(** The console after a [log] call. *)
Lemma log_console E this level message metadata db :
  console (snd (log E this level message metadata db))
  = if passes E level
    then (console db ++ consoleLines this level message metadata)%list
    else console db.
Proof.
  rewrite log_exact.
  destruct (passes E level); cbv zeta; [|reflexivity].
  destruct (hasJobId this && negb (isDebug level)); [|reflexivity].
  destruct (jobEvent_create_fails E _ _); reflexivity.
Qed.



Lemma descendant_jobId subs : forall this,
  jobId (descendant this subs) = jobId this.
Proof.
  induction subs as [|s rest IH]; intros this; [reflexivity|].
  unfold descendant in *. cbn [fold_left]. rewrite IH. reflexivity.
Qed.

Lemma descendant_context subs : forall this,
  context (descendant this subs)
  = fold_left (fun c s => c ++ "." ++ s) subs (context this).
Proof.
  induction subs as [|s rest IH]; intros this; [reflexivity|].
  unfold descendant in *. cbn [fold_left]. rewrite IH. reflexivity.
Qed.

(** X6: Child loggers keep the job id of their ancestor and extend its context
    by dotted sub-contexts: no descendant of a logger made by [create]
    ever writes a job event, and every event written by a descendant of a
    job-aware logger carries that logger's job id. *)
Theorem child_loggers_keep_job :
  (forall E context subs level message metadata db,
      job_events
        (snd (log E (descendant (create context) subs) level message
                  metadata db))
      = job_events db)
  /\ (forall E jid context subs level message metadata db ev,
        In ev
          (job_events
             (snd (log E (descendant (forJob (Some jid) context) subs)
                       level message metadata db))) ->
        In ev (job_events db)
        \/ (ev_jobId ev = jid
            /\ ev_context ev
               = fold_left (fun c s => c ++ "." ++ s) subs context))
  /\ (forall this a b,
        child (child this a) b
        = descendant this [a; b]).
Proof.
  split; [|split].
  - intros E ctx subs level message metadata db.
    rewrite log_exact.
    assert (hasJobId (descendant (create ctx) subs) = false) as ->.
    { unfold hasJobId. rewrite descendant_jobId. reflexivity. }
    destruct (passes E level); reflexivity.
  - intros E jid ctx subs level message metadata db ev.
    destruct (log_events_cases E (descendant (forJob (Some jid) ctx) subs)
                level message metadata db) as [-> | (_ & _ & _ & ->)].
    + intros H. left. exact H.
    + intros H. apply in_app_or in H. destruct H as [H | [<- | []]].
      * left. exact H.
      * right. cbn [eventOf ev_jobId ev_context].
        rewrite descendant_jobId, descendant_context. split; reflexivity.
  - reflexivity.
Qed.

Lemma child_loggers_keep_job_witness :
  In {| ev_jobId := "job-1"; ev_level := Linfo;
        ev_context := "SearchIndexers.Prowlarr"; ev_message := "query sent";
        ev_metadata := None |}
     (job_events Scenario.dbPending)
  \/ ("job-1" = "job-1"
      /\ "SearchIndexers.Prowlarr" = "SearchIndexers.Prowlarr").
Proof.
  apply (proj1 (proj2 child_loggers_keep_job) Scenario.workingStore
               "job-1" "SearchIndexers" ["Prowlarr"] Linfo "query sent" None
               Scenario.dbPending
               {| ev_jobId := "job-1"; ev_level := Linfo;
                  ev_context := "SearchIndexers.Prowlarr";
                  ev_message := "query sent"; ev_metadata := None |}).
  cbn. left. reflexivity.
Defined.



End LoggerWrites.

(** ** Footprint of the search processor *)

Module ProcessorFootprint.
Import Store Triples TripleRules SearchIndexers Footprint ProcessorSpecs.

Section Generic.
Variable R : Db -> Db -> Prop.
Hypothesis R_refl : forall db, R db db.
Hypothesis R_trans : forall a b c, R a b -> R b c -> R a c.

Lemma preserves_ret {A} (a : A) : preserves R (ret a).
Proof. intros db. apply R_refl. Qed.

Lemma preserves_throw {A} e : preserves R (@throw A e).
Proof. intros db. apply R_refl. Qed.

Lemma preserves_liftOutcome {A} (o : Outcome A) : preserves R (liftOutcome o).
Proof. intros db. apply R_refl. Qed.

Lemma preserves_bind {A B} (m : M A) (k : A -> M B) :
  preserves R m -> (forall a, preserves R (k a)) -> preserves R (bind m k).
Proof.
  intros Hm Hk db. unfold bind. specialize (Hm db).
  destruct (m db) as [[a|e] db1]; cbn [snd] in *; [|exact Hm].
  eapply R_trans; [exact Hm | apply Hk].
Qed.

Lemma preserves_tryCatch {A} (body : M A) h :
  preserves R body -> (forall e, preserves R (h e)) ->
  preserves R (tryCatch body h).
Proof.
  intros Hb Hh db. unfold tryCatch. specialize (Hb db).
  destruct (body db) as [[a|e] db1]; cbn [snd] in *; [exact Hb|].
  eapply R_trans; [exact Hb | apply Hh].
Qed.

Lemma preserves_forEach {A} (f : A -> M unit) xs :
  (forall x, preserves R (f x)) -> preserves R (forEach f xs).
Proof.
  intros Hf. induction xs as [|x rest IH]; cbn [forEach].
  - apply preserves_ret.
  - apply preserves_bind; [apply Hf | intros _; exact IH].
Qed.

Lemma preserves_mapM {A B} (f : A -> M B) xs :
  (forall x, preserves R (f x)) -> preserves R (mapM f xs).
Proof.
  intros Hf. induction xs as [|x rest IH]; cbn [mapM].
  - apply preserves_ret.
  - apply preserves_bind; [apply Hf | intros y].
    apply preserves_bind; [exact IH | intros ys; apply preserves_ret].
Qed.

Lemma preserves_arrayMap {B} v (f : Json -> M B) :
  (forall x, preserves R (f x)) -> preserves R (arrayMap v f).
Proof.
  intros Hf. destruct v; cbn [arrayMap]; try apply preserves_throw.
  apply preserves_mapM. exact Hf.
Qed.

Variable E : Env.
Variable payload : SearchIndexersPayload.

Hypothesis R_log :
  forall level message,
    preserves R
      (Logger.log (logEnv E)
         (Logger.forJob (jobId payload) "SearchIndexers") level message None).
Hypothesis R_update :
  forall data,
    (forall db r, id (data db r) = id r) ->
    preserves R (request_update (requestId payload) data).
Hypothesis R_enqueue : forall j, preserves R (enqueue j).

Ltac preserves_step :=
  first
    [ apply preserves_ret
    | apply preserves_throw
    | apply R_log
    | apply preserves_liftOutcome
    | apply R_enqueue
    | apply R_update; intros ? ?; reflexivity
    | apply preserves_forEach; intros ?
    | apply preserves_arrayMap; intros ?
    | apply preserves_tryCatch; [|intros ?]
    | apply preserves_bind; [|intros ?]
    | match goal with
      | [ |- preserves _ (match ?x with _ => _ end) ] => destruct x
      end ].

Lemma preserves_logResults count results : forall i,
  preserves R
    (logResults E (Logger.forJob (jobId payload) "SearchIndexers")
       count i results).
Proof.
  induction results as [|r rest IH]; intros i; cbn [logResults].
  - apply preserves_ret.
  - apply preserves_bind; [|intros _; apply IH].
    unfold logResult, SearchIndexers.info, Logger.info.
    repeat preserves_step.
Qed.

(** Whatever relation the three writes of the processor keep, the
    processor keeps. *)
Lemma preserves_processSearchIndexers :
  preserves R (processSearchIndexers E payload).
Proof.
  unfold processSearchIndexers, searchAndSelect, SearchIndexers.info,
    SearchIndexers.warn, SearchIndexers.error, Logger.info, Logger.warn,
    Logger.error.
  repeat first [apply preserves_logResults | preserves_step].
Qed.

End Generic.

Lemma growsBy_refl ok db : growsBy ok db db.
Proof. exists []. rewrite app_nil_r. split; [reflexivity | constructor]. Qed.

Lemma growsBy_same ok a b : job_events b = job_events a -> growsBy ok a b.
Proof.
  intros H. exists []. rewrite app_nil_r. split; [exact H | constructor].
Qed.

Lemma growsBy_trans ok a b c : growsBy ok a b -> growsBy ok b c -> growsBy ok a c.
Proof.
  intros (t1 & E1 & H1) (t2 & E2 & H2). exists (t1 ++ t2)%list.
  rewrite E2, E1, app_assoc. split; [reflexivity|].
  apply Forall_app. split; assumption.
Qed.

(** X8: The processor only appends to the job events, keeps the events that
    were there in their order, and every event it adds carries the job id
    of the payload, the context SearchIndexers, a level among info, warn
    and error that passes the filter, and no metadata. *)
Theorem processor_events_tagged :
  forall E payload db,
    exists tail,
      job_events (snd (processSearchIndexers E payload db))
      = (job_events db ++ tail)%list
      /\ Forall (taggedFor E payload) tail.
Proof.
  intros E payload db.
  apply (preserves_processSearchIndexers (growsBy (taggedFor E payload))
           (growsBy_refl _) (growsBy_trans _) E payload).
  - intros level message d.
    destruct (LoggerWrites.log_events_cases (logEnv E)
                (Logger.forJob (jobId payload) "SearchIndexers")
                level message None d) as [H | (Hp & Hj & Hd & H)].
    + apply growsBy_same. exact H.
    + eexists. split; [exact H|]. constructor; [|constructor].
      unfold taggedFor. cbn [Logger.eventOf ev_jobId ev_context ev_level
                             ev_metadata Logger.forJob Logger.context
                             Logger.jobId].
      repeat split; try assumption.
      unfold Logger.hasJobId in Hj. cbn in Hj.
      destruct (jobId payload); [reflexivity | discriminate].
  - intros data _ d. unfold request_update.
    destruct (existsb_id _ _); apply growsBy_same; reflexivity.
  - intros j d. apply growsBy_same. reflexivity.
Qed.

Lemma silentStep_refl db : silentStep db db.
Proof. split; reflexivity. Qed.

Lemma silentStep_trans a b c :
  silentStep a b -> silentStep b c -> silentStep a c.
Proof. intros (H1 & H2) (H3 & H4). split; congruence. Qed.

Lemma passes_quiet L level :
  Logger.CONFIGURED_LOG_LEVEL L = Logger.quiet -> passes L level = false.
Proof.
  intros H. unfold passes, Logger.CONFIGURED_LOG_PRIORITY. rewrite H.
  destruct level; reflexivity.
Qed.

(** X9: With the log level [quiet] the processor is silent altogether: it
    writes no console line and, although its logger is job-aware, no job
    event either, whatever the outcome. *)
Theorem processor_quiet_is_silent :
  forall E payload db,
    Logger.CONFIGURED_LOG_LEVEL (logEnv E) = Logger.quiet ->
    job_events (snd (processSearchIndexers E payload db)) = job_events db
    /\ console (snd (processSearchIndexers E payload db)) = console db.
Proof.
  intros E payload db Hq.
  apply (preserves_processSearchIndexers silentStep
           silentStep_refl silentStep_trans E payload).
  - intros level message d. rewrite LoggerWrites.log_exact.
    rewrite (passes_quiet _ _ Hq). apply silentStep_refl.
  - intros data _ d. unfold request_update.
    destruct (existsb_id _ _); split; reflexivity.
  - intros j d. split; reflexivity.
Qed.

Lemma processor_quiet_is_silent_witness :
  job_events
    (snd (processSearchIndexers
            (withLogEnv Cases.envRanked Cases.quietStore)
            Scenario.payload Scenario.dbPending))
  = []
  /\ console
       (snd (processSearchIndexers
               (withLogEnv Cases.envRanked Cases.quietStore)
               Scenario.payload Scenario.dbPending))
     = [].
Proof.
  apply (processor_quiet_is_silent
           (withLogEnv Cases.envRanked Cases.quietStore)
           Scenario.payload Scenario.dbPending).
  reflexivity.
Defined.

Lemma rowsKept_refl rid db : rowsKept rid db db.
Proof. repeat split; auto. Qed.

Lemma rowsKept_trans rid a b c :
  rowsKept rid a b -> rowsKept rid b c -> rowsKept rid a c.
Proof.
  intros (H1 & H2 & H3 & H4) (H5 & H6 & H7 & H8).
  split; [congruence|]. split; [|split; congruence].
  intros r Hr. rewrite (H2 r Hr). apply H6. exact Hr.
Qed.

Lemma rowsKept_update rid data db :
  (forall d r, id (data d r) = id r) ->
  rowsKept rid db (snd (request_update rid data db)).
Proof.
  intros Hid. unfold request_update.
  destruct (existsb_id rid (requests db)); [|apply rowsKept_refl].
  cbn [snd]. unfold rowsKept, with_requests.
  cbn [requests configuration now].
  split; [|split; [|split; reflexivity]].
  - rewrite map_map. apply map_ext. intros r.
    destruct (String.eqb (id r) rid); [apply Hid | reflexivity].
  - intros r Hr. rewrite in_map_iff. split.
    + intros Hin. exists r. split; [|exact Hin].
      destruct (String.eqb (id r) rid) eqn:Eq; [|reflexivity].
      apply String.eqb_eq in Eq. contradiction.
    + intros (r0 & Er & Hin).
      destruct (String.eqb (id r0) rid) eqn:Eq; [|subst; exact Hin].
      apply String.eqb_eq in Eq. exfalso. apply Hr.
      rewrite <- Er, Hid. exact Eq.
Qed.

(** X10: The processor neither adds nor removes a Request row, leaves the rows
    of every other request exactly as they are, and does not touch the
    configuration table or the clock, whatever the outcome. *)
Theorem processor_keeps_other_rows :
  forall E payload db,
    let db' := snd (processSearchIndexers E payload db) in
    map id (requests db') = map id (requests db)
    /\ (forall r, id r <> requestId payload ->
                  (In r (requests db) <-> In r (requests db')))
    /\ configuration db' = configuration db
    /\ now db' = now db.
Proof.
  intros E payload db.
  apply (preserves_processSearchIndexers (rowsKept (requestId payload))
           (rowsKept_refl _) (rowsKept_trans _) E payload).
  - intros level message d.
    destruct (LoggerProofs.log_frame (logEnv E)
                (Logger.forJob (jobId payload) "SearchIndexers")
                level message None d) as (H1 & _ & H3 & H4).
    cbv zeta in H1, H3, H4. unfold rowsKept. rewrite H1, H3, H4.
    repeat split; auto.
  - intros data Hid d. apply rowsKept_update.
    intros d0 r. apply Hid.
  - intros j d. repeat split; auto.
Qed.

Lemma processor_keeps_other_rows_witness :
  In Cases.bystander
     (requests
        (snd (processSearchIndexers Scenario.envNoConfig Scenario.payload
                Cases.dbTwo))).
Proof.
  apply (proj1 (proj2 (processor_keeps_other_rows Scenario.envNoConfig
                         Scenario.payload Cases.dbTwo))
               Cases.bystander).
  - discriminate.
  - right. left. reflexivity.
Defined.

End ProcessorFootprint.

(** ** Outcomes of the search processor *)

Module ProcessorOutcomes.
Import Store Triples TripleRules SearchIndexers Footprint ProcessorSpecs.
Import ProcessorFootprint.

Lemma agree_refl db : agree db db.
Proof. repeat split. Qed.

Lemma agree_trans a b c : agree a b -> agree b c -> agree a c.
Proof.
  intros (H1 & H2 & H3 & H4) (H5 & H6 & H7 & H8).
  repeat split; congruence.
Qed.

Lemma agree_log L lg lv m md : preserves agree (Logger.log L lg lv m md).
Proof.
  intros db. destruct (LoggerProofs.log_frame L lg lv m md db)
    as (H1 & H2 & H3 & H4).
  repeat split; congruence.
Qed.

Lemma pipeline_agree rs js t a b : agree a b -> pipeline rs js t a -> pipeline rs js t b.
Proof.
  intros (H1 & H2 & H3 & H4) (H5 & H6 & H7). repeat split; congruence.
Qed.

Lemma ends_bind_agree {A B} rs js t (m : M A) (k : A -> M B) Q :
  preserves agree m ->
  (forall e db, pipeline rs js t db -> Q (Threw e) db) ->
  (forall a, ends (pipeline rs js t) (k a) Q) ->
  ends (pipeline rs js t) (bind m k) Q.
Proof.
  intros Hm Ht Hk db Hdb. unfold bind. specialize (Hm db).
  destruct (m db) as [[a|e] db1]; cbn [fst snd] in *.
  - apply Hk. exact (pipeline_agree _ _ _ _ _ Hm Hdb).
  - apply Ht. exact (pipeline_agree _ _ _ _ _ Hm Hdb).
Qed.

Lemma ends_bind_returns {A B} P (m : M A) R (k : A -> M B) Q :
  returns P m R -> (forall a, ends (R a) (k a) Q) -> ends P (bind m k) Q.
Proof.
  intros Hm Hk db Hdb. unfold bind.
  destruct (Hm db Hdb) as (a & db1 & -> & HR). apply Hk. exact HR.
Qed.

Lemma ends_throw {A} P e (Q : Outcome A -> Db -> Prop) :
  (forall db, P db -> Q (Threw e) db) -> ends P (throw e) Q.
Proof. intros H db Hdb. apply H. exact Hdb. Qed.

Lemma ends_ret {A} P (a : A) (Q : Outcome A -> Db -> Prop) :
  (forall db, P db -> Q (Returned a) db) -> ends P (ret a) Q.
Proof. intros H db Hdb. apply H. exact Hdb. Qed.

Lemma ends_tryCatch {A} P (body : M A) Q0 h (Q : Outcome A -> Db -> Prop) :
  ends P body Q0 ->
  (forall a db, Q0 (Returned a) db -> Q (Returned a) db) ->
  (forall e, ends (Q0 (Threw e)) (h e) Q) ->
  ends P (tryCatch body h) Q.
Proof.
  intros Hb Hr Hh db Hdb. unfold tryCatch. specialize (Hb db Hdb).
  destruct (body db) as [[a|e] db1]; cbn [fst snd] in *.
  - apply Hr. exact Hb.
  - apply Hh. exact Hb.
Qed.

Ltac agree_step :=
  first
    [ apply preserves_ret; exact agree_refl
    | apply preserves_throw; exact agree_refl
    | apply agree_log
    | apply preserves_liftOutcome; exact agree_refl
    | apply preserves_forEach; [exact agree_refl | exact agree_trans | intros ?]
    | apply preserves_arrayMap; [exact agree_refl | exact agree_trans | intros ?]
    | apply preserves_bind; [exact agree_trans | | intros ?]
    | match goal with
      | [ |- preserves _ (match ?x with _ => _ end) ] => destruct x
      end ].

Lemma agree_logResults E lg count results : forall i,
  preserves agree (logResults E lg count i results).
Proof.
  induction results as [|r rest IH]; intros i; cbn [logResults].
  - apply preserves_ret. exact agree_refl.
  - apply preserves_bind; [exact agree_trans | | intros _; apply IH].
    unfold logResult, SearchIndexers.info, Logger.info.
    repeat agree_step.
Qed.

Ltac ends_step Ht :=
  first
    [ apply ends_throw; intros ?; apply Ht
    | apply ends_bind_agree;
      [ solve [ apply agree_logResults | repeat agree_step ]
      | exact Ht
      | intros ? ]
    | match goal with
      | [ |- ends _ (match ?x with _ => _ end) _ ] => destruct x eqn:?
      end ].

(** The [try] block, from the first update on. *)
Lemma searchAndSelect_ends E lg payload rs js t :
  existsb_id (requestId payload) rs = true ->
  ends (pipeline rs js t) (searchAndSelect E lg payload)
    (processorPost payload rs js t (fun _ => searchingRows payload rs t)).
Proof.
  intros Hex. unfold searchAndSelect. cbv zeta.
  eapply ends_bind_returns.
  { apply (returns_request_update _ _ (searching t)); [exact Hex|].
    intros db r Hnow. unfold searching. rewrite Hnow. reflexivity. }
  intros [].
  fold (searchingRows payload rs t).
  assert (forall e db,
             pipeline (searchingRows payload rs t) js t db ->
             processorPost payload rs js t
               (fun _ => searchingRows payload rs t) (Threw e) db) as Ht
      by (intros e db H; exact H).
  assert (existsb_id (requestId payload) (searchingRows payload rs t) = true)
    as Hex1
      by (unfold searchingRows; rewrite existsb_id_updated;
          [exact Hex | reflexivity]).
  unfold SearchIndexers.info, SearchIndexers.warn, Logger.info, Logger.warn.
  repeat ends_step Ht.
  - eapply ends_bind_returns.
    { apply (returns_request_update _ _ (awaiting noTorrents t));
        [exact Hex1|].
      intros db r Hnow. unfold awaiting. rewrite Hnow. reflexivity. }
    intros []. apply ends_ret. intros db Hdb.
    split; [reflexivity|]. left. repeat split.
    exists noTorrents. split; [left; reflexivity | exact Hdb].
  - eapply ends_bind_returns.
    { apply (returns_request_update _ _ (awaiting noQuality t));
        [exact Hex1|].
      intros db r Hnow. unfold awaiting. rewrite Hnow. reflexivity. }
    intros []. apply ends_ret. intros db Hdb.
    split; [reflexivity|]. left. repeat split.
    exists noQuality. split; [right; reflexivity | exact Hdb].
  - eapply ends_bind_returns; [apply returns_enqueue|].
    intros []. apply ends_ret. intros db Hdb.
    split; [reflexivity|]. right. split; [reflexivity|].
    match goal with
    | [ H : filteredResults _ = ?b :: _ |- _ ] =>
        exists b; split; [exact (SearchIndexersProofs.head_qualifies _ _ _ H)|]
    end.
    split; [reflexivity | exact Hdb].
Qed.

(** X11: If the Request row exists, the processor ends in one of three ways.
    It returns a failure, and the Request awaits another search with one
    of the two retry messages; or it returns a success, the Request is
    still searching and one download job for a result that passed the
    dual threshold has been added behind the jobs already queued; or it
    throws, and the Request is failed with the message of the error
    thrown, the work list unchanged.  In every case the search attempt
    has been counted once, and the value returned names the Request. *)
Theorem processor_outcomes :
  forall E payload rs js t,
    existsb_id (requestId payload) rs = true ->
    ends (pipeline rs js t) (processSearchIndexers E payload)
      (processorPost payload rs js t (failedRows payload rs t)).
Proof.
  intros E payload rs js t Hex. unfold processSearchIndexers. cbv zeta.
  unfold SearchIndexers.info, SearchIndexers.error, Logger.info, Logger.error.
  eapply ends_bind_returns; [apply returns_log|]. intros [].
  eapply ends_tryCatch.
  - apply searchAndSelect_ends. exact Hex.
  - intros res db H. exact H.
  - intros e. cbn [processorPost].
    eapply ends_bind_returns; [apply returns_log|]. intros [].
    eapply ends_bind_returns.
    { apply (returns_request_update _ _ (failedWith (storedMessage e) t)).
      - unfold searchingRows. rewrite existsb_id_updated;
          [exact Hex | reflexivity].
      - intros db r Hnow. unfold failedWith, storedMessage.
        rewrite Hnow. reflexivity. }
    intros []. apply ends_throw. intros db Hdb. exact Hdb.
Qed.

Lemma processor_outcomes_witness :
  processorPost Scenario.payload (requests Scenario.dbPending) [] 
    (now Scenario.dbPending)
    (failedRows Scenario.payload (requests Scenario.dbPending)
       (now Scenario.dbPending))
    (fst (processSearchIndexers Scenario.envNoConfig Scenario.payload
            Scenario.dbPending))
    (snd (processSearchIndexers Scenario.envNoConfig Scenario.payload
            Scenario.dbPending)).
Proof.
  apply (processor_outcomes Scenario.envNoConfig Scenario.payload
           (requests Scenario.dbPending) [] (now Scenario.dbPending)).
  - reflexivity.
  - repeat split.
Defined.

End ProcessorOutcomes.

(** ** Paths through the search processor *)

Module ProcessorPaths.
Import Store Triples TripleRules SearchIndexers Footprint ProcessorSpecs.
Import SearchIndexersProofs.

Lemma quietly_ret {A} (a : A) : quietly (ret a).
Proof. intros rs js t. apply returns_ret. intros db H. exact H. Qed.

Lemma quietly_log L lg lv m md : quietly (Logger.log L lg lv m md).
Proof. intros rs js t. apply returns_log. Qed.

Lemma quietly_bind {A B} (m : M A) (k : A -> M B) :
  quietly m -> (forall a, quietly (k a)) -> quietly (bind m k).
Proof.
  intros Hm Hk rs js t. eapply returns_bind; [apply Hm|].
  intros a. apply Hk.
Qed.

Lemma quietly_forEach {A} (f : A -> M unit) xs :
  (forall x, quietly (f x)) -> quietly (forEach f xs).
Proof.
  intros Hf. induction xs as [|x rest IH]; cbn [forEach].
  - apply quietly_ret.
  - apply quietly_bind; [apply Hf | intros _; exact IH].
Qed.

Ltac quietly_step :=
  first
    [ apply quietly_ret
    | apply quietly_log
    | apply quietly_forEach; intros ?
    | apply quietly_bind; [|intros ?]
    | match goal with
      | [ |- quietly (match ?x with _ => _ end) ] => destruct x
      end ].

Lemma quietly_logResults E lg count results : forall i,
  quietly (logResults E lg count i results).
Proof.
  induction results as [|r rest IH]; intros i; cbn [logResults].
  - apply quietly_ret.
  - apply quietly_bind; [|intros _; apply IH].
    unfold logResult. unfold_loggers. repeat quietly_step.
Qed.

Lemma searchAndSelect_selected E lg payload items flags results best rest
      rs js t :
  existsb_id (requestId payload) rs = true ->
  searchReturns E payload items flags results ->
  results <> [] ->
  filteredResults
    (rankTorrents E results
       (ref_title (audiobook payload), ref_author (audiobook payload))
       (map priorityOf items) flags) = best :: rest ->
  returns (pipeline rs js t)
    (searchAndSelect E lg payload)
    (fun res db =>
       res = selected payload (S (List.length rest)) best
       /\ pipeline (searchingRows payload rs t)
            (js ++ [downloadJobFor payload best])%list t db).
Proof.
  intros Hex ((str & flagStr & Hcfg & Htr & Hparse & Hne & Hnn & Hfl & Hpf)
              & Hsvc & Hsearch) Hres Hfilt.
  unfold searchAndSelect.
  eapply returns_bind.
  { apply (returns_request_update _ _ (searching t)); [exact Hex|].
    intros db r Hnow. unfold searching. rewrite Hnow. reflexivity. }
  intros [].
  eapply returns_bind; [apply returns_liftOutcome; exact Hcfg|].
  intros x. apply returns_pure_pre. intros ->.
  destruct str as [|c0 str0]; [discriminate Htr|].
  eapply returns_bind; [apply returns_liftOutcome; exact Hparse|].
  intros x. apply returns_pure_pre. intros ->.
  eapply returns_bind; [apply returns_ids; exact Hnn|].
  intros ids. apply returns_pure_pre. intros ->.
  destruct items as [|i0 items0]; [congruence|].
  cbn [map].
  eapply returns_bind; [apply returns_priorities; exact Hnn|].
  intros ps. apply returns_pure_pre. intros ->.
  eapply returns_bind; [apply returns_liftOutcome; exact Hfl|].
  intros x. apply returns_pure_pre. intros ->.
  rewrite flags_match.
  eapply returns_bind; [apply returns_liftOutcome; exact Hpf|].
  intros x. apply returns_pure_pre. intros ->.
  step_log.
  eapply returns_bind; [apply returns_liftOutcome; exact Hsvc|].
  intros x. apply returns_pure_pre. intros ->.
  step_log.
  eapply returns_bind; [apply returns_liftOutcome; exact Hsearch|].
  intros x. apply returns_pure_pre. intros ->.
  step_log.
  destruct results as [|r0 results0]; [congruence|].
  cbv zeta. rewrite Hfilt.
  step_log.
  eapply returns_bind.
  { destruct (_ <? _)%nat; [unfold_loggers; apply returns_log|].
    apply returns_ret. intros db H. exact H. }
  intros [].
  do 5 step_log.
  eapply returns_bind; [apply quietly_logResults|]. intros [].
  do 2 step_log.
  eapply returns_bind; [apply returns_enqueue|]. intros [].
  apply returns_ret. intros db H. split; [reflexivity | exact H].
Qed.

(** X12: When the search is reached and returns results of which at least one
    passes the dual threshold, the processor selects the first result in
    the order of the ranking engine that passes it: it returns a success
    with the count of passing results and the summary of that result,
    leaves the Request searching, and adds one download job for that
    result behind the jobs already queued. *)
Theorem processor_selects_first_passing :
  forall E payload items flags results best rest rs js t,
    existsb_id (requestId payload) rs = true ->
    searchReturns E payload items flags results ->
    results <> [] ->
    filteredResults
      (rankTorrents E results
         (ref_title (audiobook payload), ref_author (audiobook payload))
         (map priorityOf items) flags) = best :: rest ->
    returns (pipeline rs js t)
      (processSearchIndexers E payload)
      (fun res db =>
         res = selected payload (S (List.length rest)) best
         /\ pipeline (searchingRows payload rs t)
              (js ++ [downloadJobFor payload best])%list t db).
Proof.
  intros E payload items flags results best rest rs js t Hex Hs Hres Hfilt.
  unfold processSearchIndexers.
  step_log. apply returns_tryCatch.
  exact (searchAndSelect_selected _ _ _ _ _ _ _ _ _ _ _ Hex Hs Hres Hfilt).
Qed.

Lemma processor_selects_first_passing_witness :
  exists res db',
    processSearchIndexers Cases.envRanked Scenario.payload Cases.dbTwo
    = (Returned res, db')
    /\ res = selected Scenario.payload 2 Cases.strong
    /\ pipeline (searchingRows Scenario.payload (requests Cases.dbTwo) 1000)
         [downloadJobFor Scenario.payload Cases.strong] 1000 db'.
Proof.
  apply (processor_selects_first_passing Cases.envRanked Scenario.payload
           [JObj [("id", JNum 1); ("priority", JNum 10)]] (JArr [])
           [Scenario.hit] Cases.strong [Cases.fair]
           (requests Cases.dbTwo) [] 1000).
  - reflexivity.
  - split; [|split; reflexivity].
    exists "[{id:1,priority:10}]", None.
    repeat split; try reflexivity. discriminate.
  - discriminate.
  - reflexivity.
  - repeat split.
Defined.

(** X13: When the Request row is missing, the processor throws without
    changing Request table, work list or clock: the update at the start
    fails, and so does the update of the [catch] block. *)
Theorem processor_missing_request :
  forall E payload rs js t,
    existsb_id (requestId payload) rs = false ->
    exists e,
      throws (pipeline rs js t) (processSearchIndexers E payload) e
        (pipeline rs js t).
Proof.
  intros E payload rs js t Hex.
  exists (Error "Record to update not found.").
  assert (forall data,
             throws (pipeline rs js t)
               (request_update (requestId payload) data)
               (Error "Record to update not found.") (pipeline rs js t))
    as Hup.
  { intros data db (Hr & Hj & Ht). exists db.
    unfold request_update. rewrite Hr, Hex.
    split; [reflexivity | repeat split; assumption]. }
  unfold processSearchIndexers.
  eapply throws_bind_r; [unfold_loggers; apply returns_log|].
  intros [].
  eapply throws_tryCatch.
  - unfold searchAndSelect. apply throws_bind_l. apply Hup.
  - eapply throws_bind_r; [unfold_loggers; apply returns_log|].
    intros []. apply throws_bind_l. apply Hup.
Qed.

Lemma processor_missing_request_witness :
  exists e db',
    processSearchIndexers Cases.envRanked
      {| requestId := "req-404";
         audiobook := audiobook Scenario.payload;
         jobId := Some "job-1" |}
      Cases.dbTwo
    = (Threw e, db')
    /\ pipeline (requests Cases.dbTwo) [] 1000 db'.
Proof.
  destruct (processor_missing_request Cases.envRanked
              {| requestId := "req-404";
                 audiobook := audiobook Scenario.payload;
                 jobId := Some "job-1" |}
              (requests Cases.dbTwo) [] 1000 eq_refl) as [e H].
  exists e. apply (H Cases.dbTwo). repeat split.
Defined.

Lemma same_refl {A} (m : M A) : same m m.
Proof. intros db. reflexivity. Qed.

Lemma same_bind {A B} (m1 m2 : M A) (k1 k2 : A -> M B) :
  same m1 m2 -> (forall a, same (k1 a) (k2 a)) ->
  same (bind m1 k1) (bind m2 k2).
Proof.
  intros Hm Hk db. unfold bind. rewrite (Hm db).
  destruct (m2 db) as [[a|e] db1]; [apply Hk | reflexivity].
Qed.

Lemma same_tryCatch {A} (b1 b2 : M A) h1 h2 :
  same b1 b2 -> (forall e, same (h1 e) (h2 e)) ->
  same (tryCatch b1 h1) (tryCatch b2 h2).
Proof.
  intros Hb Hh db. unfold tryCatch. rewrite (Hb db).
  destruct (b2 db) as [[a|e] db1]; [reflexivity | apply Hh].
Qed.

(** X14: The processor consults the indexer search with one query only: the
    title of the audiobook, in category 3030, with at least one seeder
    and at most 100 results, on the enabled indexers.  Two searches that
    answer this query alike make the processor end alike, in outcome and
    in store. *)
Theorem processor_search_query :
  forall E payload search,
    (forall ids,
        search (ref_title (audiobook payload)) (searchOptionsFor ids)
        = prowlarr_search E (ref_title (audiobook payload))
            (searchOptionsFor ids)) ->
    forall db,
      processSearchIndexers (withSearch E search) payload db
      = processSearchIndexers E payload db.
Proof.
  intros E payload search Hs.
  change (same (processSearchIndexers (withSearch E search) payload)
               (processSearchIndexers E payload)).
  unfold processSearchIndexers, searchAndSelect. unfold_loggers.
  cbn [withSearch logEnv configService_get JSON_parse getProwlarrService
       prowlarr_search rankTorrents].
  cbv zeta.
  apply same_bind; [apply same_refl | intros _].
  apply same_tryCatch; [|intros e; apply same_refl].
  repeat first
    [ apply same_bind; [apply same_refl | intros ?]
    | match goal with
      | [ |- same (match ?x with _ => _ end) _ ] => destruct x
      end
    | apply same_refl ].
  unfold searchOptionsFor in Hs. rewrite Hs. apply same_refl.
Qed.

Lemma processor_search_query_witness :
  processSearchIndexers (withSearch Cases.envRanked Cases.titleOnly)
    Scenario.payload Scenario.dbPending
  = processSearchIndexers Cases.envRanked Scenario.payload Scenario.dbPending.
Proof.
  apply (processor_search_query Cases.envRanked Scenario.payload
           Cases.titleOnly).
  intros ids. reflexivity.
Defined.

End ProcessorPaths.

(** ** The Fetch E-book route, call by call *)

Module FetchEbookCalls.
Import Store Triples TripleRules FetchEbook FetchEbookSpecs.
Import FetchEbookProofs.

Lemma bind_get {B} (k : Db -> M B) db : bind get k db = k db db.
Proof. reflexivity. Qed.

Lemma bind_request_create {B} row (k : Request -> M B) db :
  bind (request_create row) k db
  = k row (with_requests db (requests db ++ [row])%list).
Proof. reflexivity. Qed.

Lemma bind_enqueue {B} j (k : unit -> M B) db :
  bind (enqueue j) k db = k tt (with_jobs db (jobs db ++ [j])%list).
Proof. reflexivity. Qed.

Lemma bind_request_update {B} rid data (k : unit -> M B) db :
  existsb_id rid (requests db) = true ->
  bind (request_update rid data) k db
  = k tt (with_requests db
            (map (fun r => if String.eqb (id r) rid then data db r else r)
                 (requests db))).
Proof. intros H. unfold bind, request_update. rewrite H. reflexivity. Qed.

(** A logger without job id writes to the console only. *)
Lemma bind_log_create {B} L ctx lv msg md (k : unit -> M B) db :
  exists c,
    bind (Logger.log L (Logger.create ctx) lv msg md) k db
    = k tt (with_console db c).
Proof.
  destruct (LoggerProofs.log_effect L (Logger.create ctx) lv msg md db)
    as (c & evs & Erun & [-> | (H & _)]); [|discriminate H].
  exists c. unfold bind. rewrite Erun. reflexivity.
Qed.

Lemma POST_create_eq E pid db p :
  authenticated E = true -> isAdmin E = true ->
  featureEnabled db = true ->
  findById pid db = Some p ->
  includes ["downloaded"; "available"] (status p) = true ->
  find (existingEbookWhere pid) (requests db) = None ->
  exists c,
    POST E pid db = (Returned (created (newId E db)), afterCreate E pid p c db).
Proof.
  intros Hauth Hadm Hflag Hparent Hdone Hfind.
  unfold POST. rewrite Hauth, Hadm. cbn [negb].
  unfold tryCatch, handler.
  rewrite bind_configuration_findUnique.
  change (valueIs "true" _) with (featureEnabled db). rewrite Hflag.
  cbn [negb].
  rewrite bind_request_findUnique, Hparent, Hdone. cbn [negb].
  rewrite bind_request_findFirst, Hfind.
  rewrite bind_get, bind_request_create.
  unfold Logger.info, logger.
  match goal with
  | [ |- context [bind (Logger.log ?L (Logger.create ?x) ?lv ?m ?md) ?k ?d] ] =>
      destruct (bind_log_create L x lv m md k d) as [c1 ->]
  end.
  rewrite bind_enqueue.
  match goal with
  | [ |- context [bind (Logger.log ?L (Logger.create ?x) ?lv ?m ?md) ?k ?d] ] =>
      destruct (bind_log_create L x lv m md k d) as [c2 ->]
  end.
  exists c2. reflexivity.
Qed.

Lemma POST_retry_eq E pid db p existing :
  authenticated E = true -> isAdmin E = true ->
  featureEnabled db = true ->
  findById pid db = Some p ->
  includes ["downloaded"; "available"] (status p) = true ->
  find (existingEbookWhere pid) (requests db) = Some existing ->
  includes ["failed"; "awaiting_search"] (status existing) = true ->
  exists c,
    POST E pid db = (Returned (retried (id existing)), afterRetry p existing c db).
Proof.
  intros Hauth Hadm Hflag Hparent Hdone Hfind Hretry.
  unfold POST. rewrite Hauth, Hadm. cbn [negb].
  unfold tryCatch, handler.
  rewrite bind_configuration_findUnique.
  change (valueIs "true" _) with (featureEnabled db). rewrite Hflag.
  cbn [negb].
  rewrite bind_request_findUnique, Hparent, Hdone. cbn [negb].
  rewrite bind_request_findFirst, Hfind, Hretry.
  rewrite bind_request_update by exact (find_existsb_id _ _ _ Hfind).
  rewrite bind_enqueue.
  unfold Logger.info, logger.
  match goal with
  | [ |- context [bind (Logger.log ?L (Logger.create ?x) ?lv ?m ?md) ?k ?d] ] =>
      destruct (bind_log_create L x lv m md k d) as [c1 ->]
  end.
  exists c1. reflexivity.
Qed.

(** The three ways a call of the route can go. *)
Lemma POST_cases E pid db :
  (exists resp, POST E pid db = (Returned resp, db) /\ started resp = None)
  \/ (exists p existing c,
        findById pid db = Some p /\ complete p
        /\ find (existingEbookWhere pid) (requests db) = Some existing
        /\ retryable existing
        /\ POST E pid db
           = (Returned (retried (id existing)), afterRetry p existing c db))
  \/ (exists p c,
        findById pid db = Some p /\ complete p
        /\ find (existingEbookWhere pid) (requests db) = None
        /\ POST E pid db
           = (Returned (created (newId E db)), afterCreate E pid p c db)).
Proof.
  destruct (authenticated E) eqn:Hauth;
    [|left; eexists; unfold POST; rewrite Hauth; split; reflexivity].
  destruct (isAdmin E) eqn:Hadm;
    [|left; eexists; unfold POST; rewrite Hauth, Hadm; split; reflexivity].
  destruct (featureEnabled db) eqn:Hflag.
  2:{ left. eexists. unfold POST. rewrite Hauth, Hadm. cbn [negb].
      unfold tryCatch, handler. rewrite bind_configuration_findUnique.
      change (valueIs "true" _) with (featureEnabled db). rewrite Hflag.
      split; reflexivity. }
  destruct (findById pid db) as [p|] eqn:Hparent.
  2:{ left. eexists. unfold POST. rewrite Hauth, Hadm. cbn [negb].
      unfold tryCatch, handler. rewrite bind_configuration_findUnique.
      change (valueIs "true" _) with (featureEnabled db). rewrite Hflag.
      cbn [negb]. rewrite bind_request_findUnique, Hparent.
      split; reflexivity. }
  destruct (includes ["downloaded"; "available"] (status p)) eqn:Hdone.
  2:{ left. eexists. unfold POST. rewrite Hauth, Hadm. cbn [negb].
      unfold tryCatch, handler. rewrite bind_configuration_findUnique.
      change (valueIs "true" _) with (featureEnabled db). rewrite Hflag.
      cbn [negb]. rewrite bind_request_findUnique, Hparent, Hdone.
      split; reflexivity. }
  destruct (find (existingEbookWhere pid) (requests db)) as [existing|]
    eqn:Hfind.
  - destruct (includes ["failed"; "awaiting_search"] (status existing))
      eqn:Hretry.
    + right. left.
      destruct (POST_retry_eq E pid db p existing Hauth Hadm Hflag Hparent
                  Hdone Hfind Hretry) as [c Hc].
      exists p, existing, c.
      repeat split; try assumption; apply includes_two; assumption.
    + left. eexists. unfold POST. rewrite Hauth, Hadm. cbn [negb].
      unfold tryCatch, handler. rewrite bind_configuration_findUnique.
      change (valueIs "true" _) with (featureEnabled db). rewrite Hflag.
      cbn [negb]. rewrite bind_request_findUnique, Hparent, Hdone.
      cbn [negb]. rewrite bind_request_findFirst, Hfind, Hretry.
      split; reflexivity.
  - right. right.
    destruct (POST_create_eq E pid db p Hauth Hadm Hflag Hparent Hdone Hfind)
      as [c Hc].
    exists p, c. repeat split; try assumption.
    apply includes_two; assumption.
Qed.

Lemma POST_exists_eq E pid db p existing :
  authenticated E = true -> isAdmin E = true ->
  featureEnabled db = true ->
  findById pid db = Some p ->
  includes ["downloaded"; "available"] (status p) = true ->
  find (existingEbookWhere pid) (requests db) = Some existing ->
  includes ["failed"; "awaiting_search"] (status existing) = false ->
  POST E pid db
  = (Returned (alreadyExists (status existing) (id existing)), db).
Proof.
  intros Hauth Hadm Hflag Hparent Hdone Hfind Hretry.
  unfold POST. rewrite Hauth, Hadm. cbn [negb].
  unfold tryCatch, handler. rewrite bind_configuration_findUnique.
  change (valueIs "true" _) with (featureEnabled db). rewrite Hflag.
  cbn [negb]. rewrite bind_request_findUnique, Hparent, Hdone.
  cbn [negb]. rewrite bind_request_findFirst, Hfind, Hretry.
  reflexivity.
Qed.

Lemma find_append {A} (f : A -> bool) l l' :
  find f (l ++ l')%list
  = match find f l with Some x => Some x | None => find f l' end.
Proof.
  induction l as [|x l IH]; [reflexivity|].
  cbn [app find]. destruct (f x); [reflexivity | exact IH].
Qed.

Lemma find_updated w rid f rs :
  (forall r, w (f r) = w r) ->
  find w (updated rid f rs)
  = option_map (fun r => if String.eqb (id r) rid then f r else r)
      (find w rs).
Proof.
  intros Hw. unfold updated. induction rs as [|r rs IH]; [reflexivity|].
  cbn [map find].
  destruct (String.eqb (id r) rid) eqn:Eid; rewrite ?Hw;
    (destruct (w r); [cbn [option_map]; rewrite Eid; reflexivity | exact IH]).
Qed.

Lemma unique_by_id rs a b :
  NoDup (map id rs) -> In a rs -> In b rs -> id a = id b -> a = b.
Proof.
  induction rs as [|r rs IH]; intros Hnd Ha Hb Hid; [destruct Ha|].
  cbn [map] in Hnd. inversion Hnd as [|x l Hnotin Hnd']; subst.
  destruct Ha as [-> | Ha], Hb as [-> | Hb].
  - reflexivity.
  - exfalso. apply Hnotin. rewrite Hid. apply in_map. exact Hb.
  - exfalso. apply Hnotin. rewrite <- Hid. apply in_map. exact Ha.
  - exact (IH Hnd' Ha Hb Hid).
Qed.

(** A request that is complete cannot be retried: the two lists of
    statuses are disjoint. *)
Lemma complete_not_retryable r : complete r -> retryable r -> False.
Proof. intros [H | H] [H' | H']; rewrite H in H'; discriminate H'. Qed.

(** X15: With the gates passed, the feature on, the parent complete and no
    undeleted ebook request of the parent in the table, the route appends
    one pending ebook row of the parent's user and audiobook, enqueues one
    search job for the new row, and answers with its id; configuration,
    job events and clock stay as they are. *)
Theorem fetch_creates_ebook_request :
  forall E pid db p,
    authenticated E = true -> isAdmin E = true ->
    featureEnabled db = true ->
    findById pid db = Some p ->
    complete p ->
    find (existingEbookWhere pid) (requests db) = None ->
    exists db',
      POST E pid db = (Returned (created (newId E db)), db')
      /\ requests db' = (requests db ++ [ebookRow E pid p db])%list
      /\ jobs db' = (jobs db ++ [searchEbookJobFor (newId E db) p])%list
      /\ configuration db' = configuration db
      /\ job_events db' = job_events db
      /\ now db' = now db.
Proof.
  intros E pid db p Hauth Hadm Hflag Hparent Hdone Hfind.
  apply includes_two in Hdone.
  destruct (POST_create_eq E pid db p Hauth Hadm Hflag Hparent Hdone Hfind)
    as [c Hc].
  eexists. split; [exact Hc|]. repeat split.
Qed.

Lemma fetch_creates_ebook_request_witness :
  exists db',
    POST Scenario.admin "req-1" Cases.dbParentOnly
    = (Returned (created "req-2"), db')
    /\ requests db'
       = (requests Cases.dbParentOnly
          ++ [ebookRow Scenario.admin "req-1" Cases.completedParent
                Cases.dbParentOnly])%list
    /\ jobs db' = [searchEbookJobFor "req-2" Cases.completedParent]
    /\ configuration db' = configuration Cases.dbParentOnly
    /\ job_events db' = []
    /\ now db' = 1000%Z.
Proof.
  apply (fetch_creates_ebook_request Scenario.admin "req-1"
           Cases.dbParentOnly Cases.completedParent);
    try reflexivity.
  left. reflexivity.
Defined.

(** X16: A second call does not start a second search.  When the ids of the
    Request table are unique and a call has answered with a started
    search (created or retried), the same call repeated on the resulting
    store answers that the ebook request already exists, in status
    pending and under the same id, and changes nothing. *)
Theorem fetch_repeated_call :
  forall E pid db msg rid db1,
    NoDup (map id (requests db)) ->
    POST E pid db
    = (Returned (NextResponse_json (ResultBody true msg rid) 200), db1) ->
    POST E pid db1 = (Returned (alreadyExists "pending" rid), db1).
Proof.
  intros E pid db msg rid db1 Hnd Hrun.
  assert (authenticated E = true /\ isAdmin E = true
          /\ featureEnabled db = true) as (Hauth & Hadm & Hflag).
  { unfold POST in Hrun.
    destruct (authenticated E); [|discriminate Hrun].
    destruct (isAdmin E); [|discriminate Hrun].
    cbn [negb] in Hrun. unfold tryCatch, handler in Hrun.
    rewrite bind_configuration_findUnique in Hrun.
    change (valueIs "true" _) with (featureEnabled db) in Hrun.
    destruct (featureEnabled db); [auto | discriminate Hrun]. }
  destruct (POST_cases E pid db)
    as [(resp & Eq & Hno)
       | [(p & existing & c & Hparent & Hdone & Hfind & Hretry & Eq)
         | (p & c & Hparent & Hdone & Hfind & Eq)]];
    rewrite Eq in Hrun.
  - inversion Hrun; subst. discriminate Hno.
  - inversion Hrun; subst. clear Hrun.
    assert (In p (requests db)) as Hp
        by (unfold findById in Hparent; apply find_some in Hparent; tauto).
    assert (In existing (requests db)) as Hex
        by (apply find_some in Hfind; tauto).
    assert (String.eqb (id p) (id existing) = false) as Hne.
    { destruct (String.eqb (id p) (id existing)) eqn:Eid; [|reflexivity].
      apply String.eqb_eq in Eid.
      rewrite (unique_by_id _ _ _ Hnd Hp Hex Eid) in Hdone.
      destruct (complete_not_retryable _ Hdone Hretry). }
    rewrite (POST_exists_eq E pid (afterRetry p existing c db) p
               (reset (now db) existing) Hauth Hadm Hflag).
    + reflexivity.
    + unfold findById, afterRetry. cbn [requests with_console with_jobs
                                         with_requests].
      rewrite find_updated by reflexivity.
      unfold findById in Hparent. rewrite Hparent. cbn [option_map].
      rewrite Hne. reflexivity.
    + apply includes_two. exact Hdone.
    + unfold afterRetry. cbn [requests with_console with_jobs with_requests].
      rewrite find_updated by reflexivity.
      rewrite Hfind. cbn [option_map]. rewrite String.eqb_refl. reflexivity.
    + reflexivity.
  - inversion Hrun; subst. clear Hrun.
    rewrite (POST_exists_eq E pid (afterCreate E pid p c db) p
               (ebookRow E pid p db) Hauth Hadm Hflag).
    + reflexivity.
    + unfold findById, afterCreate. cbn [requests with_console with_jobs
                                          with_requests].
      rewrite find_append. unfold findById in Hparent. rewrite Hparent.
      reflexivity.
    + apply includes_two. exact Hdone.
    + unfold afterCreate. cbn [requests with_console with_jobs with_requests].
      rewrite find_append, Hfind. cbn [find].
      unfold existingEbookWhere, ebookRow.
      cbn [parentRequestId type deletedAt]. rewrite String.eqb_refl.
      reflexivity.
    + reflexivity.
Qed.

Lemma fetch_repeated_call_witness :
  POST Scenario.admin "req-1"
    (snd (POST Scenario.admin "req-1" Scenario.dbEbookEnabled))
  = (Returned (alreadyExists "pending" "req-2"),
     snd (POST Scenario.admin "req-1" Scenario.dbEbookEnabled)).
Proof.
  apply (fetch_repeated_call Scenario.admin "req-1" Scenario.dbEbookEnabled
           "E-book search retried" "req-2").
  - repeat constructor; cbn; intuition discriminate.
  - reflexivity.
Defined.

(** X17: Every call of the route is answered, and only an answer that reports
    a started search comes with changes: then exactly one search job for
    the id answered is added behind the jobs already queued, for the
    audiobook of the complete parent, and the table holds a pending ebook
    request of the parent under that id.  Every answer of the gates, every
    4xx answer and the answer that the request already exists leave the
    whole store as it was. *)
Theorem fetch_effects :
  forall E pid db,
    exists resp db',
      POST E pid db = (Returned resp, db')
      /\ match started resp with
         | Some rid =>
             exists p,
               findById pid db = Some p /\ complete p
               /\ jobs db' = (jobs db ++ [searchEbookJobFor rid p])%list
               /\ (exists r, In r (requests db') /\ pendingEbook pid rid r)
               /\ configuration db' = configuration db
               /\ job_events db' = job_events db
               /\ now db' = now db
         | None => db' = db
         end.
Proof.
  intros E pid db.
  destruct (POST_cases E pid db)
    as [(resp & Eq & Hno)
       | [(p & existing & c & Hparent & Hdone & Hfind & Hretry & Eq)
         | (p & c & Hparent & Hdone & Hfind & Eq)]].
  - exists resp, db. split; [exact Eq|]. rewrite Hno. reflexivity.
  - eexists _, _. split; [exact Eq|]. cbn [started retried].
    exists p. repeat split; try assumption.
    exists (reset (now db) existing). split.
    + unfold afterRetry. cbn [requests with_console with_jobs with_requests].
      unfold updated. apply in_map_iff. exists existing.
      rewrite String.eqb_refl. split; [reflexivity|].
      apply find_some in Hfind. tauto.
    + apply find_some in Hfind. destruct Hfind as [_ Hw].
      unfold existingEbookWhere in Hw.
      apply andb_prop in Hw. destruct Hw as [Hw Hdel].
      apply andb_prop in Hw. destruct Hw as [Hpar Hty].
      unfold pendingEbook.
      cbn [reset set_updatedAt set_errorMessage set_progress set_status
           id type parentRequestId status progress errorMessage deletedAt].
      apply String.eqb_eq in Hty.
      destruct (parentRequestId existing) as [q|]; [|discriminate Hpar].
      apply String.eqb_eq in Hpar. subst q.
      destruct (deletedAt existing); [discriminate Hdel|].
      repeat split. exact Hty.
  - eexists _, _. split; [exact Eq|]. cbn [started created].
    exists p. repeat split; try assumption.
    exists (ebookRow E pid p db). split; [|repeat split].
    unfold afterCreate. cbn [requests with_console with_jobs with_requests].
    apply in_or_app. right. left. reflexivity.
Qed.

End FetchEbookCalls.

(** ** The ebook search processor *)

Module EbookRules.
Import Store Triples TripleRules SearchEbook EbookSpecs Footprint.

Lemma lift_run {A} (m : M A) s :
  lift m s = (fst (m (base s)), with_base s (snd (m (base s)))).
Proof. unfold lift. destruct (m (base s)); reflexivity. Qed.

Lemma shape_base rs hs js t s db :
  agree (base s) db -> shape rs hs js t s -> shape rs hs js t (with_base s db).
Proof.
  intros (H1 & H2 & H3 & H4) (H5 & H6 & H7 & H8).
  repeat split; cbn; congruence.
Qed.

Lemma keeps_lift {A} (m : M A) : preserves agree m -> keeps (lift m).
Proof.
  intros H rs hs js t s Hs. rewrite lift_run. cbn [snd].
  apply shape_base; [apply H | exact Hs].
Qed.

Lemma keeps_ret {A} (a : A) : keeps (eret a).
Proof. intros rs hs js t s Hs. exact Hs. Qed.

Lemma keeps_get : keeps eget.
Proof. intros rs hs js t s Hs. exact Hs. Qed.

Lemma keeps_throw {A} e : keeps (@ethrow A e).
Proof. intros rs hs js t s Hs. exact Hs. Qed.

Lemma keeps_liftOutcome {A} (o : Outcome A) : keeps (eliftOutcome o).
Proof. intros rs hs js t s Hs. exact Hs. Qed.

Lemma keeps_bind {A B} (m : ME A) (k : A -> ME B) :
  keeps m -> (forall a, keeps (k a)) -> keeps (ebind m k).
Proof.
  intros Hm Hk rs hs js t s Hs. unfold ebind.
  specialize (Hm rs hs js t s Hs).
  destruct (m s) as [[a|e] s1]; cbn [snd] in *; [|exact Hm].
  apply Hk. exact Hm.
Qed.

Lemma keeps_log L lg lv m md : keeps (lift (Logger.log L lg lv m md)).
Proof. apply keeps_lift. apply ProcessorOutcomes.agree_log. Qed.

Lemma agree_logs L lg (ls : list (MsgLevel * string * option LogMetadata)) :
  preserves agree
    (forEach (fun l => Logger.log L lg (fst (fst l)) (snd (fst l)) (snd l))
             ls).
Proof.
  apply ProcessorFootprint.preserves_forEach;
    [exact ProcessorOutcomes.agree_refl | exact ProcessorOutcomes.agree_trans|].
  intros l. apply ProcessorOutcomes.agree_log.
Qed.

Lemma logs_return L lg (ls : list (MsgLevel * string * option LogMetadata)) db :
  fst (forEach (fun l => Logger.log L lg (fst (fst l)) (snd (fst l)) (snd l))
               ls db) = Returned tt.
Proof.
  revert db. induction ls as [|l ls IH]; intros db; [reflexivity|].
  cbn [forEach]. unfold bind.
  pose proof (LoggerProofs.log_returns L lg (fst (fst l)) (snd (fst l))
                (snd l) db) as Hl.
  destruct (Logger.log L lg (fst (fst l)) (snd (fst l)) (snd l) db)
    as [o db1]. cbn [fst] in Hl. subst o. apply IH.
Qed.

(** A call of the scraper ends with the scraper's answer and keeps the
    pipeline part of the store. *)
Lemma scrape_run {A} E lg (sc : Scraped A) s :
  exists s',
    scrape E lg sc s = (answer sc, s')
    /\ forall rs hs js t, shape rs hs js t s -> shape rs hs js t s'.
Proof.
  unfold scrape, ebind. rewrite lift_run, logs_return.
  eexists. split; [reflexivity|].
  intros rs hs js t Hs. apply shape_base; [apply agree_logs | exact Hs].
Qed.

Lemma keeps_scrape {A} E lg (sc : Scraped A) : keeps (scrape E lg sc).
Proof.
  intros rs hs js t s Hs.
  destruct (scrape_run E lg sc s) as (s' & -> & H). apply H. exact Hs.
Qed.

(** *** Rules for [endsE] *)

Lemma endsE_bind_keeps {A B} rs hs js t (m : ME A) (k : A -> ME B) Q :
  keeps m ->
  (forall e s, shape rs hs js t s -> Q (Threw e) s) ->
  (forall a, endsE (shape rs hs js t) (k a) Q) ->
  endsE (shape rs hs js t) (ebind m k) Q.
Proof.
  intros Hm Ht Hk s Hs. unfold ebind. specialize (Hm rs hs js t s Hs).
  destruct (m s) as [[a|e] s1]; cbn [fst snd] in *.
  - apply Hk. exact Hm.
  - apply Ht. exact Hm.
Qed.

Lemma endsE_bind_returns {A B} P (m : ME A) R (k : A -> ME B) Q :
  returnsE P m R -> (forall a, endsE (R a) (k a) Q) -> endsE P (ebind m k) Q.
Proof.
  intros Hm Hk s Hs. unfold ebind.
  destruct (Hm s Hs) as (a & s1 & -> & HR). apply Hk. exact HR.
Qed.

Lemma endsE_throw {A} P e (Q : Outcome A -> EbookDb -> Prop) :
  (forall s, P s -> Q (Threw e) s) -> endsE P (ethrow e) Q.
Proof. intros H s Hs. apply H. exact Hs. Qed.

Lemma endsE_ret {A} P (a : A) (Q : Outcome A -> EbookDb -> Prop) :
  (forall s, P s -> Q (Returned a) s) -> endsE P (eret a) Q.
Proof. intros H s Hs. apply H. exact Hs. Qed.

Lemma endsE_tryCatch {A} P (body : ME A) Q0 h
      (Q : Outcome A -> EbookDb -> Prop) :
  endsE P body Q0 ->
  (forall a s, Q0 (Returned a) s -> Q (Returned a) s) ->
  (forall e, endsE (Q0 (Threw e)) (h e) Q) ->
  endsE P (etryCatch body h) Q.
Proof.
  intros Hb Hr Hh s Hs. unfold etryCatch. specialize (Hb s Hs).
  destruct (body s) as [[a|e] s1]; cbn [fst snd] in *.
  - apply Hr. exact Hb.
  - apply Hh. exact Hb.
Qed.

(** *** Rules for [returnsE] and [throwsE] *)

Lemma returnsE_ret {A} (P : EbookDb -> Prop) (a : A)
      (Q : A -> EbookDb -> Prop) :
  (forall s, P s -> Q a s) -> returnsE P (eret a) Q.
Proof. intros H s Hs. exists a, s. split; [reflexivity | apply H; exact Hs]. Qed.

Lemma returnsE_bind {A B} (P : EbookDb -> Prop) (m : ME A)
      (R : A -> EbookDb -> Prop) (k : A -> ME B) Q :
  returnsE P m R -> (forall a, returnsE (R a) (k a) Q) ->
  returnsE P (ebind m k) Q.
Proof.
  intros Hm Hk s Hs. destruct (Hm s Hs) as (a & s1 & E1 & HR).
  destruct (Hk a s1 HR) as (b & s2 & E2 & HQ).
  exists b, s2. unfold ebind. rewrite E1. split; assumption.
Qed.

Lemma throwsE_bind_l {A B} (P : EbookDb -> Prop) (m : ME A) e
      (Q : EbookDb -> Prop) (k : A -> ME B) :
  throwsE P m e Q -> throwsE P (ebind m k) e Q.
Proof.
  intros Hm s Hs. destruct (Hm s Hs) as (s1 & E1 & HQ).
  exists s1. unfold ebind. rewrite E1. split; [reflexivity | exact HQ].
Qed.

Lemma throwsE_bind_r {A B} (P : EbookDb -> Prop) (m : ME A)
      (R : A -> EbookDb -> Prop) (k : A -> ME B) e Q :
  returnsE P m R -> (forall a, throwsE (R a) (k a) e Q) ->
  throwsE P (ebind m k) e Q.
Proof.
  intros Hm Hk s Hs. destruct (Hm s Hs) as (a & s1 & E1 & HR).
  destruct (Hk a s1 HR) as (s2 & E2 & HQ).
  exists s2. unfold ebind. rewrite E1. split; assumption.
Qed.

Lemma throwsE_throw {A} (P : EbookDb -> Prop) e : throwsE P (@ethrow A e) e P.
Proof. intros s Hs. exists s. split; [reflexivity | exact Hs]. Qed.

Lemma returnsE_tryCatch {A} (P : EbookDb -> Prop) (body : ME A) h Q :
  returnsE P body Q -> returnsE P (etryCatch body h) Q.
Proof.
  intros Hb s Hs. destruct (Hb s Hs) as (a & s1 & E1 & HQ).
  exists a, s1. unfold etryCatch. rewrite E1. split; [reflexivity | exact HQ].
Qed.

Lemma throwsE_tryCatch {A} (P : EbookDb -> Prop) (body : ME A) e R h e' Q :
  throwsE P body e R -> throwsE R (h e) e' Q ->
  throwsE P (etryCatch body h) e' Q.
Proof.
  intros Hb Hh s Hs. destruct (Hb s Hs) as (s1 & E1 & HR).
  destruct (Hh s1 HR) as (s2 & E2 & HQ).
  exists s2. unfold etryCatch. rewrite E1. split; assumption.
Qed.

Lemma returnsE_pure_pre {A} (phi : Prop) (P : EbookDb -> Prop) (m : ME A) Q :
  (phi -> returnsE P m Q) -> returnsE (fun s => phi /\ P s) m Q.
Proof. intros H s [Hphi Hp]. exact (H Hphi s Hp). Qed.

Lemma throwsE_pure_pre {A} (phi : Prop) (P : EbookDb -> Prop) (m : ME A) e Q :
  (phi -> throwsE P m e Q) -> throwsE (fun s => phi /\ P s) m e Q.
Proof. intros H s [Hphi Hp]. exact (H Hphi s Hp). Qed.

Lemma returnsE_liftOutcome {A} (P : EbookDb -> Prop) (o : Outcome A) a :
  o = Returned a ->
  returnsE P (eliftOutcome o) (fun x s => x = a /\ P s).
Proof. intros -> s Hs. exists a, s. repeat split; assumption. Qed.

Lemma returnsE_get (P : EbookDb -> Prop) :
  returnsE P eget (fun x s => x = s /\ P s).
Proof. intros s Hs. exists s, s. repeat split; assumption. Qed.

Lemma returnsE_log L lg lv m md rs hs js t :
  returnsE (shape rs hs js t) (lift (Logger.log L lg lv m md))
    (fun _ => shape rs hs js t).
Proof.
  intros s Hs. exists tt. eexists. rewrite lift_run.
  rewrite LoggerProofs.log_returns. split; [reflexivity|].
  apply shape_base; [apply ProcessorOutcomes.agree_log | exact Hs].
Qed.

Lemma returnsE_scrape {A} E lg (sc : Scraped A) a rs hs js t :
  answer sc = Returned a ->
  returnsE (shape rs hs js t) (scrape E lg sc)
    (fun x s => x = a /\ shape rs hs js t s).
Proof.
  intros Ha s Hs. destruct (scrape_run E lg sc s) as (s' & Erun & H).
  exists a, s'. rewrite Erun, Ha.
  split; [reflexivity | split; [reflexivity | apply H; exact Hs]].
Qed.

Lemma returnsE_request_update rid data f rs hs js t :
  existsb_id rid rs = true ->
  (forall db r, now db = t -> data db r = f r) ->
  returnsE (shape rs hs js t) (lift (request_update rid data))
    (fun _ => shape (updated rid f rs) hs js t).
Proof.
  intros Hex Hdata s (Hr & Hh & Hj & Ht).
  destruct (returns_request_update rid data f rs (jobs (base s)) t Hex Hdata
              (base s)) as ([] & db' & Erun & Hr' & _ & Ht').
  { repeat split; assumption. }
  exists tt. eexists. rewrite lift_run, Erun. split; [reflexivity|].
  repeat split; cbn; assumption.
Qed.

Lemma throwsE_request_update rid data rs hs js t :
  existsb_id rid rs = false ->
  throwsE (shape rs hs js t) (lift (request_update rid data))
    (Error "Record to update not found.") (shape rs hs js t).
Proof.
  intros Hex s (Hr & Hh & Hj & Ht). exists s.
  rewrite lift_run. unfold request_update. rewrite Hr, Hex. cbn.
  split; [destruct s; reflexivity | repeat split; assumption].
Qed.

Lemma existsb_history_last hid hs h :
  dh_id h = hid -> existsb_history hid (hs ++ [h])%list = true.
Proof.
  intros <-. unfold existsb_history. rewrite existsb_app. cbn.
  rewrite String.eqb_refl. apply orb_true_r.
Qed.

End EbookRules.

Module EbookProofs.
Import Store Triples TripleRules SearchEbook EbookSpecs Footprint EbookRules.

Ltac keeps_step :=
  first
    [ apply keeps_ret
    | apply keeps_get
    | apply keeps_throw
    | apply keeps_log
    | apply keeps_liftOutcome
    | apply keeps_scrape
    | apply keeps_bind; [|intros ?]
    | match goal with
      | [ |- keeps (match ?x with _ => _ end) ] => destruct x
      end ].

Ltac endsE_step Ht :=
  first
    [ apply endsE_throw; intros ?; apply Ht
    | apply endsE_bind_keeps;
      [ solve [ repeat keeps_step ]
      | exact Ht
      | intros ? ]
    | match goal with
      | [ |- endsE _ (match ?x with _ => _ end) _ ] => destruct x eqn:?
      end ].

Ltac unfold_ebook_loggers :=
  unfold SearchEbook.info, SearchEbook.warn, SearchEbook.error,
    Logger.info, Logger.warn, Logger.error.

(** The [try] block, from the first update on. *)
Lemma searchAndQueue_ends E lg payload rs hs js t :
  existsb_id (requestId payload) rs = true ->
  endsE (shape rs hs js t) (searchAndQueue E lg payload)
    (processorPost E payload rs hs js t
       (fun _ => searchingRows payload rs t)).
Proof.
  intros Hex. unfold searchAndQueue. cbv zeta.
  eapply endsE_bind_returns.
  { apply (returnsE_request_update _ _ (SearchIndexers.searching t));
      [exact Hex|].
    intros db r Hnow. unfold SearchIndexers.searching. rewrite Hnow.
    reflexivity. }
  intros [].
  fold (searchingRows payload rs t).
  assert (forall e s,
             shape (searchingRows payload rs t) hs js t s ->
             processorPost E payload rs hs js t
               (fun _ => searchingRows payload rs t) (Threw e) s) as Ht.
  { intros e s H. exists hs, js. split; [constructor | exact H]. }
  assert (existsb_id (requestId payload) (searchingRows payload rs t) = true)
    as Hex1
      by (unfold searchingRows; rewrite existsb_id_updated;
          [exact Hex | reflexivity]).
  unfold choosePreferredFormat, tryAsinSearch, fallBackToTitleSearch.
  cbv zeta. unfold_ebook_loggers.
  repeat endsE_step Ht.
  all:
    try (eapply endsE_bind_returns;
         [ first
             [ apply (returnsE_request_update _ _
                        (SearchIndexers.awaiting noEbook t));
               [ exact Hex1
               | intros db r Hnow; unfold SearchIndexers.awaiting, noEbook;
                 rewrite Hnow; reflexivity ]
             | apply (returnsE_request_update _ _
                        (SearchIndexers.awaiting noLinks t));
               [ exact Hex1
               | intros db r Hnow; unfold SearchIndexers.awaiting, noLinks;
                 rewrite Hnow; reflexivity ] ]
         | intros []; apply endsE_ret; intros st Hst;
           split; [reflexivity|]; left; repeat split;
           eexists; split; [|exact Hst]; auto ]).
  (* the three writes: history row, download job, links *)
  intros st (H1 & H2 & H3 & H4). unfold ebind, downloadHistory_create.
  destruct (downloadHistory_create_error E st) as [e|].
  { cbn [fst snd processorPost]. exists hs, js.
    split; [constructor | repeat split; assumption]. }
  unfold addStartDirectDownloadJob.
  match goal with
  | [ |- context [addStartDirectDownloadJob_error E ?s1] ] =>
      destruct (addStartDirectDownloadJob_error E s1) as [e|]
  end.
  { cbn [fst snd processorPost]. eexists _, js.
    split; [|repeat split; cbn; eassumption || reflexivity].
    rewrite <- H2. eapply (rowWritten payload _ js). }
  unfold downloadHistory_update.
  match goal with
  | [ |- context [downloadHistory_update_error E ?s1] ] =>
      destruct (downloadHistory_update_error E s1) as [e|]
  end.
  { cbn [fst snd processorPost]. eexists _, _.
    split; [|repeat split; cbn; eassumption || reflexivity].
    rewrite <- H2, <- H3. eapply (downloadQueued payload). }
  cbn [download_history with_direct_jobs with_download_history dh_id].
  rewrite existsb_history_last by reflexivity.
  cbn [fst snd processorPost]. split; [reflexivity|]. right.
  eexists _, _, _, _, _, _.
  split; [reflexivity|]. split; [discriminate|].
  repeat split; cbn; try assumption.
  - rewrite H2. reflexivity.
  - rewrite H3. reflexivity.
Qed.

(** X18: If the Request row exists, every run of the ebook search ends in one
    of three ways.  It returns a failure, the Request awaits another
    search with one of the two retry messages, and neither history nor
    queue has changed.  Or it returns a success for a non-empty md5, the
    Request is still searching, one history row (Anna's Archive, direct,
    queued, selected, scored 100 or 80) has been appended and carries the
    links found, and one direct download of the first link under the name
    of that row has been queued.  Or it throws, the Request is failed with
    the message of the error, and the writes got as far as they got: no
    row, the row, or the row and the queued download. *)
Theorem ebook_outcomes :
  forall E payload rs hs js t,
    existsb_id (requestId payload) rs = true ->
    endsE (shape rs hs js t) (processSearchEbook E payload)
      (processorPost E payload rs hs js t (failedRows payload rs t)).
Proof.
  intros E payload rs hs js t Hex. unfold processSearchEbook. cbv zeta.
  unfold_ebook_loggers.
  eapply endsE_bind_returns; [apply returnsE_log|]. intros [].
  eapply endsE_tryCatch.
  - apply searchAndQueue_ends. exact Hex.
  - intros res s H. exact H.
  - intros e s (hs' & js' & Hp & Hs).
    assert (returnsE (shape (searchingRows payload rs t) hs' js' t)
              (lift (request_update (requestId payload)
                 (fun db r =>
                    set_updatedAt (now db)
                      (set_errorMessage
                         (Some match e with
                               | Error m => m
                               | NonError =>
                                   "Unknown error during ebook search"
                               end)
                         (set_status "failed" r)))))
              (fun _ => shape (failedRows payload rs t e) hs' js' t)) as Hup.
    { apply (returnsE_request_update _ _
               (SearchIndexers.failedWith (storedMessage e) t)).
      - unfold searchingRows. rewrite existsb_id_updated;
          [exact Hex | reflexivity].
      - intros db r Hnow. unfold SearchIndexers.failedWith, storedMessage.
        rewrite Hnow. reflexivity. }
    unfold ebind.
    destruct (returnsE_log (logEnv E)
                (Logger.forJob (jobId payload) "SearchEbook") Lerror
                ("Error: " ++ match e with
                               | Error m => m
                               | NonError => "Unknown error"
                               end) None _ _ _ _ s Hs)
      as ([] & s1 & -> & Hs1).
    destruct (Hup s1 Hs1) as ([] & s2 & -> & Hs2).
    cbn [fst snd ethrow processorPost].
    exists hs', js'. split; assumption.
Qed.

Lemma ebook_outcomes_witness :
  processorPost EbookCases.library EbookCases.payload
    (requests Cases.dbParentAndEbook) [] [] 1000
    (failedRows EbookCases.payload (requests Cases.dbParentAndEbook) 1000)
    (fst (processSearchEbook EbookCases.library EbookCases.payload
            EbookCases.start))
    (snd (processSearchEbook EbookCases.library EbookCases.payload
            EbookCases.start)).
Proof.
  apply (ebook_outcomes EbookCases.library EbookCases.payload
           (requests Cases.dbParentAndEbook) [] [] 1000).
  - reflexivity.
  - repeat split.
Defined.

End EbookProofs.

Module EbookPaths.
Import Store Triples TripleRules SearchEbook EbookSpecs Footprint EbookRules.
Import EbookProofs.

Lemma returnsE_bind_ret {A B} P (a : A) (k : A -> ME B) Q :
  returnsE P (k a) Q -> returnsE P (ebind (eret a) k) Q.
Proof. intros H. exact H. Qed.

Lemma throwsE_bind_ret {A B} P (a : A) (k : A -> ME B) e Q :
  throwsE P (k a) e Q -> throwsE P (ebind (eret a) k) e Q.
Proof. intros H. exact H. Qed.

(** One step of a run whose oracle answers are among the hypotheses. *)
Ltac run :=
  cbv beta iota;
  lazymatch goal with
  | [ |- returnsE _ (ebind (lift (Logger.log _ _ _ _ _)) _) _ ] =>
      eapply returnsE_bind; [apply returnsE_log | intros []]
  | [ |- returnsE _ (ebind (eliftOutcome _) _) _ ] =>
      eapply returnsE_bind;
      [ apply returnsE_liftOutcome; eassumption
      | let x := fresh "x" in
        intros x; apply returnsE_pure_pre; intros -> ]
  | [ |- returnsE _ (ebind (scrape _ _ _) _) _ ] =>
      eapply returnsE_bind;
      [ apply returnsE_scrape; eassumption
      | let x := fresh "x" in
        intros x; apply returnsE_pure_pre; intros -> ]
  | [ |- returnsE _ (ebind (eret _) _) _ ] => apply returnsE_bind_ret
  | [ |- returnsE _ (ebind (ebind _ _) _) _ ] =>
      eapply returnsE_bind; [|let x := fresh "x" in intros x]
  | [ |- throwsE _ (ebind (lift (Logger.log _ _ _ _ _)) _) _ _ ] =>
      eapply throwsE_bind_r; [apply returnsE_log | intros []]
  | [ |- throwsE _ (ebind (eliftOutcome _) _) _ _ ] =>
      eapply throwsE_bind_r;
      [ apply returnsE_liftOutcome; eassumption
      | let x := fresh "x" in
        intros x; apply throwsE_pure_pre; intros -> ]
  | [ |- throwsE _ (ebind (scrape _ _ _) _) _ _ ] =>
      eapply throwsE_bind_r;
      [ apply returnsE_scrape; eassumption
      | let x := fresh "x" in
        intros x; apply throwsE_pure_pre; intros -> ]
  | [ |- throwsE _ (ebind (eret _) _) _ _ ] => apply throwsE_bind_ret
  end.

Lemma returnsE_post {A} (P : EbookDb -> Prop) (m : ME A)
      (Q' Q : A -> EbookDb -> Prop) :
  returnsE P m Q' -> (forall a s, Q' a s -> Q a s) -> returnsE P m Q.
Proof.
  intros Hm Hq s Hs. destruct (Hm s Hs) as (a & s1 & E1 & H).
  exists a, s1. split; [exact E1 | apply Hq; exact H].
Qed.

Lemma orUndefined_some x v :
  orUndefined x = Some v -> x = Some v /\ exists c s, v = String c s.
Proof.
  destruct x as [[|c s]|]; cbn; intros H; inversion H; subst.
  split; [reflexivity | eauto].
Qed.

Lemma orUndefined_none x : orUndefined x = None -> x = None \/ x = Some "".
Proof. destruct x as [[|c s]|]; cbn; intros H; auto; discriminate. Qed.

Lemma nonempty_string s : s <> "" -> exists c r, s = String c r.
Proof. destruct s; [congruence | eauto]. Qed.

Lemma withLinks_fresh hid url hs row :
  ~ In hid (map dh_id hs) -> dh_id row = hid ->
  withLinks hid url (hs ++ [row])
  = (hs ++ [set_torrentUrl (Some url) row])%list.
Proof.
  intros Hfresh Hrow. unfold withLinks. rewrite map_app. cbn [map].
  rewrite Hrow, String.eqb_refl. f_equal.
  induction hs as [|h hs IH]; [reflexivity|].
  cbn [map In] in *.
  rewrite IH by (intros H; apply Hfresh; right; exact H).
  destruct (String.eqb (dh_id h) hid) eqn:Eq; [|reflexivity].
  apply String.eqb_eq in Eq. exfalso. apply Hfresh. left. exact Eq.
Qed.

Lemma choosePreferredFormat_returns E payload fmt P :
  match preferredFormat payload with
  | Some (String _ _ as payloadFormat) => fmt = payloadFormat
  | _ =>
      exists c,
        configService_get E "ebook_sidecar_preferred_format" = Returned c
        /\ fmt = orElse c "epub"
  end ->
  returnsE P (choosePreferredFormat E payload) (fun x s => x = fmt /\ P s).
Proof.
  unfold choosePreferredFormat.
  destruct (preferredFormat payload) as [[|c0 f]|].
  - intros (c & Hc & ->). repeat run.
    apply returnsE_ret. intros s Hs. split; [reflexivity | exact Hs].
  - intros ->. apply returnsE_ret. intros s Hs.
    split; [reflexivity | exact Hs].
  - intros (c & Hc & ->). repeat run.
    apply returnsE_ret. intros s Hs. split; [reflexivity | exact Hs].
Qed.

Lemma tryAsinSearch_found E lg payload fmt baseUrl fs md5 rs hs js t :
  foundByAsin E payload fmt baseUrl fs md5 ->
  returnsE (shape rs hs js t) (tryAsinSearch E lg payload fmt baseUrl fs)
    (fun x s => x = (Some md5, byAsin) /\ shape rs hs js t s).
Proof.
  intros (asin & Hasin & Hans & Hne).
  apply orUndefined_some in Hasin. destruct Hasin as (Hasin & c & a & ->).
  apply nonempty_string in Hne. destruct Hne as (c1 & m & ->).
  unfold tryAsinSearch. rewrite Hasin. unfold SearchEbook.info, Logger.info.
  repeat run.
  apply returnsE_ret. intros s Hs. split; [reflexivity | exact Hs].
Qed.

Lemma tryAsinSearch_nothing E lg payload fmt baseUrl fs rs hs js t :
  nothingByAsin E payload fmt baseUrl fs ->
  returnsE (shape rs hs js t) (tryAsinSearch E lg payload fmt baseUrl fs)
    (fun x s => (orUndefined (fst x) = None /\ snd x = byTitle)
                /\ shape rs hs js t s).
Proof.
  intros [Hno | (asin & r & Hasin & Hans & Hr)]; unfold tryAsinSearch.
  - apply orUndefined_none in Hno. destruct Hno as [-> | ->];
      apply returnsE_ret; intros s Hs; repeat split; apply Hs.
  - apply orUndefined_some in Hasin. destruct Hasin as (Hasin & c & a & ->).
    rewrite Hasin. unfold SearchEbook.info, Logger.info.
    apply orUndefined_none in Hr. destruct Hr as [-> | ->];
      repeat run; apply returnsE_ret; intros s Hs; repeat split; apply Hs.
Qed.

Lemma fallBack_skipped E lg payload fmt baseUrl fs md5 searchMethod P :
  md5 <> "" ->
  returnsE P
    (fallBackToTitleSearch E lg payload fmt baseUrl fs
       (Some md5, searchMethod))
    (fun x s => x = (Some md5, searchMethod) /\ P s).
Proof.
  intros Hne. apply nonempty_string in Hne. destruct Hne as (c & m & ->).
  apply returnsE_ret. intros s Hs. split; [reflexivity | exact Hs].
Qed.

Lemma fallBack_answers E lg payload fmt baseUrl fs step1 r rs hs js t :
  orUndefined (fst step1) = None -> snd step1 = byTitle ->
  titleAnswer E payload fmt baseUrl fs = Returned r ->
  returnsE (shape rs hs js t)
    (fallBackToTitleSearch E lg payload fmt baseUrl fs step1)
    (fun x s => x = (r, byTitle) /\ shape rs hs js t s).
Proof.
  intros Hno Hm Hans. unfold titleAnswer in Hans.
  unfold fallBackToTitleSearch. cbv zeta.
  destruct step1 as [m1 meth]. cbn [fst snd] in *. subst meth.
  unfold SearchEbook.info, Logger.info.
  apply orUndefined_none in Hno.
  destruct Hno as [-> | ->]; destruct r as [[|c m]|]; repeat run;
    apply returnsE_ret; intros s Hs; (split; [reflexivity | exact Hs]).
Qed.

(** The two searches together. *)
Lemma searches_locate E lg payload fmt baseUrl fs md5 searchMethod
      rs hs js t :
  located E payload fmt baseUrl fs md5 searchMethod ->
  returnsE (shape rs hs js t)
    (ebind (tryAsinSearch E lg payload fmt baseUrl fs)
           (fallBackToTitleSearch E lg payload fmt baseUrl fs))
    (fun x s => x = (Some md5, searchMethod) /\ shape rs hs js t s).
Proof.
  intros [(Hfound & ->) | (Hno & Hans & Hne & ->)].
  - eapply returnsE_bind; [apply tryAsinSearch_found; exact Hfound|].
    intros x. apply returnsE_pure_pre. intros ->.
    apply fallBack_skipped.
    destruct Hfound as (_ & _ & _ & H). exact H.
  - eapply returnsE_bind; [apply tryAsinSearch_nothing; exact Hno|].
    intros x. apply returnsE_pure_pre. intros [H1 H2].
    apply fallBack_answers; assumption.
Qed.

Lemma searches_find_nothing E lg payload fmt baseUrl fs rs hs js t :
  notLocated E payload fmt baseUrl fs ->
  returnsE (shape rs hs js t)
    (ebind (tryAsinSearch E lg payload fmt baseUrl fs)
           (fallBackToTitleSearch E lg payload fmt baseUrl fs))
    (fun x s => (orUndefined (fst x) = None /\ snd x = byTitle)
                /\ shape rs hs js t s).
Proof.
  intros (Hno & r & Hans & Hr).
  eapply returnsE_bind; [apply tryAsinSearch_nothing; exact Hno|].
  intros x. apply returnsE_pure_pre. intros [H1 H2].
  eapply returnsE_post;
    [exact (fallBack_answers _ _ _ _ _ _ _ _ _ _ _ _ H1 H2 Hans)|].
  intros y s [-> Hs]. repeat split; try apply Hs. exact Hr.
Qed.

Lemma returnsE_bind2 {A B C} P (m : ME A) (f : A -> ME B) R
      (k : B -> ME C) Q :
  returnsE P (ebind m f) R -> (forall y, returnsE (R y) (k y) Q) ->
  returnsE P (ebind m (fun x => ebind (f x) k)) Q.
Proof.
  intros Hm Hk s Hs. destruct (Hm s Hs) as (b & s1 & E1 & HR).
  destruct (Hk b s1 HR) as (c & s2 & E2 & HQ).
  exists c, s2. split; [|exact HQ].
  unfold ebind in *. destruct (m s) as [[a|e] s0]; [|discriminate E1].
  rewrite E1. exact E2.
Qed.

Lemma throwsE_bind2 {A B C} P (m : ME A) (f : A -> ME B) R
      (k : B -> ME C) e Q :
  returnsE P (ebind m f) R -> (forall y, throwsE (R y) (k y) e Q) ->
  throwsE P (ebind m (fun x => ebind (f x) k)) e Q.
Proof.
  intros Hm Hk s Hs. destruct (Hm s Hs) as (b & s1 & E1 & HR).
  destruct (Hk b s1 HR) as (s2 & E2 & HQ).
  exists s2. split; [|exact HQ].
  unfold ebind in *. destruct (m s) as [[a|e0] s0]; [|discriminate E1].
  rewrite E1. exact E2.
Qed.

(** The run up to the searches: first update, settings, FlareSolverr
    line. *)
Ltac enter Hex Hset payload rs t :=
  let c1 := fresh "c" in
  let c2 := fresh "c" in
  let Hf := fresh "Hformat" in
  let Hb := fresh "Hbase" in
  let Hs := fresh "Hflare" in
  let x := fresh "x" in
  destruct Hset as (Hf & (c1 & Hb & ->) & (c2 & Hs & ->));
  unfold searchAndQueue; cbv zeta;
  first [eapply returnsE_bind | eapply throwsE_bind_r];
  [ apply (returnsE_request_update _ _ (SearchIndexers.searching t));
    [ exact Hex
    | let db := fresh "db" in
      let r := fresh "r" in
      let Hnow := fresh "Hnow" in
      intros db r Hnow; unfold SearchIndexers.searching; rewrite Hnow;
      reflexivity ]
  | intros [] ];
  fold (searchingRows payload rs t);
  first [eapply returnsE_bind | eapply throwsE_bind_r];
  [ apply choosePreferredFormat_returns; exact Hf
  | intros x;
    first [apply returnsE_pure_pre | apply throwsE_pure_pre]; intros -> ];
  do 2 run;
  first [eapply returnsE_bind | eapply throwsE_bind_r];
  [ destruct (orUndefined c2);
    [ apply returnsE_log
    | apply returnsE_ret; let s := fresh "s" in
                          let H := fresh "H" in intros s H; exact H ]
  | intros [] ].

Lemma searchAndQueue_queued E lg payload fmt baseUrl fs md5 searchMethod
      firstLink rest rs hs js t :
  existsb_id (requestId payload) rs = true ->
  settings E payload fmt baseUrl fs ->
  located E payload fmt baseUrl fs md5 searchMethod ->
  answer (getSlowDownloadLinks E md5 baseUrl fs)
  = Returned (firstLink :: rest) ->
  storageWorks E ->
  returnsE (shape rs hs js t) (searchAndQueue E lg payload)
    (fun res s =>
       res = queued payload fmt searchMethod md5 (S (List.length rest))
       /\ exists s0,
            download_history s0 = hs
            /\ shape (searchingRows payload rs t)
                 (withLinks (newHistoryId E s0)
                    (JSON_stringify E (firstLink :: rest))
                    (hs ++ [historyRow payload fmt searchMethod
                              (newHistoryId E s0)]))
                 (js ++ [directJob payload fmt (newHistoryId E s0)
                           firstLink])%list t s).
Proof.
  intros Hex Hset Hloc Hlinks Hstore.
  assert (md5 <> "") as Hne
      by (destruct Hloc as [((? & ? & ? & H) & _) | (_ & _ & H & _)];
          exact H).
  enter Hex Hset payload rs t.
  eapply returnsE_bind2; [apply searches_locate; exact Hloc|].
  intros y. apply returnsE_pure_pre. intros ->.
  apply nonempty_string in Hne. destruct Hne as (c1 & m & ->).
  cbn [fst snd]. unfold SearchEbook.info, Logger.info.
  repeat run.
  intros st (H1 & H2 & H3 & H4).
  unfold ebind, eget, downloadHistory_create, addStartDirectDownloadJob,
    downloadHistory_update.
  rewrite (proj1 (Hstore st)).
  match goal with
  | [ |- context [addStartDirectDownloadJob_error E ?s1] ] =>
      rewrite (proj1 (proj2 (Hstore s1)))
  end.
  match goal with
  | [ |- context [downloadHistory_update_error E ?s1] ] =>
      rewrite (proj2 (proj2 (Hstore s1)))
  end.
  cbn [download_history with_direct_jobs with_download_history dh_id].
  rewrite existsb_history_last by reflexivity.
  eexists _, _. split; [reflexivity|].
  split; [reflexivity|]. exists st. split; [exact H2|].
  repeat split; cbn; try assumption.
  - rewrite H2. reflexivity.
  - rewrite H3. reflexivity.
Qed.

(** X19: The ASIN search comes first and decides when it finds something.
    When the settings are readable, the searches locate an md5 (by ASIN
    if there is an ASIN and its search finds one, whatever the title
    search would answer; else by title), the scraper offers at least one
    link, the writes are accepted and the new history id is fresh, the
    processor returns a success with format, md5, number of links and
    the score 100 for an ASIN match and 80 for a title match; it leaves
    the Request searching, appends one history row that holds all the
    links, and queues one direct download of the first link. *)
Theorem ebook_download_queued :
  forall E payload fmt baseUrl fs md5 searchMethod firstLink rest
         rs hs js t,
    existsb_id (requestId payload) rs = true ->
    settings E payload fmt baseUrl fs ->
    located E payload fmt baseUrl fs md5 searchMethod ->
    answer (getSlowDownloadLinks E md5 baseUrl fs)
    = Returned (firstLink :: rest) ->
    storageWorks E ->
    (forall s, download_history s = hs ->
               ~ In (newHistoryId E s) (map dh_id hs)) ->
    returnsE (shape rs hs js t) (processSearchEbook E payload)
      (fun res s =>
         res = queued payload fmt searchMethod md5 (S (List.length rest))
         /\ exists hid,
              shape (searchingRows payload rs t)
                (hs ++ [set_torrentUrl
                          (Some (JSON_stringify E (firstLink :: rest)))
                          (historyRow payload fmt searchMethod hid)])
                (js ++ [directJob payload fmt hid firstLink])%list t s).
Proof.
  intros E payload fmt baseUrl fs md5 searchMethod firstLink rest rs hs js t
         Hex Hset Hloc Hlinks Hstore Hfresh.
  unfold processSearchEbook. cbv zeta.
  unfold SearchEbook.info at 1. unfold Logger.info.
  eapply returnsE_bind; [apply returnsE_log | intros []].
  apply returnsE_tryCatch.
  eapply returnsE_post.
  - exact (searchAndQueue_queued E _ payload fmt baseUrl fs md5 searchMethod
             firstLink rest rs hs js t Hex Hset Hloc Hlinks Hstore).
  - intros res s (-> & s0 & Hs0 & Hs). split; [reflexivity|].
    exists (newHistoryId E s0).
    rewrite withLinks_fresh in Hs; [exact Hs | | reflexivity].
    apply Hfresh. exact Hs0.
Qed.

Lemma ebook_download_queued_witness :
  exists res s,
    processSearchEbook EbookCases.library EbookCases.payload EbookCases.start
    = (Returned res, s)
    /\ res = queued EbookCases.payload "epub" byTitle
               "d41d8cd98f00b204e9800998ecf8427e" 2
    /\ exists hid,
         shape
           (searchingRows EbookCases.payload
              (requests Cases.dbParentAndEbook) 1000)
           [set_torrentUrl
              (Some "[https://mirror.example/slow/1,https://mirror.example/slow/2]")
              (historyRow EbookCases.payload "epub" byTitle hid)]
           [directJob EbookCases.payload "epub" hid
              "https://mirror.example/slow/1"]
           1000 s.
Proof.
  apply (ebook_download_queued EbookCases.library EbookCases.payload
           "epub" "https://annas-archive.li" None
           "d41d8cd98f00b204e9800998ecf8427e" byTitle
           "https://mirror.example/slow/1"
           ["https://mirror.example/slow/2"]
           (requests Cases.dbParentAndEbook) [] [] 1000).
  - reflexivity.
  - split; [exists None; split; reflexivity|].
    split; exists None; split; reflexivity.
  - right. split; [|repeat split; discriminate].
    right. exists "B0TEST0001", None. repeat split.
  - reflexivity.
  - intros s. repeat split.
  - intros s _ [].
  - repeat split.
Defined.

Lemma awaiting_leaf payload msg text rs hs js t :
  existsb_id (requestId payload) rs = true ->
  returnsE (shape (searchingRows payload rs t) hs js t)
    (ebind
       (lift (request_update (requestId payload)
                (fun db r =>
                   set_updatedAt (now db)
                     (set_lastSearchAt (Some (now db))
                        (set_errorMessage (Some msg)
                           (set_status "awaiting_search" r))))))
       (fun _ =>
          eret {| success := false; message := text;
                  res_requestId := requestId payload;
                  searchResult := None |}))
    (fun res s =>
       success res = false /\ searchResult res = None
       /\ shape (awaitingRows payload msg rs t) hs js t s).
Proof.
  intros Hex.
  eapply returnsE_bind.
  { apply (returnsE_request_update _ _ (SearchIndexers.awaiting msg t)).
    - unfold searchingRows. rewrite existsb_id_updated;
        [exact Hex | reflexivity].
    - intros db r Hnow. unfold SearchIndexers.awaiting. rewrite Hnow.
      reflexivity. }
  intros []. apply returnsE_ret. intros s Hs. repeat split; apply Hs.
Qed.

(** X20: When neither search finds an md5 (an empty md5 counts as none), or
    one is found but the scraper offers no link for it, the processor
    returns a failure without search result, marks the Request
    awaiting_search with the message of the case, and writes neither a
    history row nor a download job. *)
Theorem ebook_awaits_retry :
  forall E payload fmt baseUrl fs msg rs hs js t,
    existsb_id (requestId payload) rs = true ->
    settings E payload fmt baseUrl fs ->
    (notLocated E payload fmt baseUrl fs /\ msg = noEbook)
    \/ (exists md5 searchMethod,
          located E payload fmt baseUrl fs md5 searchMethod
          /\ answer (getSlowDownloadLinks E md5 baseUrl fs) = Returned []
          /\ msg = noLinks) ->
    returnsE (shape rs hs js t) (processSearchEbook E payload)
      (fun res s =>
         success res = false /\ searchResult res = None
         /\ shape (awaitingRows payload msg rs t) hs js t s).
Proof.
  intros E payload fmt baseUrl fs msg rs hs js t Hex Hset Hcase.
  unfold processSearchEbook. cbv zeta.
  unfold SearchEbook.info at 1. unfold Logger.info.
  eapply returnsE_bind; [apply returnsE_log | intros []].
  apply returnsE_tryCatch.
  destruct Hcase as [(Hnone & ->) | (md5 & searchMethod & Hloc & Hlinks & ->)].
  - enter Hex Hset payload rs t.
    eapply returnsE_bind2; [apply searches_find_nothing; exact Hnone|].
    intros [r m]. apply returnsE_pure_pre. cbn [fst snd]. intros [Hr ->].
    unfold SearchEbook.warn, Logger.warn.
    apply orUndefined_none in Hr. destruct Hr as [-> | ->];
      repeat run; apply awaiting_leaf; assumption.
  - assert (md5 <> "") as Hne
        by (destruct Hloc as [((? & ? & ? & H) & _) | (_ & _ & H & _)];
            exact H).
    enter Hex Hset payload rs t.
    eapply returnsE_bind2; [apply searches_locate; exact Hloc|].
    intros y. apply returnsE_pure_pre. intros ->.
    apply nonempty_string in Hne. destruct Hne as (c1 & m & ->).
    cbn [fst snd].
    unfold SearchEbook.info, SearchEbook.warn, Logger.info, Logger.warn.
    repeat run. apply awaiting_leaf; assumption.
Qed.

Lemma ebook_awaits_retry_witness :
  exists res s,
    processSearchEbook EbookCases.emptyLibrary EbookCases.payload
      EbookCases.start
    = (Returned res, s)
    /\ success res = false /\ searchResult res = None
    /\ shape
         (awaitingRows EbookCases.payload noEbook
            (requests Cases.dbParentAndEbook) 1000)
         [] [] 1000 s.
Proof.
  apply (ebook_awaits_retry EbookCases.emptyLibrary EbookCases.payload
           "epub" "https://annas-archive.li" None noEbook
           (requests Cases.dbParentAndEbook) [] [] 1000).
  - reflexivity.
  - split; [exists None; split; reflexivity|].
    split; exists None; split; reflexivity.
  - left. split; [|reflexivity]. split.
    + right. exists "B0TEST0001", (Some ""). repeat split.
    + exists None. split; reflexivity.
  - repeat split.
Defined.

(** X21: A refused download leaves its history row behind.  When an md5 and
    at least one link are found and the history row is written, but the
    queue refuses the download with the error [e], the processor throws
    [e], marks the Request failed with the message of [e], queues
    nothing, and the history row written just before stays in the table:
    selected, queued, without links. *)
Theorem ebook_refused_download :
  forall E payload fmt baseUrl fs md5 searchMethod firstLink rest e
         rs hs js t,
    existsb_id (requestId payload) rs = true ->
    settings E payload fmt baseUrl fs ->
    located E payload fmt baseUrl fs md5 searchMethod ->
    answer (getSlowDownloadLinks E md5 baseUrl fs)
    = Returned (firstLink :: rest) ->
    (forall s, downloadHistory_create_error E s = None) ->
    (forall s, addStartDirectDownloadJob_error E s = Some e) ->
    throwsE (shape rs hs js t) (processSearchEbook E payload) e
      (fun s =>
         exists hid,
           shape (failedRows payload rs t e)
             (hs ++ [historyRow payload fmt searchMethod hid])%list js t s).
Proof.
  intros E payload fmt baseUrl fs md5 searchMethod firstLink rest e
         rs hs js t Hex Hset Hloc Hlinks Hcreate Hqueue.
  assert (md5 <> "") as Hne
      by (destruct Hloc as [((? & ? & ? & H) & _) | (_ & _ & H & _)];
          exact H).
  unfold processSearchEbook. cbv zeta.
  unfold SearchEbook.info at 1. unfold Logger.info.
  eapply throwsE_bind_r; [apply returnsE_log | intros []].
  eapply (throwsE_tryCatch _ _ e
            (fun s => exists hid,
                 shape (searchingRows payload rs t)
                   (hs ++ [historyRow payload fmt searchMethod hid])%list
                   js t s)).
  - enter Hex Hset payload rs t.
    eapply throwsE_bind2; [apply searches_locate; exact Hloc|].
    intros y. apply throwsE_pure_pre. intros ->.
    apply nonempty_string in Hne. destruct Hne as (c1 & m & ->).
    cbn [fst snd]. unfold SearchEbook.info, Logger.info.
    repeat run.
    intros st (H1 & H2 & H3 & H4).
    unfold ebind, eget, downloadHistory_create, addStartDirectDownloadJob.
    rewrite Hcreate, Hqueue.
    eexists. split; [reflexivity|]. exists (newHistoryId E st).
    repeat split; cbn; try assumption. rewrite H2. reflexivity.
  - intros s (hid & Hs).
    unfold SearchEbook.error, Logger.error, ebind.
    destruct (returnsE_log (logEnv E)
                (Logger.forJob (jobId payload) "SearchEbook") Lerror
                ("Error: " ++ match e with
                               | Error m => m
                               | NonError => "Unknown error"
                               end) None _ _ _ _ s Hs)
      as ([] & s1 & -> & Hs1).
    destruct (returnsE_request_update (requestId payload)
                (fun db r =>
                   set_updatedAt (now db)
                     (set_errorMessage
                        (Some match e with
                              | Error m => m
                              | NonError =>
                                  "Unknown error during ebook search"
                              end)
                        (set_status "failed" r)))
                (SearchIndexers.failedWith (storedMessage e) t)
                (searchingRows payload rs t)
                (hs ++ [historyRow payload fmt searchMethod hid])%list js t)
      with (s := s1) as ([] & s2 & -> & Hs2).
    + unfold searchingRows. rewrite existsb_id_updated;
        [exact Hex | reflexivity].
    + intros db r Hnow. unfold SearchIndexers.failedWith, storedMessage.
      rewrite Hnow. reflexivity.
    + exact Hs1.
    + eexists. split; [reflexivity|]. exists hid. exact Hs2.
Qed.

Lemma ebook_refused_download_witness :
  exists s,
    processSearchEbook EbookCases.queueDown EbookCases.payload
      EbookCases.start
    = (Threw (Error "Queue unavailable"), s)
    /\ exists hid,
         shape
           (failedRows EbookCases.payload
              (requests Cases.dbParentAndEbook) 1000
              (Error "Queue unavailable"))
           [historyRow EbookCases.payload "epub" byTitle hid] [] 1000 s.
Proof.
  apply (ebook_refused_download EbookCases.queueDown EbookCases.payload
           "epub" "https://annas-archive.li" None
           "d41d8cd98f00b204e9800998ecf8427e" byTitle
           "https://mirror.example/slow/1"
           ["https://mirror.example/slow/2"] (Error "Queue unavailable")
           (requests Cases.dbParentAndEbook) [] [] 1000).
  - reflexivity.
  - split; [exists None; split; reflexivity|].
    split; exists None; split; reflexivity.
  - right. split; [|repeat split; discriminate].
    right. exists "B0TEST0001", None. repeat split.
  - reflexivity.
  - intros s. reflexivity.
  - intros s. reflexivity.
  - repeat split.
Defined.

End EbookPaths.

(** ** The user approval route *)

Module UserApprovalProofs.
Import Store UserApproval.

Lemma property_approveOf body :
  body <> SearchIndexers.JNull ->
  SearchIndexers.property "approve" body = Returned (approveOf body).
Proof.
  unfold approveOf. destruct body; cbn; intros H; try reflexivity.
  congruence.
Qed.

Lemma find_existsb_user uid us u :
  find (fun u => String.eqb (user_id u) uid) us = Some u ->
  existsb_user uid us = true.
Proof.
  intros H. apply find_some in H. unfold existsb_user.
  apply existsb_exists. exists u. exact H.
Qed.

Lemma find_removed uid us :
  find (fun u => String.eqb (user_id u) uid)
       (filter (fun u => negb (String.eqb (user_id u) uid)) us) = None.
Proof.
  induction us as [|u us IH]; [reflexivity|]. cbn [filter].
  destruct (String.eqb (user_id u) uid) eqn:Eq; cbn [negb]; [exact IH|].
  cbn [find]. rewrite Eq. exact IH.
Qed.

Lemma find_approved uid us u :
  find (fun u => String.eqb (user_id u) uid) us = Some u ->
  find (fun u => String.eqb (user_id u) uid)
       (map (fun u => if String.eqb (user_id u) uid
                      then set_registrationStatus "approved" u else u) us)
  = Some (set_registrationStatus "approved" u).
Proof.
  induction us as [|v us IH]; [discriminate|]. cbn [find map].
  destruct (String.eqb (user_id v) uid) eqn:Eq.
  - intros H. inversion H; subst. cbn [user_id set_registrationStatus].
    rewrite Eq. reflexivity.
  - rewrite Eq. exact IH.
Qed.

Lemma ids_approved uid us :
  map user_id
    (map (fun u => if String.eqb (user_id u) uid
                   then set_registrationStatus "approved" u else u) us)
  = map user_id us.
Proof.
  rewrite map_map. apply map_ext. intros u.
  destruct (String.eqb (user_id u) uid); reflexivity.
Qed.

(** The run of a call that is served and finds the user pending. *)
Lemma POST_pending E uid s body u :
  served E body -> findUser uid s = Some u -> pending u ->
  POST E uid s
  = if truthy (approveOf body)
    then (Returned (NextResponse_json
                      (SuccessBody ("User " ++ plexUsername u
                                    ++ " has been approved")) 200),
          with_users s
            (map (fun u => if String.eqb (user_id u) uid
                           then set_registrationStatus "approved" u else u)
                 (users s)))
    else (Returned (NextResponse_json
                      (SuccessBody ("User " ++ plexUsername u
                                    ++ " has been rejected and removed"))
                      200),
          with_users s
            (filter (fun u => negb (String.eqb (user_id u) uid)) (users s))).
Proof.
  intros (Hauth & Hadm & Hbody & Hnn & Hf & Hu & Hd) Hfind Hp.
  unfold POST. rewrite Hauth, Hadm. cbn [negb].
  unfold utryCatch, handler, ubind, uliftOutcome, user_findUnique.
  rewrite Hbody, (property_approveOf _ Hnn), Hf.
  unfold findUser in Hfind. rewrite Hfind.
  unfold pending in Hp. rewrite Hp, String.eqb_refl. cbn [negb].
  destruct (truthy (approveOf body)).
  - unfold user_update. rewrite Hu, (find_existsb_user _ _ _ Hfind).
    reflexivity.
  - unfold user_delete. rewrite Hd, (find_existsb_user _ _ _ Hfind).
    reflexivity.
Qed.

(** X22: Rejection is the default.  When an administrator's call is served
    and the user is pending approval, the user is approved if the body
    holds a truthy [approve]; in every other case, also when the field is
    missing, null, false, 0 or the empty string, the user is deleted.
    Either way the users with another id stay as they are. *)
Theorem approval_defaults_to_removal :
  forall E uid s body u,
    served E body -> findUser uid s = Some u -> pending u ->
    exists resp s',
      POST E uid s = (Returned resp, s')
      /\ succeeded resp = true
      /\ base s' = base s
      /\ (forall v, user_id v <> uid ->
                    (In v (users s') <-> In v (users s)))
      /\ (if truthy (approveOf body)
          then findUser uid s' = Some (set_registrationStatus "approved" u)
               /\ map user_id (users s') = map user_id (users s)
          else findUser uid s' = None).
Proof.
  intros E uid s body u Hserved Hfind Hp.
  rewrite (POST_pending E uid s body u Hserved Hfind Hp).
  destruct (truthy (approveOf body)).
  - eexists _, _. split; [reflexivity|]. split; [reflexivity|].
    split; [reflexivity|]. cbn [users with_users]. split.
    + intros v Hv. rewrite in_map_iff. split.
      * intros (w & Ew & Hin).
        destruct (String.eqb (user_id w) uid) eqn:Eq; [|subst; exact Hin].
        apply String.eqb_eq in Eq. subst v. cbn in Hv. contradiction.
      * intros Hin. exists v. split; [|exact Hin].
        destruct (String.eqb (user_id v) uid) eqn:Eq; [|reflexivity].
        apply String.eqb_eq in Eq. contradiction.
    + split; [apply find_approved; exact Hfind | apply ids_approved].
  - eexists _, _. split; [reflexivity|]. split; [reflexivity|].
    split; [reflexivity|]. cbn [users with_users]. split.
    + intros v Hv. rewrite filter_In. split; [tauto|].
      intros Hin. split; [exact Hin|].
      apply negb_true_iff, String.eqb_neq. exact Hv.
    + apply find_removed.
Qed.

Lemma approval_defaults_to_removal_witness :
  exists resp s',
    POST ApprovalCases.bodyless "u-2" ApprovalCases.start
    = (Returned resp, s')
    /\ succeeded resp = true
    /\ base s' = base ApprovalCases.start
    /\ (forall v, user_id v <> "u-2" ->
                  (In v (users s') <-> In v (users ApprovalCases.start)))
    /\ findUser "u-2" s' = None.
Proof.
  apply (approval_defaults_to_removal ApprovalCases.bodyless "u-2"
           ApprovalCases.start (SearchIndexers.JObj [])
           ApprovalCases.newcomer).
  - repeat split. discriminate.
  - reflexivity.
  - reflexivity.
Defined.

Lemma catch_keeps_users E err s :
  exists s',
    ubind
      (lift (Logger.error (logEnv E) logger "Failed to approve/reject user"
               (Some [("error",
                       match err with
                       | Error m => m
                       | NonError => "[object]"
                       end)])))
      (fun _ =>
         uret (NextResponse_json
                 (ErrorBody "Failed to process user approval") 500)) s
    = (Returned (NextResponse_json
                   (ErrorBody "Failed to process user approval") 500), s')
    /\ users s' = users s.
Proof.
  unfold ubind, lift, Logger.error.
  pose proof (LoggerProofs.log_returns (logEnv E) logger Lerror
                "Failed to approve/reject user"
                (Some [("error",
                        match err with
                        | Error m => m
                        | NonError => "[object]"
                        end)]) (base s)) as Hr.
  destruct (Logger.log _ _ _ _ _ (base s)) as [o db']. cbn [fst] in Hr.
  subst o. eexists. split; reflexivity.
Qed.

(** The ways the handler can go: it throws or answers without success
    and leaves the store alone, or it finds the user pending and
    approves, or removes. *)
Lemma handler_cases E uid s :
  (exists e, handler E uid s = (Threw e, s))
  \/ (exists resp,
        handler E uid s = (Returned resp, s) /\ succeeded resp = false)
  \/ (exists u resp,
        findUser uid s = Some u /\ pending u /\ succeeded resp = true
        /\ (handler E uid s
            = (Returned resp,
               with_users s
                 (map (fun u => if String.eqb (user_id u) uid
                                then set_registrationStatus "approved" u
                                else u)
                      (users s)))
            \/ handler E uid s
               = (Returned resp,
                  with_users s
                    (filter (fun u => negb (String.eqb (user_id u) uid))
                            (users s))))).
Proof.
  unfold handler, ubind, uliftOutcome, user_findUnique, uret.
  destruct (request_json E) as [body|e]; [|left; eexists; reflexivity].
  destruct (SearchIndexers.property "approve" body) as [approve|e];
    [|left; eexists; reflexivity].
  destruct (user_findUnique_error E) as [e|];
    [left; eexists; reflexivity|].
  fold (findUser uid s).
  destruct (findUser uid s) as [u|] eqn:Hfind;
    [|right; left; eexists; split; reflexivity].
  destruct (String.eqb (registrationStatus u) "pending_approval") eqn:Hp;
    cbn [negb]; [|right; left; eexists; split; reflexivity].
  apply String.eqb_eq in Hp.
  destruct (truthy approve).
  - unfold user_update.
    destruct (user_update_error E) as [e|];
      [left; eexists; reflexivity|].
    rewrite (find_existsb_user _ _ _ Hfind).
    right. right. eexists u, _. split; [reflexivity|]. split; [exact Hp|].
    split; [|left; reflexivity]. reflexivity.
  - unfold user_delete.
    destruct (user_delete_error E) as [e|];
      [left; eexists; reflexivity|].
    rewrite (find_existsb_user _ _ _ Hfind).
    right. right. eexists u, _. split; [reflexivity|]. split; [exact Hp|].
    split; [|right; reflexivity]. reflexivity.
Qed.

(** The same for the route. *)
Lemma approval_cases E uid s :
  (exists resp s',
      POST E uid s = (Returned resp, s')
      /\ succeeded resp = false /\ users s' = users s)
  \/ (exists u resp,
        findUser uid s = Some u /\ pending u /\ succeeded resp = true
        /\ (POST E uid s
            = (Returned resp,
               with_users s
                 (map (fun u => if String.eqb (user_id u) uid
                                then set_registrationStatus "approved" u
                                else u)
                      (users s)))
            \/ POST E uid s
               = (Returned resp,
                  with_users s
                    (filter (fun u => negb (String.eqb (user_id u) uid))
                            (users s))))).
Proof.
  unfold POST.
  destruct (authenticated E); [|left; eexists _, _; repeat split].
  destruct (isAdmin E); [|left; eexists _, _; repeat split].
  cbn [negb]. unfold utryCatch.
  destruct (handler_cases E uid s)
    as [(e & ->) | [(resp & -> & Hno)
                   | (u & resp & Hfind & Hp & Hok & [-> | ->])]].
  - left. destruct (catch_keeps_users E e s) as (s' & -> & Hs).
    eexists _, _. repeat split. exact Hs.
  - left. eexists _, _. repeat split. exact Hno.
  - right. exists u, resp. repeat split; auto.
  - right. exists u, resp. repeat split; auto.
Qed.

Lemma unique_user us a b :
  NoDup (map user_id us) -> In a us -> In b us -> user_id a = user_id b ->
  a = b.
Proof.
  induction us as [|r us IH]; intros Hnd Ha Hb Hid; [destruct Ha|].
  cbn [map] in Hnd. inversion Hnd as [|x l Hnotin Hnd']; subst.
  destruct Ha as [-> | Ha], Hb as [-> | Hb].
  - reflexivity.
  - exfalso. apply Hnotin. rewrite Hid. apply in_map. exact Hb.
  - exfalso. apply Hnotin. rewrite <- Hid. apply in_map. exact Ha.
  - exact (IH Hnd' Ha Hb Hid).
Qed.

(** X23: The route touches nobody but a pending user with the id of the call.
    When user ids are unique, whatever the caller, the body and the
    failures of the database, every user with another id or another
    status is in the table afterwards exactly as before, and every user
    in the table afterwards was there before or is the approved version
    of the pending user addressed. *)
Theorem approval_touches_pending_only :
  forall E uid s,
    NoDup (map user_id (users s)) ->
    (forall v, In v (users s) -> user_id v <> uid \/ ~ pending v ->
               In v (users (snd (POST E uid s))))
    /\ (forall v, In v (users (snd (POST E uid s))) ->
                  In v (users s)
                  \/ exists u, In u (users s) /\ pending u
                               /\ user_id u = uid
                               /\ v = set_registrationStatus "approved" u).
Proof.
  intros E uid s Hnd.
  destruct (approval_cases E uid s)
    as [(resp & s' & -> & _ & Hs) | (u & resp & Hfind & Hp & _ & Hrun)].
  { cbn [snd]. rewrite Hs. split; auto. }
  assert (In u (users s) /\ user_id u = uid) as [Hin Hid].
  { unfold findUser in Hfind. apply find_some in Hfind.
    split; [tauto|]. apply String.eqb_eq. tauto. }
  assert (forall v, In v (users s) -> user_id v <> uid \/ ~ pending v ->
                    String.eqb (user_id v) uid = false) as Hother.
  { intros v Hv [Hne | Hnp]; [apply String.eqb_neq; exact Hne|].
    destruct (String.eqb (user_id v) uid) eqn:Eq; [|reflexivity].
    apply String.eqb_eq in Eq. exfalso. apply Hnp.
    rewrite (unique_user _ v u Hnd Hv Hin); [exact Hp | congruence]. }
  destruct Hrun as [-> | ->]; cbn [snd users with_users]; split.
  - intros v Hv Hcase. apply in_map_iff. exists v.
    rewrite (Hother v Hv Hcase). split; [reflexivity | exact Hv].
  - intros v Hv. apply in_map_iff in Hv. destruct Hv as (w & Ew & Hw).
    destruct (String.eqb (user_id w) uid) eqn:Eq; [|left; subst; exact Hw].
    right. apply String.eqb_eq in Eq.
    assert (w = u) as -> by (apply (unique_user _ w u Hnd Hw Hin); congruence).
    exists u. repeat split; auto.
  - intros v Hv Hcase. apply filter_In. split; [exact Hv|].
    rewrite (Hother v Hv Hcase). reflexivity.
  - intros v Hv. apply filter_In in Hv. left. tauto.
Qed.

Lemma approval_touches_pending_only_witness :
  In ApprovalCases.member
     (users (snd (POST ApprovalCases.bodyless "u-1" ApprovalCases.start))).
Proof.
  assert (NoDup (map user_id (users ApprovalCases.start))) as Hnd
      by (repeat constructor; cbn; intuition discriminate).
  apply (proj1 (approval_touches_pending_only ApprovalCases.bodyless "u-1"
                  ApprovalCases.start Hnd)
               ApprovalCases.member).
  - left. reflexivity.
  - right. discriminate.
Defined.

(** X24: Decisions are final.  After a call that answered with a success,
    whether it approved or removed the user, no later call for the same
    id succeeds or changes the user table, whoever makes it and whatever
    its body says. *)
Theorem approval_is_final :
  forall E uid s resp s1,
    POST E uid s = (Returned resp, s1) -> succeeded resp = true ->
    forall E2,
      exists resp2 s2,
        POST E2 uid s1 = (Returned resp2, s2)
        /\ succeeded resp2 = false
        /\ users s2 = users s1.
Proof.
  intros E uid s resp s1 Hrun Hok E2.
  destruct (approval_cases E2 uid s1)
    as [(resp2 & s2 & Hrun2 & Hno & Hs) | (u & resp2 & Hfind & Hp & _)].
  { exists resp2, s2. auto. }
  exfalso.
  destruct (approval_cases E uid s)
    as [(r & s' & Hr & Hno & _) | (u0 & r & Hfind0 & Hp0 & _ & [Hr | Hr])];
    rewrite Hr in Hrun; inversion Hrun; subst.
  - rewrite Hok in Hno. discriminate.
  - unfold findUser in Hfind. cbn [users with_users] in Hfind.
    unfold findUser in Hfind0.
    rewrite (find_approved _ _ _ Hfind0) in Hfind.
    inversion Hfind; subst. discriminate Hp.
  - unfold findUser in Hfind. cbn [users with_users] in Hfind.
    rewrite find_removed in Hfind. discriminate.
Qed.

Lemma approval_is_final_witness :
  exists resp2 s2,
    POST ApprovalCases.approving "u-2"
      (snd (POST ApprovalCases.bodyless "u-2" ApprovalCases.start))
    = (Returned resp2, s2)
    /\ succeeded resp2 = false
    /\ users s2
       = users (snd (POST ApprovalCases.bodyless "u-2" ApprovalCases.start)).
Proof.
  apply (approval_is_final ApprovalCases.bodyless "u-2" ApprovalCases.start
           (NextResponse_json
              (SuccessBody "User newcomer has been rejected and removed")
              200)
           (snd (POST ApprovalCases.bodyless "u-2" ApprovalCases.start))).
  - reflexivity.
  - reflexivity.
Defined.

End UserApprovalProofs.

(** ** The local login endpoint *)

Module LocalLoginProofs.
Import Store LocalLogin.

Ltac skip_log :=
  match goal with
  | [ |- context [bind (Logger.log ?L (Logger.create ?x) ?lv ?m ?md) ?k ?d] ] =>
      let c := fresh "c" in
      destruct (FetchEbookCalls.bind_log_create L x lv m md k d) as [c ->]
  | [ H : context [bind (Logger.log ?L (Logger.create ?x) ?lv ?m ?md) ?k ?d]
      |- _ ] =>
      let c := fresh "c" in
      let Hc := fresh "Hc" in
      destruct (FetchEbookCalls.bind_log_create L x lv m md k d) as [c Hc];
      rewrite Hc in H; clear Hc
  end.

Lemma bind_liftOutcome {A B} (o : Outcome A) (k : A -> M B) db :
  bind (liftOutcome o) k db
  = match o with
    | Returned a => k a db
    | Threw e => (Threw e, db)
    end.
Proof. unfold bind, liftOutcome. destruct o; reflexivity. Qed.

(** The handler, by the credentials found in the request. *)
Lemma handler_without_credentials E db :
  disabled E = false -> credentials E = None ->
  (exists e, handler E db = (Threw e, db))
  \/ handler E db
     = (Returned (NextResponse_json
                    (ErrorBody (Some "Username and password are required"))
                    400), db).
Proof.
  intros Hd Hc. unfold handler. rewrite Hd. unfold credentials in Hc.
  rewrite bind_liftOutcome.
  destruct (request_json E) as [body|e]; [|left; eexists; reflexivity].
  rewrite bind_liftOutcome.
  destruct (SearchIndexers.property "username" body) as [u|e];
    [|left; eexists; reflexivity].
  rewrite bind_liftOutcome.
  destruct (SearchIndexers.property "password" body) as [p|e];
    [|left; eexists; reflexivity].
  destruct (UserApproval.truthy u && UserApproval.truthy p) eqn:Ht;
    [discriminate Hc|].
  rewrite <- negb_andb, Ht. right. reflexivity.
Qed.

Lemma handler_with_credentials E db u p :
  disabled E = false -> credentials E = Some (u, p) ->
  exists c,
    handler E db
    = bind (liftOutcome (handleCallback E u p))
        (fun result =>
           if negb (success result)
           then
             if requiresApproval result
             then
               bind (Logger.info (logEnv E) logger "Account pending approval"
                       (Some [("username", show E u)]))
                 (fun _ =>
                    ret (NextResponse_json
                           (PendingBody "Account pending admin approval.")
                           200))
             else
               bind (Logger.error (logEnv E) logger "Login failed"
                       (Some [("error",
                               show E (option_map SearchIndexers.JStr
                                                  (error result)))]))
                 (fun _ =>
                    ret (NextResponse_json (ErrorBody (error result)) 401))
           else
             bind (Logger.info (logEnv E) logger "Login successful"
                     (Some [("username", show E u)]))
               (fun _ =>
                  bind (Logger.debug (logEnv E) logger "User data"
                          (Some [("user", show E (Some (user result)))]))
                    (fun _ =>
                       bind (Logger.debug (logEnv E) logger
                               "Token generated successfully" None)
                         (fun _ =>
                            match tokens result with
                            | None =>
                                throw (Error
                                  "Cannot read properties of undefined (reading 'accessToken')")
                            | Some t =>
                                ret (NextResponse_json
                                       (LoginBody (user result)
                                          (accessToken t) (refreshToken t))
                                       200)
                            end))))
        (with_console db c).
Proof.
  intros Hd Hc. unfold handler. rewrite Hd. unfold credentials in Hc.
  rewrite bind_liftOutcome.
  destruct (request_json E) as [body|e]; [|discriminate Hc].
  rewrite bind_liftOutcome.
  destruct (SearchIndexers.property "username" body) as [u0|e];
    [|discriminate Hc].
  rewrite bind_liftOutcome.
  destruct (SearchIndexers.property "password" body) as [p0|e];
    [|discriminate Hc].
  destruct (UserApproval.truthy u0 && UserApproval.truthy p0) eqn:Ht;
    [|discriminate Hc].
  inversion Hc; subst. rewrite <- negb_andb, Ht. cbn [negb].
  unfold Logger.info at 1, logger. skip_log. exists c. reflexivity.
Qed.

Lemma catch_answers E err db :
  exists c,
    bind (Logger.error (logEnv E) logger "Error"
            (Some [("error",
                    match err with
                    | Error m => m
                    | NonError => "[object]"
                    end)]))
      (fun _ => ret (NextResponse_json (ErrorBody (Some "Login failed")) 500))
      db
    = (Returned (NextResponse_json (ErrorBody (Some "Login failed")) 500),
       with_console db c).
Proof.
  unfold Logger.error, logger. skip_log. exists c. reflexivity.
Qed.

(** X25: Tokens come from the provider only.  Whenever the endpoint answers
    with tokens, local login is not disabled, the body of the request
    holds a username and a password that are both truthy, the provider
    was asked with exactly these and reported a success carrying exactly
    the tokens answered, and the status is 200. *)
Theorem tokens_only_from_provider :
  forall E db resp db' t,
    POST E db = (Returned resp, db') ->
    issued resp = Some t ->
    disabled E = false
    /\ exists u p result,
         credentials E = Some (u, p)
         /\ handleCallback E u p = Returned result
         /\ success result = true
         /\ tokens result = Some t
         /\ statusOf resp = 200%Z.
Proof.
  intros E db resp db' t Hrun Hiss. unfold POST, tryCatch in Hrun.
  destruct (disabled E) eqn:Hd.
  { unfold handler in Hrun. rewrite Hd in Hrun. cbn in Hrun.
    inversion Hrun; subst. discriminate Hiss. }
  split; [reflexivity|].
  destruct (credentials E) as [[u p]|] eqn:Hc.
  2:{ destruct (handler_without_credentials E db Hd Hc) as [[e He] | He];
        rewrite He in Hrun.
      - destruct (catch_answers E e db) as [c Hcatch].
        rewrite Hcatch in Hrun. inversion Hrun; subst. discriminate Hiss.
      - inversion Hrun; subst. discriminate Hiss. }
  exists u, p.
  destruct (handler_with_credentials E db u p Hd Hc) as [c He].
  rewrite He in Hrun. clear He. rewrite bind_liftOutcome in Hrun.
  destruct (handleCallback E u p) as [result|e].
  2:{ destruct (catch_answers E e (with_console db c)) as [c2 Hcatch].
      rewrite Hcatch in Hrun. inversion Hrun; subst. discriminate Hiss. }
  exists result. split; [reflexivity|]. split; [reflexivity|].
  destruct (success result); cbn [negb] in Hrun.
  - unfold Logger.info, Logger.debug, logger in Hrun.
    do 3 skip_log.
    destruct (tokens result) as [tk|].
    + cbn in Hrun. inversion Hrun; subst. cbn in Hiss.
      inversion Hiss; subst. destruct tk; repeat split.
    + unfold throw in Hrun. unfold Logger.error, logger in Hrun.
      skip_log. cbn in Hrun. inversion Hrun; subst. discriminate Hiss.
  - destruct (requiresApproval result);
      unfold Logger.info, Logger.error, logger in Hrun; skip_log;
      cbn in Hrun; inversion Hrun; subst; discriminate Hiss.
Qed.

Lemma tokens_only_from_provider_witness :
  disabled LoginCases.login = false
  /\ exists u p result,
       credentials LoginCases.login = Some (u, p)
       /\ handleCallback LoginCases.login u p = Returned result
       /\ success result = true
       /\ tokens result = Some LoginCases.goodTokens
       /\ statusOf
            (NextResponse_json
               (LoginBody
                  (SearchIndexers.JObj
                     [("username", SearchIndexers.JStr "admin")])
                  "access-1" "refresh-1") 200) = 200%Z.
Proof.
  apply (tokens_only_from_provider LoginCases.login Scenario.dbPending
           (NextResponse_json
              (LoginBody
                 (SearchIndexers.JObj
                    [("username", SearchIndexers.JStr "admin")])
                 "access-1" "refresh-1") 200)
           (snd (POST LoginCases.login Scenario.dbPending))
           LoginCases.goodTokens).
  - reflexivity.
  - reflexivity.
Defined.

Lemma handler_ignores_provider E provider db :
  disabled E = true \/ credentials E = None ->
  handler (withProvider E provider) db = handler E db.
Proof.
  intros Hcase. unfold handler.
  change (disabled (withProvider E provider)) with (disabled E).
  destruct (disabled E); [reflexivity|].
  destruct Hcase as [Hd | Hc]; [discriminate Hd|].
  unfold credentials in Hc.
  change (request_json (withProvider E provider)) with (request_json E).
  rewrite !bind_liftOutcome.
  destruct (request_json E) as [body|e]; [|reflexivity].
  rewrite !bind_liftOutcome.
  destruct (SearchIndexers.property "username" body) as [u|e];
    [|reflexivity].
  rewrite !bind_liftOutcome.
  destruct (SearchIndexers.property "password" body) as [p|e];
    [|reflexivity].
  destruct (UserApproval.truthy u && UserApproval.truthy p) eqn:Ht;
    [discriminate Hc|].
  rewrite <- negb_andb, Ht. reflexivity.
Qed.

(** X26: Without credentials the provider is not asked.  When local login is
    disabled, or the body of the request cannot be read or lacks a truthy
    username or password, the endpoint does the same whatever the
    provider would answer: it issues no tokens and answers 403, 400 or
    500. *)
Theorem provider_not_consulted :
  forall E provider db,
    disabled E = true \/ credentials E = None ->
    POST (withProvider E provider) db = POST E db
    /\ exists resp db',
         POST E db = (Returned resp, db')
         /\ issued resp = None
         /\ (statusOf resp = 403 \/ statusOf resp = 400
             \/ statusOf resp = 500)%Z.
Proof.
  intros E provider db Hcase. split.
  { unfold POST, tryCatch.
    rewrite (handler_ignores_provider E provider db Hcase). reflexivity. }
  unfold POST, tryCatch.
  destruct (disabled E) eqn:Hd.
  { unfold handler. rewrite Hd. eexists _, _. split; [reflexivity|].
    split; [reflexivity | left; reflexivity]. }
  destruct Hcase as [Hd' | Hc]; [discriminate Hd'|].
  destruct (handler_without_credentials E db Hd Hc) as [[e ->] | ->].
  - destruct (catch_answers E e db) as [c ->].
    eexists _, _. split; [reflexivity|].
    split; [reflexivity | right; right; reflexivity].
  - eexists _, _. split; [reflexivity|].
    split; [reflexivity | right; left; reflexivity].
Qed.

Lemma provider_not_consulted_witness :
  POST (withProvider LoginCases.switchedOff LoginCases.openDoor)
       Scenario.dbPending
  = POST LoginCases.switchedOff Scenario.dbPending
  /\ exists resp db',
       POST LoginCases.switchedOff Scenario.dbPending = (Returned resp, db')
       /\ issued resp = None
       /\ (statusOf resp = 403 \/ statusOf resp = 400
           \/ statusOf resp = 500)%Z.
Proof.
  apply (provider_not_consulted LoginCases.switchedOff LoginCases.openDoor
           Scenario.dbPending).
  left. reflexivity.
Defined.

End LocalLoginProofs.

(** ** Version route and badge *)

Module VersionProofs.
Import Store VersionBadge.

Lemma substring_all n : forall s,
  (String.length s <= n)%nat -> String.substring 0 n s = s.
Proof.
  induction n as [|n IH]; intros s Hs.
  - destruct s; [reflexivity | cbn in Hs; lia].
  - destruct s as [|c s]; [reflexivity|]. cbn [String.substring].
    rewrite IH by (cbn in Hs; lia). reflexivity.
Qed.

Lemma substring_length n : forall s,
  (String.length (String.substring 0 n s) <= n)%nat.
Proof.
  induction n as [|n IH]; intros s.
  - destruct s; cbn; lia.
  - destruct s as [|c s]; cbn; [lia|]. specialize (IH s). lia.
Qed.

Lemma substring_prefix n : forall s,
  String.prefix (String.substring 0 n s) s = true.
Proof.
  induction n as [|n IH]; intros s.
  - destruct s; reflexivity.
  - destruct s as [|c s]; [reflexivity|]. cbn.
    destruct (ascii_dec c c); [apply IH | congruence].
Qed.

Lemma prefix_refl s : String.prefix s s = true.
Proof.
  induction s as [|c s IH]; [reflexivity|]. cbn.
  destruct (ascii_dec c c); [exact IH | congruence].
Qed.

Lemma shortened c :
  (if (7 <=? String.length c)%nat then substring7 c else c) = substring7 c.
Proof.
  destruct (7 <=? String.length c)%nat eqn:H; [reflexivity|].
  apply Nat.leb_gt in H. unfold substring7.
  rewrite substring_all by lia. reflexivity.
Qed.

(** X27: Inlining the variables changes nothing.  A badge built with the
    version and commit of the server shows, in state and rendering,
    exactly what a badge built without them shows after asking the
    version route of that server; and when the version is inlined and
    usable, the route is not asked at all. *)
Theorem badge_agrees_with_route :
  forall E o,
    useEffect (builtWith E (Returned (served (Version.GET E))))
    = useEffect (servedBy E)
    /\ (SearchEbook.orElse (Version.APP_VERSION E) "unknown" <> "unknown" ->
        useEffect (builtWith E o) = useEffect (servedBy E)).
Proof.
  assert (forall E o,
             SearchEbook.orElse (Version.APP_VERSION E) "unknown"
             <> "unknown" ->
             useEffect (builtWith E o) = useEffect (servedBy E)) as Hmain.
  { intros E o Hv. unfold useEffect, builtWith, servedBy, served, Version.GET.
    cbn [NEXT_PUBLIC_APP_VERSION NEXT_PUBLIC_GIT_COMMIT fetch_version
         data_version data_commit Version.version Version.commit].
    destruct (Version.APP_VERSION E) as [[|c0 v]|]; cbn [SearchEbook.orElse] in *;
      try congruence.
    destruct (String.eqb (String c0 v) "unknown") eqn:Eq;
      [apply String.eqb_eq in Eq; congruence|].
    cbn [negb]. f_equal.
    destruct (Version.GIT_COMMIT E) as [[|c1 g]|]; cbn [SearchEbook.orElse];
      try reflexivity.
    destruct (String.eqb (String c1 g) "unknown"); cbn [negb];
      [reflexivity|].
    rewrite shortened. reflexivity. }
  intros E o. split; [|apply Hmain].
  destruct (string_dec (SearchEbook.orElse (Version.APP_VERSION E) "unknown")
                       "unknown") as [Hu | Hv]; [|apply Hmain; exact Hv].
  unfold useEffect, builtWith, servedBy.
  cbn [NEXT_PUBLIC_APP_VERSION NEXT_PUBLIC_GIT_COMMIT fetch_version].
  destruct (Version.APP_VERSION E) as [[|c0 v]|]; try reflexivity.
  cbn [SearchEbook.orElse] in Hu. rewrite Hu. reflexivity.
Qed.

Lemma badge_agrees_with_route_witness :
  useEffect (builtWith VersionCases.release (Threw NonError))
  = useEffect (servedBy VersionCases.release).
Proof.
  apply (proj2 (badge_agrees_with_route VersionCases.release
                  (Threw NonError))).
  discriminate.
Defined.

(** X28: The badge never shows more than seven characters of a commit: the
    commit in its state, if any, is a non-empty prefix of at most seven
    characters of the commit it was given, at build time or by the
    server. *)
Theorem badge_commit_is_short :
  forall E c,
    commit (useEffect E) = Some c ->
    c <> ""
    /\ (String.length c <= 7)%nat
    /\ exists given,
         commitGiven E = Some given /\ String.prefix c given = true.
Proof.
  intros E c. unfold useEffect, commitGiven.
  assert (forall g : string,
             g <> "" -> substring7 g <> ""
             /\ (String.length (substring7 g) <= 7)%nat
             /\ String.prefix (substring7 g) g = true) as Hs.
  { intros g Hg. split; [destruct g; [congruence | discriminate]|].
    split; [apply substring_length | apply substring_prefix]. }
  assert (match fetch_version E with
          | Returned data =>
              match data_commit data with
              | Some (String _ _ as c0) =>
                  if negb (String.eqb c0 "unknown")
                  then Some (substring7 c0) else None
              | _ => None
              end
          | Threw _ => None
          end = Some c ->
          c <> "" /\ (String.length c <= 7)%nat
          /\ exists given,
               match fetch_version E with
               | Returned data => data_commit data
               | Threw _ => None
               end = Some given /\ String.prefix c given = true) as Hfetch.
  { destruct (fetch_version E) as [data|e]; [|discriminate].
    destruct (data_commit data) as [[|c1 g]|]; try discriminate.
    destruct (negb (String.eqb (String c1 g) "unknown")); [|discriminate].
    intros H. inversion H; subst.
    destruct (Hs (String c1 g)) as (H1 & H2 & H3); [discriminate|].
    split; [exact H1|]. split; [exact H2|]. eexists. split; [reflexivity|].
    exact H3. }
  destruct (NEXT_PUBLIC_APP_VERSION E) as [[|c0 v]|].
  - destruct (fetch_version E); cbn [commit]; exact Hfetch.
  - destruct (negb (String.eqb (String c0 v) "unknown")).
    + cbn [commit].
      destruct (NEXT_PUBLIC_GIT_COMMIT E) as [[|c1 g]|]; try discriminate.
      destruct (negb (String.eqb (String c1 g) "unknown")); [|discriminate].
      rewrite shortened. intros H. inversion H; subst.
      destruct (Hs (String c1 g)) as (H1 & H2 & H3); [discriminate|].
      split; [exact H1|]. split; [exact H2|].
      eexists. split; [reflexivity | exact H3].
    + destruct (fetch_version E); cbn [commit]; exact Hfetch.
  - destruct (fetch_version E); cbn [commit]; exact Hfetch.
Qed.

Lemma badge_commit_is_short_witness :
  "0123456" <> ""
  /\ (String.length "0123456" <= 7)%nat
  /\ exists given,
       commitGiven (servedBy VersionCases.release) = Some given
       /\ String.prefix "0123456" given = true.
Proof.
  apply (badge_commit_is_short (servedBy VersionCases.release) "0123456").
  reflexivity.
Defined.

End VersionProofs.

(** ** The job status route *)

Module JobStatusProofs.
Import Store JobStatus.
Import LocalLoginProofs.

Lemma removeFirst_scheme t : removeFirst "Bearer " ("Bearer " ++ t) = t.
Proof. destruct t; reflexivity. Qed.

Lemma removeFirst_absent pattern : forall s,
  absent pattern s = true -> removeFirst pattern s = s.
Proof.
  induction s as [|c s IH]; cbn [absent removeFirst]; intros H;
    apply andb_prop in H; destruct H as [Hp Hrest];
    apply negb_true_iff in Hp; rewrite Hp; [reflexivity|].
  rewrite IH by exact Hrest. reflexivity.
Qed.

(** X29: Job details are for verified administrators only.  Whenever the route
    answers with the details of a job, the request carried an
    Authorization header; the token, which is the header with its first
    [Bearer ] removed, is not empty; [verifyAccessToken] accepted it with
    the role admin; the queue service found the job of the id asked for;
    the details are the answered fields of that job and the status is
    200.  The scheme is optional: [Bearer t] yields the token [t], and a
    header in which [Bearer ] does not occur is taken as the token as it
    is. *)
Theorem job_details_need_admin_token :
  (forall E id db resp db' v,
      GET E id db = (Returned resp, db') ->
      disclosed resp = Some v ->
      exists header p job,
        authorization E = Some header
        /\ removeFirst "Bearer " header <> ""
        /\ verifyAccessToken E (removeFirst "Bearer " header)
           = Returned (Some p)
        /\ role p = "admin"
        /\ getJob E id = Returned (Some job)
        /\ v = viewOf job
        /\ statusOf resp = 200%Z)
  /\ (forall t, removeFirst "Bearer " ("Bearer " ++ t) = t)
  /\ (forall header,
        absent "Bearer " header = true ->
        removeFirst "Bearer " header = header).
Proof.
  split; [|split; [exact removeFirst_scheme
                  | exact (removeFirst_absent "Bearer ")]].
  intros E id db resp db' v Hrun Hv.
  unfold GET, tryCatch, handler, tokenOf in Hrun.
  assert (forall e d,
             (bind (Logger.error (logEnv E) logger "Failed to get job status"
                      (Some [("error",
                              match e with
                              | Error m => m
                              | NonError => "[object]"
                              end)]))
                (fun _ =>
                   ret (NextResponse_json
                          (InternalError
                             match e with
                             | Error m => m
                             | NonError => "Failed to get job status"
                             end) 500))) d
             = (Returned resp, db') -> False) as Hcatch.
  { intros e d H. unfold Logger.error, logger in H. skip_log.
    cbn in H. inversion H; subst. discriminate Hv. }
  destruct (authorization E) as [header|]; cbn [option_map] in Hrun;
    [|cbn in Hrun; inversion Hrun; subst; discriminate Hv].
  destruct (removeFirst "Bearer " header) as [|c0 token] eqn:Htok;
    [cbn in Hrun; inversion Hrun; subst; discriminate Hv|].
  rewrite bind_liftOutcome in Hrun.
  destruct (verifyAccessToken E (String c0 token)) as [[p|]|e] eqn:Hver;
    [ | cbn in Hrun; inversion Hrun; subst; discriminate Hv
      | destruct (Hcatch _ _ Hrun) ].
  destruct (String.eqb (role p) "admin") eqn:Hrole; cbn [negb] in Hrun;
    [|cbn in Hrun; inversion Hrun; subst; discriminate Hv].
  apply String.eqb_eq in Hrole.
  unfold Logger.debug at 1, logger in Hrun. skip_log.
  rewrite bind_liftOutcome in Hrun.
  destruct (getJob E id) as [[job|]|e] eqn:Hjob;
    [ | | destruct (Hcatch _ _ Hrun) ].
  - unfold Logger.debug, logger in Hrun. skip_log. cbn in Hrun.
    inversion Hrun; subst. cbn in Hv. inversion Hv; subst.
    exists header, p, job. rewrite Htok.
    repeat split; try assumption. discriminate.
  - unfold Logger.debug, logger in Hrun. skip_log. cbn in Hrun.
    inversion Hrun; subst. discriminate Hv.
Qed.

Lemma job_details_need_admin_token_witness :
  exists header p job,
    authorization JobStatusCases.adminCall = Some header
    /\ removeFirst "Bearer " header <> ""
    /\ verifyAccessToken JobStatusCases.adminCall
         (removeFirst "Bearer " header)
       = Returned (Some p)
    /\ role p = "admin"
    /\ getJob JobStatusCases.adminCall "job-1" = Returned (Some job)
    /\ viewOf JobStatusCases.searchJob = viewOf job
    /\ statusOf
         (NextResponse_json (JobBody (viewOf JobStatusCases.searchJob)) 200)
       = 200%Z.
Proof.
  apply (proj1 job_details_need_admin_token JobStatusCases.adminCall
               "job-1" Scenario.dbPending
               (NextResponse_json
                  (JobBody (viewOf JobStatusCases.searchJob)) 200)
               (snd (GET JobStatusCases.adminCall "job-1"
                         Scenario.dbPending))
               (viewOf JobStatusCases.searchJob)).
  - reflexivity.
  - reflexivity.
Defined.

End JobStatusProofs.

(** ** The list of pending users and the approval route *)

Module PendingUsersProofs.
Import Store UserApproval PendingUsers.
Import UserApprovalProofs.

Lemma In_insertDesc x u : forall l,
  In x (insertDesc u l) <-> x = u \/ In x l.
Proof.
  induction l as [|v l IH]; cbn [insertDesc In].
  - intuition congruence.
  - destruct (createdAt v <? createdAt u)%Z; cbn [In].
    + intuition congruence.
    + rewrite IH. intuition congruence.
Qed.

Lemma In_orderBy x : forall l, In x (orderByCreatedAtDesc l) <-> In x l.
Proof.
  unfold orderByCreatedAtDesc.
  induction l as [|v l IH]; cbn [fold_right In]; [tauto|].
  rewrite In_insertDesc, IH. intuition congruence.
Qed.

Lemma find_unique_user us u :
  NoDup (map user_id us) -> In u us ->
  find (fun v => String.eqb (user_id v) (user_id u)) us = Some u.
Proof.
  intros Hnd Hin.
  destruct (find (fun v => String.eqb (user_id v) (user_id u)) us)
    as [w|] eqn:Hf.
  - apply find_some in Hf. destruct Hf as [Hw Hid].
    apply String.eqb_eq in Hid.
    rewrite (unique_user us w u Hnd Hw Hin Hid). reflexivity.
  - exfalso. apply (find_none _ _ Hf u) in Hin.
    rewrite String.eqb_refl in Hin. discriminate.
Qed.

(** X30: The list hides what the approval route accepts.  With unique user
    ids, the approval route succeeds for every user who is pending
    approval, while the list of pending users shows such a user exactly
    when the account is not soft-deleted: a soft-deleted pending account
    can be approved or removed although no list shows it.  The list
    itself changes nothing. *)
Theorem approvable_but_unlisted :
  forall EL EP s u body,
    NoDup (map user_id (users s)) ->
    In u (users s) -> pending u ->
    PendingUsers.served EL -> UserApproval.served EP body ->
    (exists resp s',
        UserApproval.POST EP (user_id u) s = (Returned resp, s')
        /\ succeeded resp = true)
    /\ (exists resp,
          GET EL s = (Returned resp, s)
          /\ (In (user_id u) (listedIds resp) <-> deletedAt u = None)).
Proof.
  intros EL EP s u body Hnd Hin Hp (Hauth & Hadm & Hfm) Hserved.
  split.
  - rewrite (POST_pending EP (user_id u) s body u Hserved
               (find_unique_user _ _ Hnd Hin) Hp).
    destruct (truthy (approveOf body)); eexists _, _; split; reflexivity.
  - unfold GET. rewrite Hauth, Hadm. cbn [negb].
    unfold utryCatch, ubind, user_findMany, uret. rewrite Hfm.
    eexists. split; [reflexivity|]. cbn [listedIds].
    rewrite map_map. cbn [select listed_id]. rewrite in_map_iff.
    unfold pending in Hp. split.
    + intros (v & Hid & Hv). apply (proj1 (In_orderBy _ _)) in Hv.
      apply filter_In in Hv. destruct Hv as [Hv Hw].
      rewrite (unique_user _ v u Hnd Hv Hin Hid) in Hw.
      unfold pendingWhere in Hw. apply andb_prop in Hw.
      destruct (deletedAt u); [destruct Hw; discriminate | reflexivity].
    + intros Hdel. exists u. split; [reflexivity|].
      apply (proj2 (In_orderBy _ _)). apply filter_In. split; [exact Hin|].
      unfold pendingWhere. rewrite Hp, Hdel, String.eqb_refl. reflexivity.
Qed.

Lemma approvable_but_unlisted_witness :
  (exists resp s',
      UserApproval.POST ApprovalCases.approving "u-3" ApprovalCases.withGhost
      = (Returned resp, s')
      /\ succeeded resp = true)
  /\ (exists resp,
        GET ApprovalCases.listing ApprovalCases.withGhost
        = (Returned resp, ApprovalCases.withGhost)
        /\ (In "u-3" (listedIds resp) <-> Some 180%Z = None)).
Proof.
  apply (approvable_but_unlisted ApprovalCases.listing
           ApprovalCases.approving ApprovalCases.withGhost
           ApprovalCases.ghost
           (SearchIndexers.JObj [("approve", SearchIndexers.JBool true)])).
  - repeat constructor; cbn; intuition discriminate.
  - right. right. left. reflexivity.
  - reflexivity.
  - repeat split.
  - repeat split. discriminate.
Defined.

End PendingUsersProofs.
